(** * Catalogue reconciliation ([compare.py]): a shallow embedding

    The development follows the source file top-down:
    - [PyStr]: the [str] methods the program calls ([lower], [strip],
      [replace], [split(' ', 1)], [isdigit], [in]);
    - the Size Parser ([parse_size_amount], [parse_size_unit], [parse_size]);
    - the Item Normalizer ([create_item]) and the EAN Expander
      ([prepare_parsed_list], [add_source]);
    - the Exact Matcher ([append_by_ean], [combine_by_ean]);
    - the Brand Clusterer ([group_items_by_brands], [match_brands], ...);
    - the Alias Matcher ([append_by_alias], [combine_items_by_alias]);
    - the merge done by the [__main__] block;
    - the per-source parsers ([d1_parse], [d2_parse], [d3_parse]), over
      records as [xml2dict] and [json] return them.

    Text is modelled as [string]: one [ascii] per code point, which covers
    the code points below 256.  Dictionaries that the program iterates over
    are association lists in insertion order ([PyDict]); the ['bind'] field
    that the matchers write into items, and the group lists that several
    items and tables share, live in an explicit store. *)

From Stdlib Require Import Ascii ZArith Lia Permutation.
From stdpp Require Import gmap strings list pretty.

(** ** Results of calls that may raise *)

Inductive exn := ValueError | KeyError | TypeError | AssertionError.

Inductive result (A : Type) :=
| Ok (a : A)
| Raise (e : exn).
Arguments Ok {A} a.
Arguments Raise {A} e.

Definition rbind {A B} (r : result A) (k : A -> result B) : result B :=
  match r with
  | Ok a => k a
  | Raise e => Raise e
  end.

Global Instance result_bind : MBind result := fun A B k r => rbind r k.
Global Instance result_ret : MRet result := @Ok.

(** ** Python [str] methods *)

Module PyStr.

Definition code (c : ascii) : nat := nat_of_ascii c.

(** [c.isspace()] for a code point below 256. *)
Definition is_space (c : ascii) : bool :=
  let n := code c in
  ((9 <=? n) && (n <=? 13) || (28 <=? n) && (n <=? 32)
   || (n =? 133) || (n =? 160))%nat.

(** [c.isdigit()] for a code point below 256: the decimal digits and the
    superscripts one, two and three. *)
Definition is_digit_char (c : ascii) : bool :=
  let n := code c in
  ((48 <=? n) && (n <=? 57) || (n =? 178) || (n =? 179) || (n =? 185))%nat.

Definition is_decimal_char (c : ascii) : bool :=
  let n := code c in ((48 <=? n) && (n <=? 57))%nat.

Definition lower_char (c : ascii) : ascii :=
  let n := code c in
  if ((65 <=? n) && (n <=? 90)
      || (192 <=? n) && (n <=? 222) && negb (n =? 215))%nat
  then ascii_of_nat (n + 32) else c.

Fixpoint lower (s : string) : string :=
  match s with
  | EmptyString => EmptyString
  | String c s' => String (lower_char c) (lower s')
  end.

Fixpoint lstrip (s : string) : string :=
  match s with
  | EmptyString => EmptyString
  | String c s' => if is_space c then lstrip s' else s
  end.

Definition is_empty (s : string) : bool :=
  match s with EmptyString => true | _ => false end.

Fixpoint rstrip (s : string) : string :=
  match s with
  | EmptyString => EmptyString
  | String c s' =>
      let r := rstrip s' in
      if is_space c && is_empty r then EmptyString else String c r
  end.

Definition strip (s : string) : string := rstrip (lstrip s).

(** [pat in s] *)
Fixpoint contains (pat s : string) : bool :=
  String.prefix pat s ||
  match s with
  | EmptyString => false
  | String _ s' => contains pat s'
  end.

(** [s.replace(pat, rep)] for a non-empty [pat]: occurrences are found
    from the left and do not overlap; [skip] counts the characters of the
    occurrence just replaced that are still to be passed over. *)
Fixpoint replace_from (pat rep : string) (skip : nat) (s : string) : string :=
  match s with
  | EmptyString => EmptyString
  | String c s' =>
      match skip with
      | S k => replace_from pat rep k s'
      | O =>
          if String.prefix pat s
          then rep +:+ replace_from pat rep (String.length pat - 1) s'
          else String c (replace_from pat rep 0 s')
      end
  end.

(** With an empty [pat] Python puts [rep] before every character and at
    the end. *)
Fixpoint intersperse (rep s : string) : string :=
  match s with
  | EmptyString => rep
  | String c s' => rep +:+ String c (intersperse rep s')
  end.

Definition replace (pat rep s : string) : string :=
  if is_empty pat then intersperse rep s else replace_from pat rep 0 s.

(** [s.split(' ', 1)]: the text before the first space, and the text after
    it when there is a space. *)
Fixpoint split_space (s : string) : string * option string :=
  match s with
  | EmptyString => (EmptyString, None)
  | String c s' =>
      if Ascii.eqb c " " then (EmptyString, Some s')
      else let '(a, b) := split_space s' in (String c a, b)
  end.

Fixpoint all_chars (p : ascii -> bool) (s : string) : bool :=
  match s with
  | EmptyString => true
  | String c s' => p c && all_chars p s'
  end.

Fixpoint count_char (c0 : ascii) (s : string) : nat :=
  match s with
  | EmptyString => O
  | String c s' => ((if Ascii.eqb c c0 then 1 else 0) + count_char c0 s')%nat
  end.

(** [s.isdigit()] *)
Definition isdigit (s : string) : bool :=
  negb (is_empty s) && all_chars is_digit_char s.

(** Whether [float(s)] accepts [s], for a text made of digit characters
    and points (the only texts the program passes to [float]): decimal
    digits around at most one point, and at least one digit. *)
Definition float_literal (s : string) : bool :=
  all_chars (fun c => is_decimal_char c || Ascii.eqb c ".") s
  && (count_char "." s <=? 1)%nat
  && negb (all_chars (fun c => Ascii.eqb c ".") s).

End PyStr.

(** ** Python floats

    The program parses an amount with [float], tests it for truth, formats
    it at a fixed precision and compares two roundings of it.  These are
    operations of the language, not of the program; the embedding takes them
    as an interface.  A float can be an infinity ([float] of a text of 309
    digits or more) or a NaN; [round(w)] raises on these, and
    [float_finite] tells them apart from the others. *)

Class PyFloat (F : Type) := {
  (** [float(s)] for a text [s] that [float] accepts *)
  float_of_literal : string -> F;
  (** the truth value of a float: false exactly for zero *)
  float_truth : F -> bool;
  (** [f'{w:0.{u}f}'] *)
  format_fixed : F -> nat -> string;
  (** [math.isfinite(w)]: [round(w)] returns exactly on a finite [w]; it
      raises [OverflowError] on an infinity and [ValueError] on a NaN *)
  float_finite : F -> bool;
  (** [round(w) == round(w, 3)], for a finite [w] *)
  round_is_whole : F -> bool;
  (** [f'{int(w)}'] *)
  format_int : F -> string;
  (** [f'{w}'] *)
  format_float : F -> string
}.

(** ** Size Parser *)

Section SizeParser.
Context {F : Type} `{PyFloat F}.

(** [float(s)]: raises [ValueError] on a text that is not a literal. *)
Definition float (s : string) : result F :=
  if PyStr.float_literal s then Ok (float_of_literal s) else Raise ValueError.

(** [parse_size_amount]: the argument is [None] when the record has no
    size field.  The result [Ok None] is Python's implicit [return None]. *)
Definition parse_size_amount (s : option string) : result (option F) :=
  match s with
  | None => Ok None
  | Some s =>
      if PyStr.is_empty s then Ok None
      else
        let s := PyStr.replace "," "." (fst (PyStr.split_space s)) in
        if PyStr.isdigit (PyStr.replace "." "" s)
        then a ← float s; Ok (Some a)
        else Ok None
  end.

Definition parse_size_unit (s : option string) : option string :=
  match s with
  | None => None
  | Some s =>
      if negb (PyStr.is_empty s) && PyStr.contains " " s
      then PyStr.strip <$> snd (PyStr.split_space s)
      else None
  end.

(** The dictionary [parse_size] returns: each key is present or not. *)
Record size_rec := {
  Weight : option F;
  Weight_UnitOfMeasurement : option string
}.

Definition parse_size (s : option string) : result size_rec :=
  amount ← parse_size_amount s;
  let unit := parse_size_unit s in
  Ok {| Weight :=
          match amount with
          | Some a => if float_truth a then Some a else None
          | None => None
          end;
        Weight_UnitOfMeasurement :=
          match unit with
          | Some u => if PyStr.is_empty u then None else Some u
          | None => None
          end |}.

End SizeParser.


(** ** Dictionaries in insertion order

    A Python [dict] keeps its keys in the order of their first insertion;
    assigning to a key that is present replaces the value in place. *)

Module PyDict.

Section Dict.
Context {K : Type} `{EqDecision K} {V : Type}.

Definition dict := list (K * V).

Fixpoint get (k : K) (d : dict) : option V :=
  match d with
  | [] => None
  | (k', v) :: d' => if decide (k = k') then Some v else get k d'
  end.

Fixpoint set (k : K) (v : V) (d : dict) : dict :=
  match d with
  | [] => [(k, v)]
  | (k', v') :: d' =>
      if decide (k = k') then (k', v) :: d' else (k', v') :: set k v d'
  end.

Definition keys (d : dict) : list K := d.*1.
Definition values (d : dict) : list V := d.*2.

End Dict.

Arguments dict : clear implicits.

End PyDict.

(** ** Item Normalizer *)

(** The canonical record the per-source parsers hand over: [rec_Weight] is
    the value under ['Weight'] when it is a number, and [None] when the key
    is absent or holds something else. *)
Record source_rec (F : Type) := {
  rec_id : string;
  rec_name : string;
  rec_Brand : option string;
  rec_Weight : option F;
  rec_Weight_UnitOfMeasurement : option string;
  rec_EANs : list string
}.
Arguments rec_id {F}.
Arguments rec_name {F}.
Arguments rec_Brand {F}.
Arguments rec_Weight {F}.
Arguments rec_Weight_UnitOfMeasurement {F}.
Arguments rec_EANs {F}.

(** The dictionary [create_item] builds, without its ['raw'] entry (the
    record itself, which nothing reads) and without ['bind'], which the
    matchers add later and which lives in the store. *)
Record item := {
  source_name : string;
  item_id : string;
  ean_code : option string;
  brand : string;
  item_name : string;
  wm : string;
  alias : string;
  EANs : list string
}.

Global Instance item_eq_dec : EqDecision item.
Proof. solve_decision. Defined.

Definition common_words : list string :=
  ["professional"; "cosmetics"; "professionnel"].

Section Normalizer.
Context {F : Type} `{PyFloat F}.

(** [f'{weight:0.{u}f} {measure}'.strip()] *)
Definition weight_text (weight : F) (u : nat) (measure : string) : string :=
  PyStr.strip (format_fixed weight u +:+ " " +:+ measure).

(** [create_item] returns on a canonical record unless it gets to
    [round(weight)] with a weight that is not finite: the weight is a
    number, it is true, and [round] raises on it. *)
Definition create_item_returns (rec : source_rec F) : bool :=
  match rec_Weight rec with
  | Some weight => if float_truth weight then float_finite weight else true
  | None => true
  end.

(** [create_item]: the dictionary it returns, on a record on which it
    returns ([create_item_returns]). *)
Definition create_item (sour : string) (rec : source_rec F) : item :=
  let name := PyStr.lower (rec_name rec) in
  let measure := default "" (rec_Weight_UnitOfMeasurement rec) in
  let '(name, wm) :=
    match rec_Weight rec with
    | Some weight =>
        if float_truth weight then
          let name :=
            foldl (fun name i =>
                     PyStr.replace (weight_text weight (3 - i) measure) "" name)
                  name (seq 0 4) in
          let weight_str :=
            if round_is_whole weight then format_int weight
            else format_float weight in
          (name, PyStr.strip (weight_str +:+ " " +:+ measure))
        else (name, "")
    | None => (name, "")
    end in
  let brand := PyStr.lower (default "" (rec_Brand rec)) in
  let name := PyStr.replace brand "" name in
  let brand :=
    foldl (fun brand common_word => PyStr.replace common_word "" brand)
          brand common_words in
  let name := PyStr.replace brand "" name in
  let brand := if (String.length brand <=? 3)%nat then "other" else brand in
  {| source_name := sour;
     item_id := rec_id rec;
     ean_code := None;
     brand := PyStr.strip brand;
     item_name := rec_name rec;
     wm := wm;
     alias := PyStr.strip name;
     EANs := rec_EANs rec |}.

(** *** EAN Expander *)

(** [{**item, 'ean_code': ean}] *)
Definition with_ean (it : item) (ean : string) : item :=
  {| source_name := source_name it;
     item_id := item_id it;
     ean_code := Some ean;
     brand := brand it;
     item_name := item_name it;
     wm := wm it;
     alias := alias it;
     EANs := EANs it |}.

Definition prepare_parsed_list (sour : string) (recs : list (source_rec F))
  : PyDict.dict string item :=
  let new_items := map (create_item sour) recs in
  foldl (fun d it =>
           foldl (fun d ean => PyDict.set ean (with_ean it ean) d) d (EANs it))
        [] new_items.

(** [prepare_parsed_list] runs [create_item] on every record, with or
    without codes, before it builds the dictionary: it returns when
    [create_item] returns on each of them. *)
Definition prepare_parsed_list_returns (recs : list (source_rec F)) : bool :=
  forallb create_item_returns recs.

(** [os.path.basename]: what follows the last slash. *)
Fixpoint basename (fn : string) : string :=
  match fn with
  | EmptyString => EmptyString
  | String c fn' =>
      if PyStr.contains "/" fn' then basename fn'
      else if Ascii.eqb c "/" then fn' else fn
  end.

Definition add_source (sources : PyDict.dict string (PyDict.dict string item))
    (fn : string) (raw_recs : list (source_rec F))
  : PyDict.dict string (PyDict.dict string item) :=
  let new_sour := basename fn in
  let new_items := prepare_parsed_list new_sour raw_recs in
  PyDict.set new_sour new_items sources.

End Normalizer.

(** ** The store shared by the matchers

    Every per-code copy made by [prepare_parsed_list] is a dictionary object
    of its own, and [sources] holds exactly one such object under each
    (source name, code), so this pair names the object: [item_key].  The
    ['bind'] entry an item may acquire is kept in [binds], under the item's
    key.  Its value is a list object that the item shares with the other
    members and with the result tables; list objects are cells of the arena
    [groups], and a reference to one is its index. *)

Definition item_key (it : item) : string * option string :=
  (source_name it, ean_code it).

Record store := {
  binds : gmap (string * option string) nat;
  groups : list (list item)
}.

Definition empty_store : store := {| binds := ∅; groups := [] |}.

(** ['bind' in item] and [item['bind']] *)
Definition bind_of (st : store) (it : item) : option nat :=
  binds st !! item_key it.

(** [item['bind'] = bind] *)
Definition set_bind (it : item) (g : nat) (st : store) : store :=
  {| binds := <[item_key it := g]> (binds st); groups := groups st |}.

(** [bind.append(new_item)] *)
Definition group_append (g : nat) (new_item : item) (st : store) : store :=
  {| binds := binds st;
     groups := alter (fun members => members ++ [new_item]) g (groups st) |}.

(** A new list object; its reference is the next free index. *)
Definition new_group (members : list item) (st : store) : nat * store :=
  (length (groups st),
   {| binds := binds st; groups := groups st ++ [members] |}).

(** The members of a list object. *)
Definition members_of (st : store) (g : nat) : list item :=
  default [] (groups st !! g).

(** [a == b] on two lists of items.  Two item dictionaries of the sources
    are equal only when they are one object: different objects differ under
    ['source_name'] or under ['ean_code'], which the comparison reaches
    before ['bind']. *)
Definition members_eqb (a b : list item) : bool :=
  bool_decide (item_key <$> a = item_key <$> b).

(** [bind in arr] for a list [arr] of list objects: the same object, or one
    with equal members. *)
Definition group_in (st : store) (g : nat) (arr : list nat) : bool :=
  existsb (fun g' => bool_decide (g' = g)
                     || members_eqb (members_of st g') (members_of st g)) arr.

(** ** Exact Matcher *)

Record ean_state := {
  ean_sources : PyDict.dict string (PyDict.dict string item);
  res_eans : PyDict.dict string nat;
  ean_store : store
}.

(** The scan [for sour, items in ean_sources.items(): if ean in items: ...
    break]: the item under [ean] in the first source that has one. *)
Fixpoint first_with_ean (ean : string)
    (ean_sources : PyDict.dict string (PyDict.dict string item)) : option item :=
  match ean_sources with
  | [] => None
  | (sour, items) :: rest =>
      match PyDict.get ean items with
      | Some item0 => Some item0
      | None => first_with_ean ean rest
      end
  end.

(** The body of the loop of [append_by_ean]. *)
Definition append_ean_item (s : ean_state) (ean : string) (new_item : item)
  : ean_state :=
  match PyDict.get ean (res_eans s) with
  | Some bind =>
      {| ean_sources := ean_sources s;
         res_eans := res_eans s;
         ean_store := set_bind new_item bind
                        (group_append bind new_item (ean_store s)) |}
  | None =>
      match first_with_ean ean (ean_sources s) with
      | Some item0 =>
          let '(bind, st) := new_group [item0; new_item] (ean_store s) in
          {| ean_sources := ean_sources s;
             res_eans := PyDict.set ean bind (res_eans s);
             ean_store := set_bind new_item bind (set_bind item0 bind st) |}
      | None => s
      end
  end.

Definition append_by_ean (s : ean_state) (new_sour : string)
    (new_items : PyDict.dict string item) : ean_state :=
  let s := foldl (fun s '(ean, new_item) => append_ean_item s ean new_item)
                 s new_items in
  {| ean_sources := PyDict.set new_sour new_items (ean_sources s);
     res_eans := res_eans s;
     ean_store := ean_store s |}.

(** [combine_by_ean] starts from fresh tables; the items carry no ['bind']
    yet, so the store is empty.  It returns [res_eans]; the store is what
    its writes leave behind. *)
Definition combine_by_ean (sources : PyDict.dict string (PyDict.dict string item))
  : ean_state :=
  foldl (fun s '(new_sour, new_items) => append_by_ean s new_sour new_items)
        {| ean_sources := []; res_eans := []; ean_store := empty_store |}
        sources.

(** ** Brand Clusterer and Alias Matcher

    Both call [process.extractOne(query, choices, scorer=fuzz.token_set_ratio)]
    of the fuzzywuzzy package.  The score it computes for a query and a
    choice is an integer from 0 to 100; the embedding takes it as given. *)

Record tBrand := {
  tb_name : string;
  tb_source : string;
  tb_items : list item
}.

Section Matching.
Variable token_set_ratio : string -> string -> N.

(** [process.extractOne]: the choices that reach the cut-off 0 are scored,
    and [max] returns the first of those with the greatest score, or there
    is no result when there is none. *)
Definition extractOne (query : string) (choices : list string)
  : option (string * N) :=
  foldl (fun best choice =>
           let score := token_set_ratio query choice in
           if (0 <=? score)%N then
             match best with
             | None => Some (choice, score)
             | Some (_, best_score) =>
                 if (best_score <? score)%N then Some (choice, score) else best
             end
           else best)
        None choices.

(** [group_items_by_brands] *)
Definition group_items_by_brands (items : PyDict.dict string item)
  : PyDict.dict string (list item) :=
  foldl (fun brands it =>
           PyDict.set (brand it)
                      (default [] (PyDict.get (brand it) brands) ++ [it]) brands)
        [] (PyDict.values items).

Definition create_brand_sources
    (sources : PyDict.dict string (PyDict.dict string item))
  : PyDict.dict string (PyDict.dict string (list item)) :=
  foldl (fun brand_sources '(new_sour, new_items) =>
           PyDict.set new_sour (group_items_by_brands new_items) brand_sources)
        [] sources.

(** The table of [match_brands]: similar brands share one list object, so
    [res_brands] maps a brand name to a reference into [clusters]. *)
Record brand_state := {
  res_brands : PyDict.dict string nat;
  clusters : list (list tBrand)
}.

(** The body of the inner loop of [match_brands].  With no result from
    [extractOne] the unpacking raises [TypeError]. *)
Definition match_brand (similarity_threshold : Z) (new_sour : string)
    (s : brand_state) (new_brand : string) (new_items : list item)
  : result brand_state :=
  let brand_obj := {| tb_name := new_brand; tb_source := new_sour;
                      tb_items := new_items |} in
  match PyDict.get new_brand (res_brands s) with
  | Some c =>
      Ok {| res_brands := res_brands s;
            clusters := alter (fun l => l ++ [brand_obj]) c (clusters s) |}
  | None =>
      match res_brands s with
      | _ :: _ =>
          match extractOne new_brand (PyDict.keys (res_brands s)) with
          | None => Raise TypeError
          | Some (most_similar_brand, most_similar_score) =>
              if (similarity_threshold <=? Z.of_N most_similar_score)%Z then
                match PyDict.get most_similar_brand (res_brands s) with
                | None => Raise KeyError
                | Some connected_list =>
                    Ok {| res_brands :=
                            PyDict.set new_brand connected_list (res_brands s);
                          clusters :=
                            alter (fun l => l ++ [brand_obj]) connected_list
                                  (clusters s) |}
                end
              else
                Ok {| res_brands :=
                        PyDict.set new_brand (length (clusters s)) (res_brands s);
                      clusters := clusters s ++ [[brand_obj]] |}
          end
      | [] =>
          Ok {| res_brands :=
                  PyDict.set new_brand (length (clusters s)) (res_brands s);
                clusters := clusters s ++ [[brand_obj]] |}
      end
  end.

(** A loop whose body may raise. *)
Definition for_each {S A} (body : S -> A -> result S) (l : list A) (s : S)
  : result S :=
  foldl (fun r a => s ← r; body s a) (Ok s) l.

Definition match_brands
    (brand_sources : PyDict.dict string (PyDict.dict string (list item)))
    (similarity_threshold : Z) : result brand_state :=
  for_each
    (fun s '(new_sour, new_brands) =>
       for_each
         (fun s '(new_brand, new_items) =>
            match_brand similarity_threshold new_sour s new_brand new_items)
         new_brands s)
    brand_sources {| res_brands := []; clusters := [] |}.

Definition group_items_by_similar_brands
    (sources : PyDict.dict string (PyDict.dict string item))
    (brand_similarity_threshold : Z)
  : result (PyDict.dict string (list item)) :=
  let brand_sources := create_brand_sources sources in
  s ← match_brands brand_sources brand_similarity_threshold;
  Ok (map (fun '(brand, brand_list) =>
             (brand,
              concat (map tb_items (default [] (clusters s !! brand_list)))))
          (res_brands s)).

(** *** Alias Matcher *)

Record alias_state := {
  res_arr : list nat;
  alias_store : store
}.

Definition same_source (new_sour : string) (it : item) : bool :=
  bool_decide (source_name it = new_sour).

Definition not_bound_yet (st : store) (new_sour : string) (it : item) : bool :=
  if same_source new_sour it then false
  else match bind_of st it with
       | Some bind => negb (existsb (same_source new_sour) (members_of st bind))
       | None => true
       end.

Definition check_item (st : store) (new_sour : string) (new_wm : string)
    (it : item) : bool :=
  bool_decide (wm it = new_wm) && not_bound_yet st new_sour it.

(** [filter(check_item, brand_items)] for the new item. *)
Definition candidates (st : store) (brand_items : list item)
    (new_sour : string) (new_item : item) : list item :=
  filter (fun it => check_item st new_sour (wm new_item) it = true) brand_items.

(** The loop [item = None; for item in ...: if get_alias(item) == ...: break]:
    the first candidate with the alias sought, else the last candidate, else
    [None]. *)
Fixpoint pick_item (most_similar_alias : string) (candidates : list item)
    (item0 : option item) : option item :=
  match candidates with
  | [] => item0
  | it :: rest =>
      if bool_decide (alias it = most_similar_alias) then Some it
      else pick_item most_similar_alias rest (Some it)
  end.

(** [item.setdefault('bind', [item])] *)
Definition setdefault_bind (it : item) (st : store) : nat * store :=
  match bind_of st it with
  | Some bind => (bind, st)
  | None =>
      let '(bind, st) := new_group [it] st in
      (bind, set_bind it bind st)
  end.

(** The body of the loop of [append_by_alias]. *)
Definition append_alias_item
    (res_brands_items : PyDict.dict string (list item))
    (new_sour : string) (alias_similarity_threshold : Z)
    (s : alias_state) (new_item : item) : result alias_state :=
  match bind_of (alias_store s) new_item with
  | Some _ => Ok s
  | None =>
      match PyDict.get (brand new_item) res_brands_items with
      | None => Raise KeyError
      | Some brand_items =>
          let candidates :=
            candidates (alias_store s) brand_items new_sour new_item in
          match extractOne (alias new_item) (alias <$> candidates) with
          | None => Ok s
          | Some (most_similar_alias, most_similar_score) =>
              if (alias_similarity_threshold <=? Z.of_N most_similar_score)%Z then
                match pick_item most_similar_alias candidates None with
                | None => Raise AssertionError
                | Some it =>
                    let '(bind, st) := setdefault_bind it (alias_store s) in
                    let st := group_append bind new_item st in
                    Ok {| res_arr :=
                            if group_in st bind (res_arr s) then res_arr s
                            else res_arr s ++ [bind];
                          alias_store := st |}
                end
              else Ok s
          end
      end
  end.

Definition append_by_alias (res_brands_items : PyDict.dict string (list item))
    (s : alias_state) (new_sour : string)
    (new_items : PyDict.dict string item) (alias_similarity_threshold : Z)
  : result alias_state :=
  for_each (append_alias_item res_brands_items new_sour
                              alias_similarity_threshold)
           (PyDict.values new_items) s.

(** [combine_items_by_alias]: [st] is the store the Exact Matcher left. *)
Definition combine_items_by_alias
    (sources : PyDict.dict string (PyDict.dict string item))
    (res_brand_items : PyDict.dict string (list item))
    (alias_similarity_threshold : Z) (st : store) : result alias_state :=
  for_each
    (fun s '(new_sour, new_items) =>
       append_by_alias res_brand_items s new_sour new_items
                       alias_similarity_threshold)
    sources {| res_arr := []; alias_store := st |}.

(** ** The run of the [__main__] block *)

Record exported := {
  x_source_name : string;
  x_id : string;
  x_ean_code : option string;
  x_name : string
}.

Definition export_item (it : item) : exported :=
  {| x_source_name := source_name it; x_id := item_id it;
     x_ean_code := ean_code it; x_name := item_name it |}.

(** What the run leaves: the merged list of list objects
    ([same_items_list]) and the store that gives their members. *)
Record outcome := {
  same_items_list : list nat;
  final_store : store
}.

(** From [sources] to [same_items_list], with the two thresholds that the
    block leaves at their default. *)
Definition combine (brand_similarity_threshold alias_similarity_threshold : Z)
    (sources : PyDict.dict string (PyDict.dict string item)) : result outcome :=
  let e := combine_by_ean sources in
  res_brand_items ← group_items_by_similar_brands sources
                      brand_similarity_threshold;
  a ← combine_items_by_alias sources res_brand_items
        alias_similarity_threshold (ean_store e);
  let st := alias_store a in
  let res_first := PyDict.values (res_eans e) in
  let res_second :=
    filter (fun same_items => group_in st same_items res_first = false)
           (res_arr a) in
  Ok {| same_items_list := res_first ++ res_second; final_store := st |}.

(** [res]: the exported members of every group of [same_items_list]. *)
Definition result_list (o : outcome) : list (list exported) :=
  map (fun g => export_item <$> members_of (final_store o) g)
      (same_items_list o).

End Matching.

(** The sources as the [add_source] calls build them, from the parsed
    records of each file. *)
Definition load_sources {F : Type} `{PyFloat F}
    (files : list (string * list (source_rec F)))
  : PyDict.dict string (PyDict.dict string item) :=
  foldl (fun sources '(fn, raw_recs) => add_source sources fn raw_recs) [] files.

(** The [add_source] calls return when [prepare_parsed_list] returns on the
    records of each file; [load_sources] is what they have built then. *)
Definition load_sources_returns {F : Type} `{PyFloat F}
    (files : list (string * list (source_rec F))) : bool :=
  forallb (fun '(_, raw_recs) => prepare_parsed_list_returns raw_recs) files.

Definition main {F : Type} `{PyFloat F} (token_set_ratio : string -> string -> N)
    (files : list (string * list (source_rec F))) : result outcome :=
  combine token_set_ratio 85%Z 85%Z (load_sources files).

(** [res], the list the block writes out. *)
Definition main_res {F : Type} `{PyFloat F}
    (token_set_ratio : string -> string -> N)
    (files : list (string * list (source_rec F)))
  : result (list (list exported)) :=
  o ← main token_set_ratio files; Ok (result_list o).

(** ** An instance of the float interface on exact decimals

    A value is [mant / 10 ^ scale].  Rounding is to the nearest, ties to the
    even neighbour, as Python's [round] and fixed-precision formatting do on
    the value they are given. *)

Module DecimalFloat.

Record dec := { mant : N; scale : nat }.

Definition digit (c : ascii) : N := N.of_nat (nat_of_ascii c - 48).

Fixpoint parse (s : string) (m : N) (after_point : option nat) : dec :=
  match s with
  | EmptyString => {| mant := m; scale := default O after_point |}
  | String c s' =>
      if Ascii.eqb c "." then parse s' m (Some O)
      else parse s' (10 * m + digit c)%N (S <$> after_point)
  end.

(** [value * 10 ^ u], rounded to an integer. *)
Definition round_to (d : dec) (u : nat) : N :=
  if (scale d <=? u)%nat then (mant d * 10 ^ N.of_nat (u - scale d))%N
  else
    let p := (10 ^ N.of_nat (scale d - u))%N in
    let q := (mant d / p)%N in
    let r := (mant d mod p)%N in
    if (p <? 2 * r)%N || ((2 * r =? p)%N && N.odd q) then (q + 1)%N else q.

Fixpoint pad (width : nat) (s : string) : string :=
  match width with
  | O => s
  | S w => if (String.length s <=? w)%nat then pad w (String "0" s) else s
  end.

Definition fixed_text (n : N) (u : nat) : string :=
  let p := (10 ^ N.of_nat u)%N in
  match u with
  | O => pretty n
  | S _ => pretty (n / p)%N +:+ "." +:+ pad u (pretty (n mod p)%N)
  end.

Fixpoint normalize (fuel : nat) (m : N) (sc : nat) : N * nat :=
  match fuel, sc with
  | S fuel', S sc' =>
      if (m mod 10 =? 0)%N then normalize fuel' (m / 10)%N sc' else (m, sc)
  | _, _ => (m, sc)
  end.

Definition repr (d : dec) : string :=
  let '(m, sc) := normalize (scale d) (mant d) (scale d) in
  match sc with
  | O => pretty m +:+ ".0"
  | S _ => fixed_text m sc
  end.

Global Instance dec_float : PyFloat dec := {|
  float_of_literal s := parse s 0%N None;
  float_truth d := negb (mant d =? 0)%N;
  format_fixed d u := fixed_text (round_to d u) u;
  float_finite _ := true;
  round_is_whole d := (round_to d 0 * 1000 =? round_to d 3)%N;
  format_int d := pretty (mant d / 10 ^ N.of_nat (scale d))%N;
  format_float := repr
|}.

End DecimalFloat.

(** ** The specification's wording, for comparison with [create_item] *)

(** Removal of the stop words, in order, from the lower-cased brand. *)
Definition without_common_words (raw_brand : option string) : string :=
  PyStr.replace "professionnel" ""
    (PyStr.replace "cosmetics" ""
       (PyStr.replace "professional" "" (PyStr.lower (default "" raw_brand)))).

(** Brand cleaning as the specification words it: lower-case, remove the
    stop words, trim, and then test the length of the trimmed text. *)
Definition spec_brand_cleaning (raw_brand : option string) : string :=
  let trimmed := PyStr.strip (without_common_words raw_brand) in
  if (String.length trimmed <=? 3)%nat then "other" else trimmed.

(** The same with the length tested before the text is trimmed. *)
Definition brand_cleaning_length_first (raw_brand : option string) : string :=
  let cleaned := without_common_words raw_brand in
  if (String.length cleaned <=? 3)%nat then "other" else PyStr.strip cleaned.

(** A record with another brand, or another name, and the rest unchanged:
    what feeding a derived text back through [create_item] means. *)
Definition with_Brand {F} (rec : source_rec F) (b : string) : source_rec F :=
  {| rec_id := rec_id rec; rec_name := rec_name rec; rec_Brand := Some b;
     rec_Weight := rec_Weight rec;
     rec_Weight_UnitOfMeasurement := rec_Weight_UnitOfMeasurement rec;
     rec_EANs := rec_EANs rec |}.

Definition with_name {F} (rec : source_rec F) (n : string) : source_rec F :=
  {| rec_id := rec_id rec; rec_name := n; rec_Brand := rec_Brand rec;
     rec_Weight := rec_Weight rec;
     rec_Weight_UnitOfMeasurement := rec_Weight_UnitOfMeasurement rec;
     rec_EANs := rec_EANs rec |}.

(** [pat] is a non-empty text that occurs in [s]: then [s.replace(pat, '')]
    changes [s]. *)
Definition occurs (pat s : string) : bool :=
  negb (PyStr.is_empty pat) && PyStr.contains pat s.

(** The working name of [create_item] once the renderings of the weight
    are removed, and the two brand texts it then removes. *)
Definition name_without_weight {F : Type} `{PyFloat F} (rec : source_rec F)
  : string :=
  let name := PyStr.lower (rec_name rec) in
  let measure := default "" (rec_Weight_UnitOfMeasurement rec) in
  match rec_Weight rec with
  | Some weight =>
      if float_truth weight then
        foldl (fun name i =>
                 PyStr.replace (weight_text weight (3 - i) measure) "" name)
              name (seq 0 4)
      else name
  | None => name
  end.

Definition lowered_brand {F : Type} (rec : source_rec F) : string :=
  PyStr.lower (default "" (rec_Brand rec)).

(** The amount token as [parse_size_amount] cleans it. *)
Definition amount_token (s : string) : string :=
  PyStr.replace "," "." (fst (PyStr.split_space s)).

(** ** Sample records *)

Module Samples.
Import DecimalFloat.

Definition sample_rec (id name brand : string) (eans : list string)
  : source_rec dec :=
  {| rec_id := id; rec_name := name; rec_Brand := Some brand;
     rec_Weight := None; rec_Weight_UnitOfMeasurement := None;
     rec_EANs := eans |}.

(** A short brand that keeps a space once its stop word is removed. *)
Definition abc_professional : source_rec dec :=
  sample_rec "1" "Abc Professional Shampoo" "Abc Professional" ["4006381333931"].

(** A brand in which removing a stop word brings a stop word together. *)
Definition nested_stop_word : source_rec dec :=
  sample_rec "2" "Shampoo" "Acme Profeprofessionalssional" ["4006381333932"].

(** A name in which removing the brand twice brings the brand together. *)
Definition nested_brand : source_rec dec :=
  sample_rec "3" "AcAcAcmememe Shampoo" "Acme" ["4006381333933"].

Definition acme_shampoo : source_rec dec :=
  sample_rec "4" "Acme Shampoo" "Acme Professional" ["4006381333934"].

End Samples.

(** ** Invariants of the matchers *)

(** What [prepare_parsed_list] and [add_source] guarantee of [sources]:
    keys are not repeated, and the item under a code in a source carries
    that source's name and that code. *)
Definition wf_items (sour : string) (items : PyDict.dict string item) : Prop :=
  NoDup (PyDict.keys items) /\
  forall ean it, (ean, it) ∈ items ->
                 source_name it = sour /\ ean_code it = Some ean.

Definition wf_sources (sources : PyDict.dict string (PyDict.dict string item))
  : Prop :=
  NoDup (PyDict.keys sources) /\
  forall sour items, (sour, items) ∈ sources -> wf_items sour items.

(** The items under [ean] in the sources [procd], in the order of [procd]. *)
Definition holders (ean : string)
    (procd : PyDict.dict string (PyDict.dict string item)) : list item :=
  omap (fun sm => PyDict.get ean sm.2) procd.

(** The state of the Exact Matcher once it has gone through [procd]: a code
    is in [res_eans] exactly when two items or more hold it, its list object
    then has these items as members, in order, and each of them is bound to
    it; and every list object is the one of some code. *)
Definition ean_inv (procd : PyDict.dict string (PyDict.dict string item))
    (s : ean_state) : Prop :=
  (forall ean,
     match PyDict.get ean (res_eans s) with
     | Some g =>
         groups (ean_store s) !! g = Some (holders ean procd) /\
         (2 <= length (holders ean procd))%nat /\
         (forall it, it ∈ holders ean procd -> bind_of (ean_store s) it = Some g)
     | None => (length (holders ean procd) <= 1)%nat
     end) /\
  (forall g, (g < length (groups (ean_store s)))%nat ->
             exists ean, PyDict.get ean (res_eans s) = Some g).

(** No list object has two members of one source. *)
Definition distinct_sources (st : store) : Prop :=
  forall g members, groups st !! g = Some members ->
                    NoDup (source_name <$> members).

(** Every item found under a code in [procd] carries the source's name and
    the code. *)
Definition coded (procd : PyDict.dict string (PyDict.dict string item)) : Prop :=
  forall sour items ean it,
    (sour, items) ∈ procd -> PyDict.get ean items = Some it ->
    source_name it = sour /\ ean_code it = Some ean.

(** ** Sample catalogues *)

Module Catalogues.
Import DecimalFloat Samples.

(** Modelled from the spec: the score that [process.extractOne] computes
    with [fuzz.token_set_ratio], code of the fuzzywuzzy package.  The
    specification describes a token-set similarity on a scale from 0 to 100
    that ignores the order of the words and repeated words.  The model
    gives 100 to two texts with the same words and 0 to any other pair; the
    runs on the samples only score texts with the same words. *)
Fixpoint words_from (s cur : string) : list string :=
  match s with
  | EmptyString => if PyStr.is_empty cur then [] else [cur]
  | String c s' =>
      if Ascii.eqb c " "
      then (if PyStr.is_empty cur then [] else [cur]) ++ words_from s' ""
      else words_from s' (cur +:+ String c "")
  end.

Definition words (s : string) : list string := words_from s "".

Definition word_set_ratio (query choice : string) : N :=
  let q := words query in
  let c := words choice in
  if negb (bool_decide (q = [])) && negb (bool_decide (c = []))
     && forallb (fun w => bool_decide (w ∈ c)) q
     && forallb (fun w => bool_decide (w ∈ q)) c
  then 100%N else 0%N.

Definition item_of (sour : string) (rec : source_rec dec) (ean : string) : item :=
  with_ean (create_item sour rec) ean.

(** The records of three shops for one product. *)
Definition rec_a1 : source_rec dec :=
  sample_rec "a1" "Acme Shampoo" "Acme" ["5901234123457"].
Definition rec_b7 : source_rec dec :=
  sample_rec "b7" "Acme Shampoo" "Acme" ["7312040017003"].
Definition rec_c3 : source_rec dec :=
  sample_rec "c3" "ACME SHAMPOO" "Acme Professional" ["4006381333931"].

Definition item_a1 : item := item_of "shop_a.xml" rec_a1 "5901234123457".
Definition item_b7 : item := item_of "shop_b.xml" rec_b7 "7312040017003".
Definition item_c3 : item := item_of "shop_c.json" rec_c3 "4006381333931".

(** Two shops that list the product under one code. *)
Definition rec_b7_same_code : source_rec dec :=
  sample_rec "b7" "Shampoo by Acme" "Acme" ["5901234123457"].
Definition item_b7_same_code : item :=
  item_of "shop_b.xml" rec_b7_same_code "5901234123457".
Definition two_shops : list (string * list (source_rec dec)) :=
  [("data/shop_a.xml", [rec_a1]); ("data/shop_b.xml", [rec_b7_same_code])].

(** Two and three shops that list the product under different codes. *)
Definition two_shops_two_codes : list (string * list (source_rec dec)) :=
  [("data/shop_a.xml", [rec_a1]); ("data/shop_b.xml", [rec_b7])].
Definition three_shops : list (string * list (source_rec dec)) :=
  [("data/shop_a.xml", [rec_a1]); ("data/shop_b.xml", [rec_b7]);
   ("data/shop_c.json", [rec_c3])].

(** What a run leaves, or nothing when it raises. *)
Definition outcome_of (r : result outcome) : outcome :=
  match r with
  | Ok o => o
  | Raise _ => {| same_items_list := []; final_store := empty_store |}
  end.

Definition three_shops_outcome : outcome :=
  outcome_of (main word_set_ratio three_shops).

(** Two shops that list the product under the same two codes. *)
Definition two_codes : list (string * list (source_rec dec)) :=
  [("data/shop_a.xml",
    [sample_rec "a1" "Acme Shampoo" "Acme" ["5901234123457"; "4006381333931"]]);
   ("data/shop_b.xml",
    [sample_rec "b7" "Acme Shampoo" "Acme" ["5901234123457"; "4006381333931"]])].

Definition two_codes_outcome : outcome :=
  outcome_of (main word_set_ratio two_codes).

(** The first shop's record without its code. *)
Definition rec_a1_no_code : source_rec dec :=
  sample_rec "a1" "Acme Shampoo" "Acme" [].
Definition no_code : list (string * list (source_rec dec)) :=
  [("data/shop_a.xml", [rec_a1_no_code]); ("data/shop_b.xml", [rec_b7])].

(** One shop with the product twice. *)
Definition rec_a2 : source_rec dec :=
  sample_rec "a2" "Acme Shampoo" "Acme" ["4006381333931"].
Definition item_a2 : item := item_of "shop_a.xml" rec_a2 "4006381333931".
Definition one_shop : list (string * list (source_rec dec)) :=
  [("data/shop_a.xml", [rec_a1; rec_a2])].

(** Two shops whose names for the product have the same words in another
    order. *)
Definition rec_a5 : source_rec dec :=
  sample_rec "a5" "Acme Repair Shampoo" "Acme" ["5901234123457"].
Definition rec_b9 : source_rec dec :=
  sample_rec "b9" "Acme Shampoo Repair" "Acme" ["7312040017003"].
Definition item_a5 : item := item_of "shop_a.xml" rec_a5 "5901234123457".
Definition item_b9 : item := item_of "shop_b.xml" rec_b9 "7312040017003".
Definition word_order : list (string * list (source_rec dec)) :=
  [("data/shop_a.xml", [rec_a5]); ("data/shop_b.xml", [rec_b9])].

(** The Alias Matcher before and after its first turn on
    [two_shops_two_codes], with the threshold 0. *)
Definition alias_start : alias_state :=
  {| res_arr := []; alias_store := empty_store |}.

Definition acme_pool : PyDict.dict string (list item) :=
  [("acme", [item_a1; item_b7])].

Definition alias_first_turn : alias_state :=
  match append_alias_item word_set_ratio acme_pool "shop_a.xml" 0%Z
          alias_start item_a1 with
  | Ok s => s
  | Raise _ => alias_start
  end.

End Catalogues.

(** Every ['bind'] refers to a list object of the arena. *)
Definition refs_valid (st : store) : Prop :=
  forall k g, binds st !! k = Some g -> (g < length (groups st))%nat.

(** The items of the sources, in the order in which the Alias Matcher goes
    through them. *)
Definition all_items (sources : PyDict.dict string (PyDict.dict string item))
  : list item :=
  concat (map (fun sm => PyDict.values sm.2) sources).

(** The first [n] list objects (those of the Exact Matcher) while the Alias
    Matcher runs, [done] being the items it has gone through: two of them
    have no item in common, and a member without ['bind'] is an item the
    Alias Matcher has gone through. *)
Definition code_groups_inv (n : nat) (done : list item) (st : store) : Prop :=
  (forall g1 g2 it1 it2,
     (g1 < n)%nat -> (g2 < n)%nat -> g1 ≠ g2 ->
     it1 ∈ members_of st g1 -> it2 ∈ members_of st g2 ->
     item_key it1 ≠ item_key it2) /\
  (forall g it,
     (g < n)%nat -> it ∈ members_of st g ->
     is_Some (bind_of st it) \/ item_key it ∈ item_key <$> done) /\
  (n <= length (groups st))%nat.

(** Two items are one per-code copy: same source and same code. *)
Definition same_copy (it1 it2 : item) : bool :=
  bool_decide (item_key it1 = item_key it2).

(** ** Auxiliary notions for the properties of the parsers and matchers *)

(** Every character [a] of [s] replaced by the text [rep]: what
    [s.replace(a, rep)] is for a pattern of one character. *)
Fixpoint subst_char (a : ascii) (rep s : string) : string :=
  match s with
  | EmptyString => EmptyString
  | String c s' =>
      if Ascii.eqb c a then rep +:+ subst_char a rep s'
      else String c (subst_char a rep s')
  end.

(** A character of an amount token: a digit character or a point. *)
Definition is_amount_char (c : ascii) : bool :=
  PyStr.is_digit_char c || Ascii.eqb c ".".

(** The per-code copies of the records of a source, in the order of the
    records and of their codes. *)
Definition expanded {F : Type} `{PyFloat F} (sour : string)
    (recs : list (source_rec F)) : PyDict.dict string item :=
  concat (map (fun rec =>
                 map (fun ean => (ean, with_ean (create_item sour rec) ean))
                     (rec_EANs rec))
              recs).

(** The arena at a loop boundary of either matcher: a list object has two
    members or more, and an item that is bound is, as a per-code copy, a
    member of the list object it is bound to. *)
Definition store_ok (st : store) : Prop :=
  (forall g members, groups st !! g = Some members -> (2 <= length members)%nat) /\
  (forall k g, binds st !! k = Some g ->
               exists it, it ∈ members_of st g /\ item_key it = k).

(** From [st] to [st'] list objects only got members at their end, no
    ['bind'] was changed or removed, and no list object went away. *)
Definition grows (st st' : store) : Prop :=
  (forall g, members_of st g `prefix_of` members_of st' g) /\
  (forall k g, binds st !! k = Some g -> binds st' !! k = Some g) /\
  (length (groups st) <= length (groups st'))%nat.

(** The references of a table into the arena are valid. *)
Definition table_valid (refs : list nat) (st : store) : Prop :=
  forall g, g ∈ refs -> (g < length (groups st))%nat.

(** The (name, source, items) triples that [match_brands] goes through, in
    its order. *)
Definition brand_triples
    (brand_sources : PyDict.dict string (PyDict.dict string (list item)))
  : list tBrand :=
  concat (map (fun '(sour, brands) =>
                 map (fun '(b, items) =>
                        {| tb_name := b; tb_source := sour; tb_items := items |})
                     brands)
              brand_sources).

(** The table of [match_brands] once it has gone through the triples
    [seen]: its references are valid, and every triple is in the list
    object that its brand name refers to. *)
Definition brands_inv (seen : list tBrand) (s : brand_state) : Prop :=
  (forall b c, PyDict.get b (res_brands s) = Some c ->
               (c < length (clusters s))%nat) /\
  (forall t, t ∈ seen ->
     exists c l, PyDict.get (tb_name t) (res_brands s) = Some c /\
                 clusters s !! c = Some l /\ t ∈ l).

(** ** Per-source parsers

    A parser gets a record as [xml2dict.parse] or [json.load] returns it: a
    dictionary whose values are texts, numbers, truth values, [None], lists
    or dictionaries. *)
#[warnings="-register-all"] Inductive raw (F : Type) :=
| RText (s : string)
| RNum (a : F)
| RBool (b : bool)
| RNone
| RList (l : list (raw F))
| RDict (d : list (string * raw F)).
Arguments RText {F} s.
Arguments RNum {F} a.
Arguments RBool {F} b.
Arguments RNone {F}.
Arguments RList {F} l.
Arguments RDict {F} d.

(** What a parser raises: the exceptions above, and [AttributeError] when
    the size field is no text ([s.split] on a number, a list or a
    dictionary). *)
Inductive parse_exn := Exn (e : exn) | AttributeError.

Inductive parsed (A : Type) :=
| Parsed (a : A)
| Fails (e : parse_exn).
Arguments Parsed {A} a.
Arguments Fails {A} e.

Global Instance parsed_bind : MBind parsed := fun A B k r =>
  match r with
  | Parsed a => k a
  | Fails e => Fails e
  end.

Definition of_result {A} (r : result A) : parsed A :=
  match r with
  | Ok a => Parsed a
  | Raise e => Fails (Exn e)
  end.

(** [{**d, **d2}]: the entries of [d2] are assigned in their order. *)
Definition spread {V} (d d2 : PyDict.dict string V) : PyDict.dict string V :=
  foldl (fun d '(k, v) => PyDict.set k v d) d d2.

(** [rec.pop(k, v)]: the value and the record without the key. *)
Definition pop {V} (k : string) (v : V) (rec : PyDict.dict string V)
  : V * PyDict.dict string V :=
  (default v (PyDict.get k rec), filter (fun e => e.1 ≠ k) rec).

Section Parsers.
Context {F : Type} `{PyFloat F}.

(** The truth value of a value. *)
Definition truth (v : raw F) : bool :=
  match v with
  | RText s => negb (PyStr.is_empty s)
  | RNum a => float_truth a
  | RBool b => b
  | RNone => false
  | RList l => match l with [] => false | _ => true end
  | RDict d => match d with [] => false | _ => true end
  end.

(** [parse_size(v)] on the value of a record: a value that is false gives
    the empty result ([if s:] in both readers), a text is read, and any
    other value has no [split]. *)
Definition parse_size_value (v : raw F) : parsed size_rec :=
  match v with
  | RText s => of_result (parse_size (Some s))
  | _ => if truth v then Fails AttributeError else of_result (parse_size None)
  end.

(** The dictionary [parse_size] returns, as entries. *)
Definition size_entries (r : size_rec) : PyDict.dict string (raw F) :=
  match Weight r with
  | Some a => [("Weight", RNum a)]
  | None => []
  end ++
  match Weight_UnitOfMeasurement r with
  | Some u => [("Weight_UnitOfMeasurement", RText u)]
  | None => []
  end.

(** [**v]: [TypeError] when [v] is no mapping. *)
Definition mapping (v : raw F) : parsed (PyDict.dict string (raw F)) :=
  match v with
  | RDict d => Parsed d
  | _ => Fails (Exn TypeError)
  end.

(** [rec[k]] *)
Definition subscript (k : string) (rec : PyDict.dict string (raw F))
  : parsed (raw F) :=
  match PyDict.get k rec with
  | Some v => Parsed v
  | None => Fails (Exn KeyError)
  end.

(** [[rec['EAN']] if 'EAN' in rec else []] *)
Definition ean_list (rec : PyDict.dict string (raw F)) : raw F :=
  RList (match PyDict.get "EAN" rec with
         | Some ean => [ean]
         | None => []
         end).

(** [d1_parse].  A dictionary display is evaluated from left to right and
    each [**] is merged as it is met: [**rec] is merged before
    [rec.pop('WAREHOUSES', {})] takes the key out of [rec], and the
    subscripts after it read the record without the key. *)
Definition d1_parse (rec : PyDict.dict string (raw F))
  : parsed (PyDict.dict string (raw F)) :=
  size ← parse_size_value (default RNone (PyDict.get "SIZE" rec));
  let d := spread (spread [] (size_entries size)) rec in
  let '(warehouses, rec) := pop "WAREHOUSES" (RDict []) rec in
  warehouses ← mapping warehouses;
  let d := spread d warehouses in
  manufacturer ← subscript "MANUFACTURER" rec;
  let d := PyDict.set "Brand" manufacturer d in
  name ← subscript "NAME" rec;
  let d := PyDict.set "name" name d in
  Parsed (PyDict.set "EANs" (ean_list rec) d).

(** [d2_parse]: [rec.get('name', rec.get('Description'))] is the name of
    the record, else its description, else [None]. *)
Definition d2_parse (rec : PyDict.dict string (raw F))
  : parsed (PyDict.dict string (raw F)) :=
  size ← parse_size_value (default RNone (PyDict.get "Weight" rec));
  let d := spread (spread [] (size_entries size)) rec in
  let '(translation, rec) := pop "ProductTranslation" (RDict []) rec in
  translation ← mapping translation;
  let d := spread d translation in
  let description := default RNone (PyDict.get "Description" rec) in
  let d := PyDict.set "name" (default description (PyDict.get "name" rec)) d in
  Parsed (PyDict.set "EANs" (ean_list rec) d).

(** [d3_parse] *)
Definition d3_parse (rec : PyDict.dict string (raw F))
  : parsed (PyDict.dict string (raw F)) :=
  size ← parse_size_value (default RNone (PyDict.get "Contenido" rec));
  let d := spread (spread [] (size_entries size)) rec in
  brand ← subscript "BrandName" rec;
  let d := PyDict.set "Brand" brand d in
  id ← subscript "Id" rec;
  Parsed (PyDict.set "id" id d).

(** The number under ['Weight'], as [create_item] takes it
    ([isinstance(weight, (int, float))]): [rec_Weight] of the canonical
    record.  A truth value is a number, 1 or 0 ([bool] is a subclass of
    [int]). *)
Definition weight_number (d : PyDict.dict string (raw F)) : option F :=
  match PyDict.get "Weight" d with
  | Some (RNum a) => Some a
  | Some (RBool b) => Some (float_of_literal (if b then "1" else "0"))
  | _ => None
  end.

End Parsers.

(** Sample records, one per source, as the parsers get them. *)
Module RawSamples.

Definition shopitem : PyDict.dict string (raw DecimalFloat.dec) :=
  [("ITEM_ID", RText "a1");
   ("NAME", RText "Acme Shampoo 100 ml");
   ("MANUFACTURER", RText "Acme");
   ("SIZE", RText "100 ml");
   ("EAN", RText "5901234123457");
   ("WAREHOUSES", RDict [("id", RText "w1"); ("STOCK", RText "12")])].

Definition product : PyDict.dict string (raw DecimalFloat.dec) :=
  [("id", RText "b7");
   ("Description", RText "Acme Shampoo");
   ("Brand", RText "Acme");
   ("Weight", RText "100 ml");
   ("EAN", RText "5901234123457");
   ("ProductTranslation", RDict [("name", RText "Acme Shampoo")])].

Definition json_record : PyDict.dict string (raw DecimalFloat.dec) :=
  [("Id", RText "c3");
   ("name", RText "Acme Shampoo");
   ("BrandName", RText "Acme");
   ("Contenido", RText "100 ml");
   ("EANs", RList [RText "5901234123457"])].

Definition size_100_ml : size_rec (F:=DecimalFloat.dec) :=
  {| Weight := Some {| DecimalFloat.mant := 100; DecimalFloat.scale := 0 |};
     Weight_UnitOfMeasurement := Some "ml" |}.

End RawSamples.

(** * Properties *)

(** ** Text *)

Module PyStrFacts.
Import PyStr.

Lemma lower_char_idem c : lower_char (lower_char c) = lower_char c.
Proof. destruct c as [[] [] [] [] [] [] [] []]; reflexivity. Qed.

Lemma all_chars_lower s :
  all_chars (fun c => bool_decide (lower_char c = c)) (lower s) = true.
Proof.
  induction s as [|c s IH]; simpl; [done|].
  rewrite IH, andb_true_r. apply bool_decide_eq_true, lower_char_idem.
Qed.

Lemma lower_fixed s :
  all_chars (fun c => bool_decide (lower_char c = c)) s = true -> lower s = s.
Proof.
  induction s as [|c s IH]; simpl; [done|].
  intros [Hc Hs]%andb_true_iff. apply bool_decide_eq_true in Hc.
  by rewrite Hc, IH.
Qed.

Lemma all_chars_app p a b :
  all_chars p (a +:+ b) = all_chars p a && all_chars p b.
Proof. induction a as [|c a IH]; simpl; [done|]. by rewrite IH, andb_assoc. Qed.

Lemma all_chars_lstrip p s : all_chars p s = true -> all_chars p (lstrip s) = true.
Proof.
  induction s as [|c s IH]; simpl; [done|].
  intros Hcs. destruct (is_space c); [|done].
  apply andb_true_iff in Hcs as [_ Hs]. auto.
Qed.

Lemma all_chars_rstrip p s : all_chars p s = true -> all_chars p (rstrip s) = true.
Proof.
  induction s as [|c s IH]; simpl; [done|].
  intros [Hc Hs]%andb_true_iff.
  destruct (is_space c && is_empty (rstrip s)); simpl; [done|].
  by rewrite Hc, IH.
Qed.

Lemma all_chars_strip p s : all_chars p s = true -> all_chars p (strip s) = true.
Proof. intros. by apply all_chars_rstrip, all_chars_lstrip. Qed.

(** Removing occurrences leaves characters of the text only. *)
Lemma all_chars_remove_from p pat skip s :
  all_chars p s = true -> all_chars p (replace_from pat "" skip s) = true.
Proof.
  revert skip.
  induction s as [|c s IH]; intros skip; cbn [replace_from all_chars]; [done|].
  intros [Hc Hs]%andb_true_iff.
  destruct skip; [|by apply IH].
  destruct (String.prefix pat (String c s)); cbn [all_chars String.append];
    [by apply IH|].
  by rewrite Hc, IH.
Qed.

Lemma intersperse_empty s : intersperse "" s = s.
Proof. induction s as [|c s IH]; simpl; [done|]. by rewrite IH. Qed.

Lemma all_chars_remove p pat s :
  all_chars p s = true -> all_chars p (replace pat "" s) = true.
Proof.
  unfold replace. destruct (is_empty pat).
  - by rewrite intersperse_empty.
  - apply all_chars_remove_from.
Qed.

(** Without an occurrence to replace, [replace] returns its argument. *)
Lemma replace_from_absent pat rep s :
  contains pat s = false -> replace_from pat rep 0 s = s.
Proof.
  induction s as [|c s IH]; cbn [replace_from contains]; [done|].
  intros [Hp Hs]%orb_false_iff. rewrite Hp. by rewrite IH.
Qed.

Lemma remove_absent pat s :
  negb (is_empty pat) && contains pat s = false -> replace pat "" s = s.
Proof.
  unfold replace. destruct (is_empty pat); simpl.
  - intros _. apply intersperse_empty.
  - apply replace_from_absent.
Qed.

Lemma lstrip_head s :
  match lstrip s with
  | EmptyString => True
  | String c _ => is_space c = false
  end.
Proof.
  induction s as [|c s IH]; simpl; [done|].
  destruct (is_space c) eqn:Hc; [done|]. simpl. done.
Qed.

Lemma rstrip_idem s : rstrip (rstrip s) = rstrip s.
Proof.
  induction s as [|c s IH]; simpl; [done|].
  destruct (is_space c && is_empty (rstrip s)) eqn:E; simpl; [done|].
  by rewrite IH, E.
Qed.

Lemma rstrip_keeps_head c s :
  is_space c = false -> rstrip (String c s) = String c (rstrip s).
Proof. intros Hc. simpl. by rewrite Hc. Qed.

Lemma lstrip_rstrip_lstrip s : lstrip (rstrip (lstrip s)) = rstrip (lstrip s).
Proof.
  pose proof (lstrip_head s) as Hh.
  destruct (lstrip s) as [|c t]; [done|].
  rewrite rstrip_keeps_head by done. simpl. by rewrite Hh.
Qed.

Lemma strip_idem s : strip (strip s) = strip s.
Proof.
  unfold strip. by rewrite lstrip_rstrip_lstrip, rstrip_idem.
Qed.

End PyStrFacts.

(** ** Size Parser *)

Section SizeParserFacts.
Context {F : Type} `{PyFloat F}.

(** A token with something else than digit characters and points gives no
    amount. *)
Lemma parse_size_amount_not_digits (s : string) :
  PyStr.isdigit (PyStr.replace "." "" (amount_token s)) = false ->
  parse_size_amount (F:=F) (Some s) = Ok None.
Proof.
  intros Hd. unfold parse_size_amount. fold (amount_token s).
  rewrite Hd. by destruct (PyStr.is_empty s).
Qed.

(** A non-empty token of digit characters and points that [float] does not
    accept makes [parse_size_amount] raise. *)
Lemma parse_size_amount_raises (s : string) :
  PyStr.is_empty s = false ->
  PyStr.isdigit (PyStr.replace "." "" (amount_token s)) = true ->
  PyStr.float_literal (amount_token s) = false ->
  parse_size_amount (F:=F) (Some s) = Raise ValueError.
Proof.
  intros Hs Hd Hl. unfold parse_size_amount. fold (amount_token s).
  rewrite Hs, Hd. unfold float. by rewrite Hl.
Qed.

(** C7 (evaluation at the failing input): on the size text "1.2.3 ml" the
    amount token "1.2.3" passes the digit test once its points are removed,
    [float] rejects it, and both [parse_size_amount] and [parse_size] raise
    [ValueError] instead of yielding no amount. *)
Theorem parse_size_two_points_raises :
  PyStr.isdigit (PyStr.replace "." "" (amount_token "1.2.3 ml")) = true /\
  parse_size_amount (F:=F) (Some "1.2.3 ml") = Raise ValueError /\
  parse_size (F:=F) (Some "1.2.3 ml") = Raise ValueError.
Proof.
  split; [reflexivity|].
  assert (parse_size_amount (F:=F) (Some "1.2.3 ml") = Raise ValueError) as E
    by (by apply parse_size_amount_raises).
  split; [done|]. unfold parse_size. by rewrite E.
Qed.

(** C10: a size text whose amount parses to zero gives a result without
    amount, the very result of a text with the same unit whose amount is
    absent or does not parse. *)
Theorem parse_size_omits_zero_amount (s : option string) (a : F) :
  parse_size_amount s = Ok (Some a) ->
  float_truth a = false ->
  (exists r, parse_size s = Ok r /\ Weight r = None) /\
  (forall s', parse_size_amount (F:=F) s' = Ok None ->
              parse_size_unit s' = parse_size_unit s ->
              parse_size (F:=F) s' = parse_size s).
Proof.
  intros Ha Hz. unfold parse_size. rewrite Ha. simpl. rewrite Hz. split.
  - eexists. split; [reflexivity|done].
  - intros s' Hn Hu. rewrite Hn. simpl. by rewrite Hu.
Qed.

End SizeParserFacts.

Lemma parse_size_omits_zero_amount_witness :
  (exists r, parse_size (F:=DecimalFloat.dec) (Some "0 ml") = Ok r
             /\ Weight r = None) /\
  parse_size (F:=DecimalFloat.dec) (Some "abc ml") = parse_size (Some "0 ml").
Proof.
  pose proof (parse_size_omits_zero_amount (F:=DecimalFloat.dec)
                (Some "0 ml") {| DecimalFloat.mant := 0; DecimalFloat.scale := 0 |}
                eq_refl eq_refl) as [H1 H2].
  split; [exact H1|].
  exact (H2 (Some "abc ml") eq_refl eq_refl).
Defined.

(** ** Item Normalizer *)

Section NormalizerFacts.
Context {F : Type} `{PyFloat F}.
Import PyStr PyStrFacts.

Lemma create_item_brand sour (rec : source_rec F) :
  brand (create_item sour rec) =
  strip (if (String.length (without_common_words (rec_Brand rec)) <=? 3)%nat
         then "other" else without_common_words (rec_Brand rec)).
Proof.
  unfold create_item.
  destruct (rec_Weight rec) as [w|]; [destruct (float_truth w)|]; reflexivity.
Qed.

Lemma create_item_alias sour (rec : source_rec F) :
  alias (create_item sour rec) =
  strip (replace (without_common_words (rec_Brand rec)) ""
           (replace (lowered_brand rec) "" (name_without_weight rec))).
Proof.
  unfold create_item, name_without_weight.
  destruct (rec_Weight rec) as [w|]; [destruct (float_truth w)|]; reflexivity.
Qed.

(** What [create_item] computes as the brand, for every record: the
    lower-cased raw brand with the stop words removed in order, replaced by
    "other" exactly when that text, before it is trimmed, has at most 3
    characters, and trimmed otherwise. *)
Lemma create_item_brand_length_first sour (rec : source_rec F) :
  brand (create_item sour rec) = brand_cleaning_length_first (rec_Brand rec).
Proof.
  rewrite create_item_brand. unfold brand_cleaning_length_first.
  by destruct (String.length (without_common_words (rec_Brand rec)) <=? 3)%nat.
Qed.

(** Where trimming does not move the text across the length test, the
    item's brand is the one the specification words. *)
Lemma create_item_brand_spec sour (rec : source_rec F) :
  (String.length (strip (without_common_words (rec_Brand rec))) <=? 3)%nat =
  (String.length (without_common_words (rec_Brand rec)) <=? 3)%nat ->
  brand (create_item sour rec) = spec_brand_cleaning (rec_Brand rec).
Proof.
  intros E. rewrite create_item_brand. unfold spec_brand_cleaning. rewrite E.
  by destruct (String.length (without_common_words (rec_Brand rec)) <=? 3)%nat.
Qed.

Lemma lower_fixed_without_common_words raw :
  all_chars (fun c => bool_decide (lower_char c = c))
            (without_common_words raw) = true.
Proof.
  unfold without_common_words.
  do 3 apply all_chars_remove. apply all_chars_lower.
Qed.

Lemma lower_fixed_brand sour (rec : source_rec F) :
  all_chars (fun c => bool_decide (lower_char c = c))
            (brand (create_item sour rec)) = true.
Proof.
  rewrite create_item_brand.
  destruct (String.length (without_common_words (rec_Brand rec)) <=? 3)%nat;
    [reflexivity|].
  apply all_chars_strip, lower_fixed_without_common_words.
Qed.

Lemma lower_fixed_name_without_weight (rec : source_rec F) :
  all_chars (fun c => bool_decide (lower_char c = c))
            (name_without_weight rec) = true.
Proof.
  unfold name_without_weight.
  destruct (rec_Weight rec) as [w|]; [destruct (float_truth w)|];
    try apply all_chars_lower.
  cbn [foldl seq]. do 4 apply all_chars_remove. apply all_chars_lower.
Qed.

Lemma lower_fixed_alias sour (rec : source_rec F) :
  all_chars (fun c => bool_decide (lower_char c = c))
            (alias (create_item sour rec)) = true.
Proof.
  rewrite create_item_alias.
  apply all_chars_strip. do 2 apply all_chars_remove.
  apply lower_fixed_name_without_weight.
Qed.

Lemma strip_brand_idem sour (rec : source_rec F) :
  strip (brand (create_item sour rec)) = brand (create_item sour rec).
Proof. rewrite create_item_brand. apply strip_idem. Qed.

(** C8 (as amended): cleaning is the identity on a derived text that holds
    nothing left to remove.  A derived brand longer than 3 characters in
    which no stop word occurs is cleaned to itself; a derived alias in
    which neither brand text nor any rendering of the weight occurs is
    cleaned to itself. *)
Theorem renormalization_of_clean_text sour (rec : source_rec F) :
  let it := create_item sour rec in
  ((3 < String.length (brand it))%nat ->
   (forall w, w ∈ common_words -> contains w (brand it) = false) ->
   brand (create_item sour (with_Brand rec (brand it))) = brand it) /\
  ((forall weight u, rec_Weight rec = Some weight -> (u <= 3)%nat ->
      occurs (weight_text weight u
                (default "" (rec_Weight_UnitOfMeasurement rec))) (alias it)
      = false) ->
   occurs (lowered_brand rec) (alias it) = false ->
   occurs (without_common_words (rec_Brand rec)) (alias it) = false ->
   alias (create_item sour (with_name rec (alias it))) = alias it).
Proof.
  intros it. split.
  - intros Hlen Hw.
    rewrite (create_item_brand sour (with_Brand rec (brand it))).
    cbn [rec_Brand with_Brand].
    assert (without_common_words (Some (brand it)) = brand it) as ->.
    { unfold without_common_words. cbn [default id].
      rewrite (lower_fixed (brand it)) by apply lower_fixed_brand.
      assert (forall w, w ∈ common_words ->
                replace w "" (brand it) = brand it) as Hr.
      { intros w Hin. apply remove_absent. by rewrite (Hw w Hin), andb_false_r. }
      rewrite !Hr; [done|..]; unfold common_words; set_solver. }
    apply Nat.leb_gt in Hlen. rewrite Hlen. apply strip_brand_idem.
  - intros Hwt Hb1 Hb2.
    rewrite (create_item_alias sour (with_name rec (alias it))).
    assert (name_without_weight (with_name rec (alias it)) = alias it) as ->.
    { unfold name_without_weight. cbn [rec_name rec_Weight with_name
        rec_Weight_UnitOfMeasurement].
      rewrite (lower_fixed (alias it)) by apply lower_fixed_alias.
      destruct (rec_Weight rec) as [w|] eqn:Ew; [|done].
      destruct (float_truth w); [|done].
      cbn [foldl seq].
      assert (forall u, (u <= 3)%nat ->
                replace (weight_text w u
                           (default "" (rec_Weight_UnitOfMeasurement rec))) ""
                        (alias it) = alias it) as Hr.
      { intros u Hu. apply remove_absent. by apply (Hwt w). }
      rewrite !Hr; [done|..]; lia. }
    change (lowered_brand (with_name rec (alias it))) with (lowered_brand rec).
    change (rec_Brand (with_name rec (alias it))) with (rec_Brand rec).
    rewrite (remove_absent (lowered_brand rec)) by exact Hb1.
    rewrite remove_absent by exact Hb2.
    subst it. rewrite create_item_alias. apply strip_idem.
Qed.

End NormalizerFacts.

(** C6 (evaluation at the failing input): [create_item] tests the length
    of the brand before it trims it.  The brand "Abc" goes to the bucket
    "other"; for the brand "Abc Professional" the text left by the removal
    of the stop words is "abc " with 4 characters, so the item keeps the
    brand "abc", whereas the trimmed text has 3 characters and brand
    cleaning as specified gives "other". *)
Theorem brand_cleaning_differs_from_spec :
  brand (create_item "s1" (with_Brand Samples.abc_professional "Abc"))
    = "other" /\
  without_common_words (rec_Brand Samples.abc_professional) = "abc " /\
  brand (create_item "s1" Samples.abc_professional) = "abc" /\
  spec_brand_cleaning (rec_Brand Samples.abc_professional) = "other".
Proof. split_and!; reflexivity. Qed.

(** C8 (counterexample): the derived brand "acme professional" is cleaned to
    "acme", and the derived alias "acme shampoo" is cleaned to "shampoo". *)
Lemma renormalization_changes_text :
  (brand (create_item "s1" Samples.nested_stop_word) = "acme professional" /\
   brand (create_item "s1"
            (with_Brand Samples.nested_stop_word
               (brand (create_item "s1" Samples.nested_stop_word)))) = "acme") /\
  (alias (create_item "s1" Samples.nested_brand) = "acme shampoo" /\
   alias (create_item "s1"
            (with_name Samples.nested_brand
               (alias (create_item "s1" Samples.nested_brand)))) = "shampoo").
Proof. repeat split; reflexivity. Qed.

Lemma renormalization_of_clean_text_witness :
  brand (create_item "s1" (with_Brand Samples.acme_shampoo "acme")) = "acme" /\
  alias (create_item "s1" (with_name Samples.acme_shampoo "shampoo")) = "shampoo".
Proof.
  pose proof (renormalization_of_clean_text "s1" Samples.acme_shampoo) as [Hb Ha].
  split.
  - apply Hb; [vm_compute; lia|].
    intros w Hw. unfold common_words in Hw.
    repeat (apply elem_of_cons in Hw as [->|Hw]; [reflexivity|]).
    by apply elem_of_nil in Hw.
  - apply Ha; [intros weight u Hweight; discriminate Hweight| |]; reflexivity.
Defined.

(** ** Dictionaries *)

Module PyDictFacts.
Import PyDict.

Section Facts.
Context {K : Type} `{EqDecision K} {V : Type}.
Implicit Types (d : dict K V) (k : K) (v : V).

Lemma get_set_eq d k v : get k (set k v d) = Some v.
Proof.
  induction d as [|[k' v'] d IH]; simpl.
  - by rewrite decide_True.
  - destruct (decide (k = k')) as [->|Hne]; simpl.
    + by rewrite decide_True.
    + by rewrite decide_False.
Qed.

Lemma get_set_ne d k k' v : k ≠ k' -> get k' (set k v d) = get k' d.
Proof.
  intros Hne. induction d as [|[k0 v0] d IH]; simpl.
  - by rewrite decide_False.
  - destruct (decide (k = k0)) as [->|Hne0]; simpl.
    + by rewrite !decide_False.
    + destruct (decide (k' = k0)); [done|apply IH].
Qed.

Lemma get_None d k : get k d = None <-> k ∉ keys d.
Proof.
  unfold keys. induction d as [|[k' v'] d IH]; simpl.
  - split; [intros _; apply not_elem_of_nil|done].
  - rewrite not_elem_of_cons. destruct (decide (k = k')) as [->|Hne].
    + split; [done|]. by intros [? _].
    + rewrite IH. split; [by split|by intros [_ ?]].
Qed.

Lemma get_Some_elem d k v : get k d = Some v -> (k, v) ∈ d.
Proof.
  induction d as [|[k' v'] d IH]; simpl; [done|].
  destruct (decide (k = k')) as [->|Hne].
  - intros [= ->]. apply list_elem_of_here.
  - intros Hg. apply list_elem_of_further. auto.
Qed.

Lemma elem_get_Some d k v : NoDup (keys d) -> (k, v) ∈ d -> get k d = Some v.
Proof.
  unfold keys. induction d as [|[k' v'] d IH]; simpl.
  - intros _ Hin. by apply elem_of_nil in Hin.
  - intros [Hk Hnd]%NoDup_cons [[= -> ->]|Hin]%elem_of_cons.
    + by rewrite decide_True.
    + rewrite decide_False; [auto|].
      intros ->. apply Hk. change k' with (k', v).1. by apply list_elem_of_fmap_2.
Qed.

(** Assigning to a new key appends the entry. *)
Lemma set_fresh d k v : k ∉ keys d -> set k v d = d ++ [(k, v)].
Proof.
  unfold keys. induction d as [|[k' v'] d IH]; simpl; [done|].
  intros [Hne Hk]%not_elem_of_cons.
  rewrite decide_False by done. by rewrite IH.
Qed.

Lemma keys_set_present d k v : k ∈ keys d -> keys (set k v d) = keys d.
Proof.
  unfold keys. induction d as [|[k' v'] d IH]; intros Hin.
  - by apply elem_of_nil in Hin.
  - cbn [set]. destruct (decide (k = k')) as [->|Hne]; [reflexivity|].
    rewrite !fmap_cons in *. apply elem_of_cons in Hin as [?|Hin]; [done|].
    by rewrite IH.
Qed.

Lemma keys_set d k v :
  keys (set k v d) = if decide (k ∈ keys d) then keys d else keys d ++ [k].
Proof.
  destruct (decide (k ∈ keys d)) as [Hin|Hnin].
  - by apply keys_set_present.
  - rewrite set_fresh by done. unfold keys. by rewrite fmap_app.
Qed.

Lemma NoDup_keys_set d k v : NoDup (keys d) -> NoDup (keys (set k v d)).
Proof.
  intros Hnd. rewrite keys_set. destruct (decide (k ∈ keys d)); [done|].
  apply NoDup_app. split_and!; [done| |apply NoDup_singleton].
  intros x Hx ->%list_elem_of_singleton. done.
Qed.

Lemma elem_of_set d k v k' v' :
  (k', v') ∈ set k v d -> (k' = k /\ v' = v) \/ (k', v') ∈ d.
Proof.
  induction d as [|[k0 v0] d IH]; simpl.
  - intros [= -> ->]%list_elem_of_singleton. by left.
  - destruct (decide (k = k0)) as [->|Hne].
    + intros [[= -> ->]|Hin]%elem_of_cons; [by left|].
      right. by apply list_elem_of_further.
    + intros [[= -> ->]|Hin]%elem_of_cons.
      * right. apply list_elem_of_here.
      * destruct (IH Hin); [by left|]. right. by apply list_elem_of_further.
Qed.

Lemma get_app d1 d2 k :
  get k (d1 ++ d2) = match get k d1 with Some v => Some v | None => get k d2 end.
Proof.
  induction d1 as [|[k' v'] d1 IH]; simpl; [done|].
  by destruct (decide (k = k')).
Qed.

Lemma elem_of_keys d k : k ∈ keys d -> is_Some (get k d).
Proof.
  intros Hin. destruct (get k d) eqn:E; [done|].
  by apply get_None in E.
Qed.

End Facts.
End PyDictFacts.

(** A loop that has run over [pre], step by step. *)
Lemma foldl_prefix_invariant {A S} (f : S -> A -> S) (I : list A -> S -> Prop)
    (l : list A) (s : S) :
  I [] s ->
  (forall pre x post s, l = pre ++ x :: post -> I pre s -> I (pre ++ [x]) (f s x)) ->
  I l (foldl f s l).
Proof.
  intros H0 Hstep.
  assert (forall post pre s, l = pre ++ post -> I pre s ->
            I l (foldl f s post)) as Hgen.
  { induction post as [|x post IH]; intros pre s' El Hpre; simpl.
    - rewrite app_nil_r in El. by subst.
    - apply (IH (pre ++ [x])).
      + by rewrite <- app_assoc.
      + by apply (Hstep pre x post). }
  by apply (Hgen l []).
Qed.

(** ** Exact Matcher *)

Section ExactMatcherFacts.
Import PyDict PyDictFacts.
Implicit Types (procd : dict string (dict string item)) (s : ean_state).

Lemma wf_sources_coded procd : wf_sources procd -> coded procd.
Proof.
  intros [_ Hwf] sour items ean it Hin Hget.
  destruct (Hwf _ _ Hin) as [_ Hit]. by apply Hit, get_Some_elem.
Qed.

Lemma holders_app ean procd1 procd2 :
  holders ean (procd1 ++ procd2) = holders ean procd1 ++ holders ean procd2.
Proof. apply omap_app. Qed.

Lemma holders_last ean procd sour items :
  holders ean (procd ++ [(sour, items)]) =
  holders ean procd ++ match get ean items with Some it => [it] | None => [] end.
Proof.
  by rewrite holders_app.
Qed.

Lemma first_with_ean_head ean procd :
  first_with_ean ean procd = head (holders ean procd).
Proof.
  induction procd as [|[sour items] procd IH]; simpl; [done|].
  unfold holders. simpl. by destruct (get ean items).
Qed.

Lemma elem_of_holders ean procd it :
  it ∈ holders ean procd <->
  exists sour items, (sour, items) ∈ procd /\ get ean items = Some it.
Proof.
  unfold holders. rewrite list_elem_of_omap. split.
  - intros ([sour items] & Hin & Hget). eauto.
  - intros (sour & items & Hin & Hget). by exists (sour, items).
Qed.

Lemma holders_code ean procd it :
  coded procd -> it ∈ holders ean procd -> ean_code it = Some ean.
Proof.
  intros Hc (sour & items & Hin & Hget)%elem_of_holders.
  by destruct (Hc _ _ _ _ Hin Hget).
Qed.

(** The members' sources are sources of [procd], in its order. *)
Lemma holders_sources ean procd :
  coded procd -> source_name <$> holders ean procd `sublist_of` keys procd.
Proof.
  unfold keys. induction procd as [|[sour items] procd IH]; intros Hc.
  - done.
  - assert (coded procd) as Hc'.
    { intros s0 i0 e0 it0 Hin. apply Hc. by apply list_elem_of_further. }
    unfold holders. simpl. destruct (get ean items) as [it|] eqn:E; simpl.
    + destruct (Hc sour items ean it) as [-> _]; [apply list_elem_of_here|done|].
      apply sublist_skip. by apply IH.
    + apply sublist_cons. by apply IH.
Qed.

Lemma holders_distinct_sources ean procd :
  coded procd -> NoDup (keys procd) -> NoDup (source_name <$> holders ean procd).
Proof.
  intros Hc Hnd. eapply sublist_NoDup; [exact Hnd|]. by apply holders_sources.
Qed.

(** Holders of two codes are different items. *)
Lemma holders_disjoint ean1 ean2 procd it :
  coded procd -> ean1 ≠ ean2 ->
  it ∈ holders ean1 procd -> it ∈ holders ean2 procd -> False.
Proof.
  intros Hc Hne H1 H2.
  apply (holders_code _ _ _ Hc) in H1. apply (holders_code _ _ _ Hc) in H2.
  congruence.
Qed.

Lemma bind_of_set_bind st it g it' :
  bind_of (set_bind it g st) it' =
  if decide (item_key it = item_key it') then Some g else bind_of st it'.
Proof.
  unfold bind_of, set_bind. simpl. rewrite lookup_insert.
  by destruct (decide (item_key it = item_key it')).
Qed.

Lemma item_key_code it it' :
  item_key it = item_key it' -> ean_code it = ean_code it'.
Proof. unfold item_key. by intros [= _ ?]. Qed.

Lemma item_key_source it it' :
  item_key it = item_key it' -> source_name it = source_name it'.
Proof. unfold item_key. by intros [= ? _]. Qed.

End ExactMatcherFacts.

Section ExactMatcherInvariant.
Import PyDict PyDictFacts.
Implicit Types (procd : dict string (dict string item)) (s : ean_state).

Lemma get_snoc (d : dict string item) k k' v :
  get k (d ++ [(k', v)]) =
  match get k d with
  | Some x => Some x
  | None => if decide (k = k') then Some v else None
  end.
Proof. rewrite get_app. simpl. by destruct (get k d). Qed.

Lemma coded_shorter procd sour done e it :
  coded (procd ++ [(sour, done ++ [(e, it)])]) -> coded (procd ++ [(sour, done)]).
Proof.
  intros Hc sour' items' ean it' Hin Hget.
  apply elem_of_app in Hin as [Hin|Hin%list_elem_of_singleton].
  - apply (Hc sour' items'); [|done]. apply elem_of_app. by left.
  - injection Hin as -> ->.
    apply (Hc sour (done ++ [(e, it)])).
    + apply elem_of_app. right. by apply list_elem_of_singleton.
    + rewrite get_snoc. by rewrite Hget.
Qed.

Lemma bind_of_two st it1 it2 g it :
  item_key it = item_key it1 \/ item_key it = item_key it2 ->
  bind_of (set_bind it2 g (set_bind it1 g st)) it = Some g.
Proof.
  intros Hk. rewrite !bind_of_set_bind.
  destruct (decide (item_key it2 = item_key it)); [done|].
  destruct (decide (item_key it1 = item_key it)); [done|].
  destruct Hk; congruence.
Qed.

Lemma bind_of_other_code st it0 g it :
  ean_code it0 ≠ ean_code it ->
  bind_of (set_bind it0 g st) it = bind_of st it.
Proof.
  intros Hne. rewrite bind_of_set_bind.
  destruct (decide (item_key it0 = item_key it)) as [Hk|]; [|done].
  by apply item_key_code in Hk.
Qed.

(** One turn of the loop of [append_by_ean], on the entry that follows the
    entries [done] of the new source. *)
Lemma append_ean_item_inv procd sour done ean new_item s :
  coded (procd ++ [(sour, done ++ [(ean, new_item)])]) ->
  ean ∉ keys done ->
  ean_sources s = procd ->
  ean_inv (procd ++ [(sour, done)]) s ->
  ean_inv (procd ++ [(sour, done ++ [(ean, new_item)])])
          (append_ean_item s ean new_item).
Proof.
  intros Hc2 Hfresh Hsrc [Hcodes Hgroups].
  pose proof (coded_shorter _ _ _ _ _ Hc2) as Hc1.
  apply get_None in Hfresh.
  assert (holders ean (procd ++ [(sour, done)]) = holders ean procd) as Hh1.
  { rewrite holders_last, Hfresh. apply app_nil_r. }
  assert (holders ean (procd ++ [(sour, done ++ [(ean, new_item)])])
          = holders ean procd ++ [new_item]) as Hh2.
  { rewrite holders_last, get_snoc, Hfresh. by rewrite decide_True. }
  assert (forall e, e ≠ ean ->
            holders e (procd ++ [(sour, done ++ [(ean, new_item)])])
            = holders e (procd ++ [(sour, done)])) as Hhne.
  { intros e Hne. rewrite !holders_last, get_snoc.
    destruct (get e done); [done|]. by rewrite decide_False. }
  assert (ean_code new_item = Some ean) as Hnew.
  { eapply (holders_code ean); [exact Hc2|]. rewrite Hh2.
    apply elem_of_app. right. by apply list_elem_of_singleton. }
  assert (forall e it, e ≠ ean -> it ∈ holders e (procd ++ [(sour, done)]) ->
            ean_code new_item ≠ ean_code it) as Hother.
  { intros e it Hne Hit. rewrite Hnew, (holders_code e _ it Hc1 Hit). congruence. }
  unfold append_ean_item.
  destruct (get ean (res_eans s)) as [g|] eqn:E.
  - (* the code has its list object already *)
    pose proof (Hcodes ean) as Hean. rewrite E in Hean.
    destruct Hean as (Hg & Hlen & Hb). rewrite Hh1 in Hg, Hlen, Hb.
    split; cbn [res_eans ean_store].
    + intros e. destruct (decide (e = ean)) as [->|Hne].
      * rewrite E, Hh2. split_and!.
        -- cbn [groups set_bind group_append].
           by rewrite list_lookup_alter_eq, Hg.
        -- rewrite length_app. simpl. lia.
        -- intros it [Hit|Hit%list_elem_of_singleton]%elem_of_app.
           ++ rewrite bind_of_set_bind. case_decide; [done|]. by apply Hb.
           ++ subst it. rewrite bind_of_set_bind. by rewrite decide_True.
      * pose proof (Hcodes e) as He. rewrite (Hhne e Hne).
        destruct (get e (res_eans s)) as [g'|] eqn:E'; [|done].
        destruct He as (Hg' & Hlen' & Hb'). split_and!; [|done|].
        -- cbn [groups set_bind group_append].
           rewrite list_lookup_alter_ne; [done|]. intros ->.
           rewrite Hg in Hg'. injection Hg' as Heq.
           destruct (holders e (procd ++ [(sour, done)])) as [|it l] eqn:El;
             [simpl in Hlen'; lia|].
           apply (holders_disjoint ean e (procd ++ [(sour, done)]) it Hc1);
             [done| |].
           ++ rewrite Hh1, Heq. apply list_elem_of_here.
           ++ rewrite El. apply list_elem_of_here.
        -- intros it Hit. rewrite bind_of_other_code by eauto. by apply Hb'.
    + intros g'. cbn [groups set_bind group_append]. rewrite length_alter.
      apply Hgroups.
  - pose proof (Hcodes ean) as Hean. rewrite E, Hh1 in Hean.
    rewrite Hsrc, first_with_ean_head.
    destruct (holders ean procd) as [|item0 rest] eqn:Eh; cbn [head].
    + (* the code is new *)
      split; [|exact Hgroups].
      intros e. destruct (decide (e = ean)) as [->|Hne].
      * rewrite E, Hh2. simpl. lia.
      * rewrite (Hhne e Hne). apply Hcodes.
    + (* a first item of an earlier source holds the code *)
      assert (rest = []) as -> by (destruct rest; [done|simpl in Hean; lia]).
      unfold new_group. split; cbn [res_eans ean_store].
      * intros e. destruct (decide (e = ean)) as [->|Hne].
        -- rewrite get_set_eq, Hh2. split_and!.
           ++ cbn [groups set_bind]. by apply list_lookup_middle.
           ++ simpl. lia.
           ++ intros it Hit. apply bind_of_two.
              apply elem_of_cons in Hit as [->|Hit]; [by left|].
              apply list_elem_of_singleton in Hit as ->. by right.
        -- rewrite get_set_ne by done. pose proof (Hcodes e) as He.
           rewrite (Hhne e Hne).
           destruct (get e (res_eans s)) as [g'|] eqn:E'; [|done].
           destruct He as (Hg' & Hlen' & Hb'). split_and!; [|done|].
           ++ cbn [groups set_bind]. rewrite lookup_app_l; [done|].
              by eapply lookup_lt_Some.
           ++ intros it Hit. rewrite !bind_of_other_code; eauto.
              assert (ean_code item0 = Some ean) as ->.
              { apply (holders_code ean (procd ++ [(sour, done)]) item0 Hc1).
                rewrite Hh1. apply list_elem_of_here. }
              rewrite (holders_code e _ it Hc1 Hit). congruence.
      * intros g'. cbn [groups set_bind]. rewrite length_app. simpl.
        intros Hlt. destruct (decide (g' = length (groups (ean_store s))))
          as [->|Hne].
        -- exists ean. apply get_set_eq.
        -- destruct (Hgroups g') as [e He]; [lia|]. exists e.
           rewrite get_set_ne; [done|]. intros ->. congruence.
Qed.

End ExactMatcherInvariant.

Lemma foldl_invariant {A S} (f : S -> A -> S) (I : S -> Prop) (l : list A) (s : S) :
  I s -> (forall s x, x ∈ l -> I s -> I (f s x)) -> I (foldl f s l).
Proof.
  intros H0 Hstep.
  apply (foldl_prefix_invariant f (fun _ => I)); [done|].
  intros pre x post s' -> Hs. apply Hstep; [|done].
  apply elem_of_app. right. apply list_elem_of_here.
Qed.

Section ExactMatcherLoops.
Import PyDict PyDictFacts.
Implicit Types (procd : dict string (dict string item)) (s : ean_state).

Lemma coded_subset procd1 procd2 :
  (forall x, x ∈ procd1 -> x ∈ procd2) -> coded procd2 -> coded procd1.
Proof. intros Hsub Hc sour items ean it Hin. apply Hc. by apply Hsub. Qed.

Lemma ean_sources_append_ean_item s ean new_item :
  ean_sources (append_ean_item s ean new_item) = ean_sources s.
Proof.
  unfold append_ean_item.
  destruct (get ean (res_eans s)); [done|].
  by destruct (first_with_ean ean (ean_sources s)).
Qed.

Lemma ean_inv_no_entries procd sour s :
  ean_inv procd s -> ean_inv (procd ++ [(sour, [])]) s.
Proof.
  intros [Hcodes Hgroups]. split; [|done].
  intros e. pose proof (Hcodes e) as He.
  assert (holders e (procd ++ [(sour, [])]) = holders e procd) as ->; [|done].
  rewrite holders_last. apply app_nil_r.
Qed.

Lemma coded_prefix procd sour pre post :
  coded (procd ++ [(sour, pre ++ post)]) -> coded (procd ++ [(sour, pre)]).
Proof.
  intros Hc sour' items' ean it Hin Hget.
  apply elem_of_app in Hin as [Hin|Hin%list_elem_of_singleton].
  - apply (Hc sour' items'); [|done]. apply elem_of_app. by left.
  - injection Hin as -> ->. apply (Hc sour (pre ++ post)).
    + apply elem_of_app. right. by apply list_elem_of_singleton.
    + by rewrite get_app, Hget.
Qed.

(** [append_by_ean] on a source that is new to [procd]. *)
Lemma append_by_ean_inv procd sour items s :
  coded (procd ++ [(sour, items)]) ->
  NoDup (keys items) ->
  sour ∉ keys procd ->
  ean_sources s = procd ->
  ean_inv procd s ->
  ean_sources (append_by_ean s sour items) = procd ++ [(sour, items)] /\
  ean_inv (procd ++ [(sour, items)]) (append_by_ean s sour items).
Proof.
  intros Hc Hnd Hsour Hsrc Hinv. unfold append_by_ean.
  set (body := fun s0 '(ean, new_item) => append_ean_item s0 ean new_item).
  assert (ean_sources (foldl body s items) = procd /\
          ean_inv (procd ++ [(sour, items)]) (foldl body s items)) as [Hsrc' Hinv'].
  { apply (foldl_prefix_invariant body
             (fun pre st => ean_sources st = procd /\
                            ean_inv (procd ++ [(sour, pre)]) st)).
    - split; [done|]. by apply ean_inv_no_entries.
    - intros pre [ean new_item] post st Eitems [Hst Hpre]. cbn [body]. split.
      + by rewrite ean_sources_append_ean_item.
      + apply append_ean_item_inv; [| |done|done].
        * apply (coded_prefix _ _ _ post). rewrite <- app_assoc. simpl.
          by rewrite <- Eitems.
        * unfold keys in *. rewrite Eitems, fmap_app, fmap_cons in Hnd.
          apply NoDup_app in Hnd as (_ & Hdisj & _).
          intros Hin. apply (Hdisj _ Hin). apply list_elem_of_here. }
  split; cbn [ean_sources res_eans ean_store].
  - rewrite Hsrc'. by apply set_fresh.
  - destruct Hinv' as [Hcodes Hgroups]. split; [exact Hcodes|exact Hgroups].
Qed.

(** The Exact Matcher, on any order of well-formed sources. *)
Lemma combine_by_ean_inv (order : dict string (dict string item)) :
  wf_sources order -> ean_inv order (combine_by_ean order).
Proof.
  intros [Hnd Hwf]. unfold combine_by_ean.
  set (body := fun s0 '(new_sour, new_items) => append_by_ean s0 new_sour new_items).
  set (s0 := {| ean_sources := []; res_eans := []; ean_store := empty_store |}).
  assert (ean_sources (foldl body s0 order) = order /\
          ean_inv order (foldl body s0 order)) as [_ Hinv]; [|done].
  apply (foldl_prefix_invariant body
           (fun pre st => ean_sources st = pre /\ ean_inv pre st)).
  - split; [done|]. split.
    + intros e. simpl. lia.
    + intros g. simpl. lia.
  - intros pre [sour items] post st Eorder [Hst Hpre]. cbn [body].
    assert ((sour, items) ∈ order) as Hin.
    { rewrite Eorder. apply elem_of_app. right. apply list_elem_of_here. }
    destruct (Hwf _ _ Hin) as [Hkeys _].
    apply append_by_ean_inv; [|done| |done|done].
    + apply (coded_subset _ order); [|by apply wf_sources_coded].
      intros x. rewrite Eorder, !elem_of_app, list_elem_of_singleton, elem_of_cons.
      tauto.
    + unfold keys in Hnd. rewrite Eorder, fmap_app, fmap_cons in Hnd.
      apply NoDup_app in Hnd as (_ & Hdisj & _).
      intros Hk. apply (Hdisj _ Hk). apply list_elem_of_here.
Qed.

Lemma wf_sources_perm (sources order : dict string (dict string item)) :
  order ≡ₚ sources -> wf_sources sources -> wf_sources order.
Proof.
  intros Hp [Hnd Hwf]. split.
  - unfold keys in *. by rewrite Hp.
  - intros sour items Hin. apply Hwf. by rewrite <- Hp.
Qed.

End ExactMatcherLoops.

(** ** EAN Expander *)

Section ExpanderFacts.
Context {F : Type} `{PyFloat F}.
Import PyDict PyDictFacts.

Lemma create_item_source sour (rec : source_rec F) :
  source_name (create_item sour rec) = sour.
Proof.
  unfold create_item.
  destruct (rec_Weight rec) as [w|]; [destruct (float_truth w)|]; reflexivity.
Qed.

Lemma create_item_EANs sour (rec : source_rec F) :
  EANs (create_item sour rec) = rec_EANs rec.
Proof.
  unfold create_item.
  destruct (rec_Weight rec) as [w|]; [destruct (float_truth w)|]; reflexivity.
Qed.

Lemma wf_items_set sour (d : dict string item) ean it :
  source_name it = sour -> wf_items sour d ->
  wf_items sour (set ean (with_ean it ean) d).
Proof.
  intros Hs [Hnd Hall]. split; [by apply NoDup_keys_set|].
  intros e it' [[-> ->]|Hin]%elem_of_set; [done|by apply Hall].
Qed.

Lemma prepare_parsed_list_wf sour (recs : list (source_rec F)) :
  wf_items sour (prepare_parsed_list sour recs).
Proof.
  unfold prepare_parsed_list. apply foldl_invariant.
  - split; [apply NoDup_nil_2|]. intros e it Hin. by apply elem_of_nil in Hin.
  - intros d it (rec & -> & _)%list_elem_of_fmap Hd.
    apply foldl_invariant; [done|].
    intros d' ean _ Hd'. apply wf_items_set; [|done]. apply create_item_source.
Qed.

Lemma add_source_wf sources fn (raw_recs : list (source_rec F)) :
  wf_sources sources -> wf_sources (add_source sources fn raw_recs).
Proof.
  intros [Hnd Hwf]. unfold add_source. split; [by apply NoDup_keys_set|].
  intros sour items [[-> ->]|Hin]%elem_of_set; [|by apply Hwf].
  apply prepare_parsed_list_wf.
Qed.

Lemma load_sources_wf (files : list (string * list (source_rec F))) :
  wf_sources (load_sources files).
Proof.
  unfold load_sources. apply foldl_invariant.
  - split; [apply NoDup_nil_2|]. intros sour items Hin. by apply elem_of_nil in Hin.
  - intros sources [fn raw_recs] _. apply add_source_wf.
Qed.

(** A record without codes leaves no trace in the code-indexed view. *)
Lemma prepare_parsed_list_no_codes sour (recs1 recs2 : list (source_rec F)) rec :
  rec_EANs rec = [] ->
  prepare_parsed_list sour (recs1 ++ rec :: recs2) =
  prepare_parsed_list sour (recs1 ++ recs2).
Proof.
  intros He. unfold prepare_parsed_list.
  rewrite !map_app, !foldl_app. cbn [map foldl].
  by rewrite create_item_EANs, He.
Qed.

End ExpanderFacts.

(** ** The claims on the Exact Matcher *)

Section ExactMatcherClaims.
Context {F : Type} `{PyFloat F}.
Import PyDict PyDictFacts.

(** C1: whatever the order in which the Exact Matcher goes through the
    sources, two items of two different sources under one code end up bound
    to one and the same list object, of which both are members. *)
Theorem code_sharing_items_share_group
    (files : list (string * list (source_rec F)))
    (order : dict string (dict string item))
    (sour1 sour2 : string) (items1 items2 : dict string item)
    (ean : string) (i j : item) :
  order ≡ₚ load_sources files ->
  (sour1, items1) ∈ load_sources files ->
  (sour2, items2) ∈ load_sources files ->
  sour1 ≠ sour2 ->
  get ean items1 = Some i ->
  get ean items2 = Some j ->
  exists g,
    bind_of (ean_store (combine_by_ean order)) i = Some g /\
    bind_of (ean_store (combine_by_ean order)) j = Some g /\
    i ∈ members_of (ean_store (combine_by_ean order)) g /\
    j ∈ members_of (ean_store (combine_by_ean order)) g.
Proof.
  intros Hperm Hin1 Hin2 Hne Hi Hj.
  assert (wf_sources order) as Hwf
    by (eapply wf_sources_perm; [done|apply load_sources_wf]).
  pose proof (wf_sources_coded _ Hwf) as Hc.
  destruct (combine_by_ean_inv order Hwf) as [Hcodes _].
  assert (i ∈ holders ean order) as Hhi.
  { apply elem_of_holders. exists sour1, items1. by rewrite Hperm. }
  assert (j ∈ holders ean order) as Hhj.
  { apply elem_of_holders. exists sour2, items2. by rewrite Hperm. }
  assert (i ≠ j) as Hij.
  { intros ->. apply Hne.
    destruct (Hc sour1 items1 ean j) as [<- _]; [by rewrite Hperm|done|].
    destruct (Hc sour2 items2 ean j) as [<- _]; [by rewrite Hperm|done|].
    done. }
  specialize (Hcodes ean).
  destruct (get ean (res_eans (combine_by_ean order))) as [g|].
  - destruct Hcodes as (Hg & _ & Hb). exists g.
    unfold members_of. rewrite Hg. simpl. auto.
  - exfalso. destruct (holders ean order) as [|x [|y l]]; simpl in Hcodes.
    + by apply elem_of_nil in Hhi.
    + apply list_elem_of_singleton in Hhi, Hhj. congruence.
    + lia.
Qed.

End ExactMatcherClaims.

Import Catalogues.
Lemma code_sharing_items_share_group_witness :
  exists g,
    bind_of (ean_store (combine_by_ean (reverse (load_sources two_shops))))
            item_a1 = Some g /\
    bind_of (ean_store (combine_by_ean (reverse (load_sources two_shops))))
            item_b7_same_code = Some g /\
    item_a1 ∈ members_of
      (ean_store (combine_by_ean (reverse (load_sources two_shops)))) g /\
    item_b7_same_code ∈ members_of
      (ean_store (combine_by_ean (reverse (load_sources two_shops)))) g.
Proof.
  apply (code_sharing_items_share_group two_shops
           (reverse (load_sources two_shops)) "shop_a.xml" "shop_b.xml"
           [("5901234123457", item_a1)] [("5901234123457", item_b7_same_code)]
           "5901234123457").
  - vm_compute. apply perm_swap.
  - vm_compute. apply list_elem_of_here.
  - vm_compute. apply list_elem_of_further, list_elem_of_here.
  - discriminate.
  - reflexivity.
  - reflexivity.
Defined.

(** ** Loops that may raise *)

Section ForEach.
Context {S A : Type} (body : S -> A -> result S).

Lemma for_each_raise (l : list A) e :
  foldl (fun r a => s ← r; body s a) (Raise e) l = Raise e.
Proof. induction l as [|a l IH]; simpl; [done|apply IH]. Qed.

Lemma for_each_cons a (l : list A) s :
  for_each body (a :: l) s =
  match body s a with
  | Ok s1 => for_each body l s1
  | Raise e => Raise e
  end.
Proof.
  unfold for_each. simpl.
  change (Ok s ≫= fun s0 => body s0 a) with (body s a).
  destruct (body s a); [done|apply for_each_raise].
Qed.

Lemma for_each_invariant (I : S -> Prop) (l : list A) s s' :
  I s ->
  (forall s a s', a ∈ l -> I s -> body s a = Ok s' -> I s') ->
  for_each body l s = Ok s' -> I s'.
Proof.
  revert s. induction l as [|a l IH]; intros s Hs Hstep.
  - by intros [= <-].
  - rewrite for_each_cons. destruct (body s a) as [s1|e] eqn:E; [|done].
    apply IH.
    + apply (Hstep s a); [apply list_elem_of_here|done|done].
    + intros s2 a2 s2' Hin. apply Hstep. by apply list_elem_of_further.
Qed.

End ForEach.

(** ** Alias Matcher: no two members of one source *)

Section AliasMatcherSources.
Variable token_set_ratio : string -> string -> N.
Import PyDict PyDictFacts.

Lemma pick_item_elem most_similar_alias candidates item0 it :
  pick_item most_similar_alias candidates item0 = Some it ->
  it ∈ candidates \/ item0 = Some it.
Proof.
  revert item0. induction candidates as [|c l IH]; intros item0; simpl.
  - by right.
  - case_bool_decide.
    + intros [= ->]. left. apply list_elem_of_here.
    + intros Hp. destruct (IH _ Hp) as [Hin|[= ->]]; left.
      * by apply list_elem_of_further.
      * apply list_elem_of_here.
Qed.

Lemma existsb_false {X} (p : X -> bool) (l : list X) x :
  existsb p l = false -> x ∈ l -> p x = false.
Proof.
  intros He Hin. destruct (p x) eqn:Ep; [|done].
  assert (existsb p l = true) as Ht; [|congruence].
  apply existsb_exists. exists x. split; [by apply list_elem_of_In|done].
Qed.

(** Appending a new item to the list object of a candidate that passes
    [not_bound_yet] keeps the sources of every list object distinct. *)
Lemma setdefault_append_distinct st new_sour new_item it bind st1 :
  source_name new_item = new_sour ->
  not_bound_yet st new_sour it = true ->
  distinct_sources st ->
  setdefault_bind it st = (bind, st1) ->
  distinct_sources (group_append bind new_item st1).
Proof.
  intros Hnew Hnb Hd. unfold not_bound_yet, same_source in Hnb.
  case_bool_decide as Hsrc; [done|].
  unfold setdefault_bind.
  destruct (bind_of st it) as [b|] eqn:Eb.
  - intros [= <- <-]. apply negb_true_iff in Hnb.
    intros g members. cbn [groups group_append].
    destruct (decide (g = b)) as [->|Hne].
    + rewrite list_lookup_alter_eq.
      destruct (groups st !! b) as [m|] eqn:Em; [|done].
      intros [= <-]. rewrite fmap_app. apply NoDup_app. split_and!.
      * by apply (Hd b).
      * intros x (y & -> & Hy)%list_elem_of_fmap Hx.
        apply list_elem_of_singleton in Hx.
        assert (bool_decide (source_name y = new_sour) = false) as Hf.
        { apply (existsb_false _ _ _ Hnb). unfold members_of. by rewrite Em. }
        apply bool_decide_eq_false in Hf. apply Hf. simpl in Hx. congruence.
      * apply NoDup_singleton.
    + rewrite list_lookup_alter_ne by done. apply Hd.
  - unfold new_group. intros [= <- <-].
    intros g members. cbn [groups group_append set_bind].
    destruct (decide (g = length (groups st))) as [->|Hne].
    + rewrite list_lookup_alter_eq, list_lookup_middle by done.
      intros [= <-]. simpl. apply NoDup_cons. split; [|apply NoDup_singleton].
      intros Hin%list_elem_of_singleton. congruence.
    + rewrite list_lookup_alter_ne by done. rewrite lookup_app.
      destruct (groups st !! g) as [m|] eqn:Em.
      * intros [= <-]. by apply (Hd g).
      * apply lookup_ge_None in Em.
        destruct (g - length (groups st))%nat as [|k] eqn:Ek; [lia|].
        by destruct k.
Qed.

Lemma append_alias_item_distinct res_brands_items new_sour thr s new_item s' :
  source_name new_item = new_sour ->
  distinct_sources (alias_store s) ->
  append_alias_item token_set_ratio res_brands_items new_sour thr s new_item
    = Ok s' ->
  distinct_sources (alias_store s').
Proof.
  intros Hnew Hd. unfold append_alias_item.
  destruct (bind_of (alias_store s) new_item); [by intros [= <-]|].
  destruct (get (brand new_item) res_brands_items) as [brand_items|]; [|done].
  set (cands := candidates _ brand_items _ _).
  destruct (extractOne _ _ _) as [[a sc]|]; [|by intros [= <-]].
  destruct (thr <=? Z.of_N sc)%Z; [|by intros [= <-]].
  destruct (pick_item a cands None) as [it|] eqn:Ep; [|done].
  destruct (setdefault_bind it (alias_store s)) as [bind st1] eqn:Es.
  intros [= <-]. cbn [alias_store].
  apply pick_item_elem in Ep as [Hin|?]; [|done].
  apply list_elem_of_filter in Hin as [Hcheck _].
  unfold check_item in Hcheck. apply andb_true_iff in Hcheck as [_ Hnb].
  by eapply setdefault_append_distinct.
Qed.

Lemma append_by_alias_distinct res_brands_items s new_sour new_items thr s' :
  wf_items new_sour new_items ->
  distinct_sources (alias_store s) ->
  append_by_alias token_set_ratio res_brands_items s new_sour new_items thr
    = Ok s' ->
  distinct_sources (alias_store s').
Proof.
  intros [_ Hwf] Hd. unfold append_by_alias.
  apply (for_each_invariant _ (fun s => distinct_sources (alias_store s))); [done|].
  intros s0 it s0' Hin Hd0. apply append_alias_item_distinct; [|done].
  unfold values in Hin. apply list_elem_of_fmap in Hin as ([ean it'] & -> & Hin).
  by destruct (Hwf _ _ Hin).
Qed.

Lemma combine_items_by_alias_distinct sources res_brand_items thr st a :
  wf_sources sources ->
  distinct_sources st ->
  combine_items_by_alias token_set_ratio sources res_brand_items thr st = Ok a ->
  distinct_sources (alias_store a).
Proof.
  intros [_ Hwf] Hd. unfold combine_items_by_alias.
  apply (for_each_invariant _ (fun s => distinct_sources (alias_store s))); [done|].
  intros s0 [sour items] s0' Hin Hd0.
  apply append_by_alias_distinct; [by apply Hwf|done].
Qed.

(** The Exact Matcher leaves list objects whose members are of different
    sources. *)
Lemma combine_by_ean_distinct (sources : dict string (dict string item)) :
  wf_sources sources -> distinct_sources (ean_store (combine_by_ean sources)).
Proof.
  intros Hwf. destruct (combine_by_ean_inv sources Hwf) as [Hcodes Hgroups].
  intros g members Hg.
  destruct (Hgroups g) as [ean He]; [by eapply lookup_lt_Some|].
  specialize (Hcodes ean). rewrite He in Hcodes. destruct Hcodes as (Hg' & _).
  rewrite Hg in Hg'. injection Hg' as ->.
  apply holders_distinct_sources; [by apply wf_sources_coded|apply Hwf].
Qed.

End AliasMatcherSources.

(** ** The claims on the groups of the run *)

Section RunClaims.
Context {F : Type} `{PyFloat F}.
Variable token_set_ratio : string -> string -> N.
Import PyDict PyDictFacts.

Lemma combine_distinct_sources thr_b thr_a sources o :
  wf_sources sources ->
  combine token_set_ratio thr_b thr_a sources = Ok o ->
  distinct_sources (final_store o).
Proof.
  intros Hwf. unfold combine.
  destruct (group_items_by_similar_brands _ _ _) as [pools|]; [|done].
  cbn [mbind result_bind rbind].
  destruct (combine_items_by_alias _ _ _ _ _) as [a|] eqn:Ea; [|done].
  intros [= <-]. cbn [final_store].
  eapply combine_items_by_alias_distinct; [exact Hwf| |exact Ea].
  by apply combine_by_ean_distinct.
Qed.

(** A record on which [create_item] raises stops the run, with or without
    codes. *)
Lemma record_that_raises_stops_the_run
    (files1 files2 : list (string * list (source_rec F))) (fn : string)
    (recs1 recs2 : list (source_rec F)) (rec : source_rec F) :
  create_item_returns rec = false ->
  load_sources_returns (files1 ++ (fn, recs1 ++ rec :: recs2) :: files2) = false.
Proof.
  intros Hr. unfold load_sources_returns, prepare_parsed_list_returns.
  rewrite forallb_app. cbn [forallb]. rewrite forallb_app. cbn [forallb].
  rewrite Hr. by rewrite andb_false_r, andb_false_r.
Qed.

(** C4 (as amended): a record whose codes are empty and on which
    [create_item] returns (its weight, if it has one, is finite) gets no
    code-indexed entry, and with that it is out of the run altogether: the
    loading of the sources returns with the record exactly when it does
    without, and the code-indexed view of its source, the sources and the
    outcome of the run are those of the files without the record. *)
Theorem record_without_codes_is_left_out
    (files1 files2 : list (string * list (source_rec F))) (fn : string)
    (recs1 recs2 : list (source_rec F)) (rec : source_rec F) :
  rec_EANs rec = [] ->
  create_item_returns rec = true ->
  load_sources_returns (files1 ++ (fn, recs1 ++ rec :: recs2) :: files2) =
    load_sources_returns (files1 ++ (fn, recs1 ++ recs2) :: files2) /\
  prepare_parsed_list (basename fn) (recs1 ++ rec :: recs2) =
    prepare_parsed_list (basename fn) (recs1 ++ recs2) /\
  load_sources (files1 ++ (fn, recs1 ++ rec :: recs2) :: files2) =
    load_sources (files1 ++ (fn, recs1 ++ recs2) :: files2) /\
  main token_set_ratio (files1 ++ (fn, recs1 ++ rec :: recs2) :: files2) =
    main token_set_ratio (files1 ++ (fn, recs1 ++ recs2) :: files2).
Proof.
  intros He Hr.
  split.
  { unfold load_sources_returns, prepare_parsed_list_returns.
    rewrite !forallb_app. cbn [forallb]. rewrite !forallb_app. cbn [forallb].
    by rewrite Hr. }
  pose proof (prepare_parsed_list_no_codes (basename fn) recs1 recs2 rec He) as Hp.
  assert (load_sources (files1 ++ (fn, recs1 ++ rec :: recs2) :: files2) =
          load_sources (files1 ++ (fn, recs1 ++ recs2) :: files2)) as Hl.
  { unfold load_sources. rewrite !foldl_app. cbn [foldl].
    unfold add_source at 2 4. by rewrite Hp. }
  split_and!; [done|done|]. unfold main. by rewrite Hl.
Qed.

End RunClaims.

(** ** The claims on sample catalogues *)

(** C3 (counterexample): two shops list one product under the same two
    codes.  The merged list has one group per code, and the two groups share
    the member with source "shop_a.xml" and id "a1" (and the one with source
    "shop_b.xml" and id "b7"). *)
Lemma two_groups_share_a_record :
  main_res word_set_ratio two_codes =
  Ok [[{| x_source_name := "shop_a.xml"; x_id := "a1";
          x_ean_code := Some "5901234123457"; x_name := "Acme Shampoo" |};
       {| x_source_name := "shop_b.xml"; x_id := "b7";
          x_ean_code := Some "5901234123457"; x_name := "Acme Shampoo" |}];
      [{| x_source_name := "shop_a.xml"; x_id := "a1";
          x_ean_code := Some "4006381333931"; x_name := "Acme Shampoo" |};
       {| x_source_name := "shop_b.xml"; x_id := "b7";
          x_ean_code := Some "4006381333931"; x_name := "Acme Shampoo" |}]].
Proof. vm_compute. reflexivity. Qed.

(** C4 (counterexample): the first shop's record has no code.  Its source
    has no item at all, the pool of candidates of its brand holds the other
    shop's item only, and the run matches nothing; with its code, the same
    record is matched to the other shop's item by alias. *)
Lemma record_without_codes_is_not_matched :
  load_sources no_code =
    [("shop_a.xml", []); ("shop_b.xml", [("7312040017003", item_b7)])] /\
  group_items_by_similar_brands word_set_ratio (load_sources no_code) 85 =
    Ok [("acme", [item_b7])] /\
  main_res word_set_ratio no_code = Ok [] /\
  main_res word_set_ratio two_shops_two_codes =
    Ok [[export_item item_b7; export_item item_a1]].
Proof. split_and!; vm_compute; reflexivity. Qed.

Lemma record_without_codes_is_left_out_witness :
  load_sources_returns no_code =
    load_sources_returns
      [("data/shop_a.xml", []); ("data/shop_b.xml", [rec_b7])] /\
  prepare_parsed_list (basename "data/shop_a.xml") [rec_a1_no_code] =
    prepare_parsed_list (basename "data/shop_a.xml") [] /\
  load_sources no_code =
    load_sources [("data/shop_a.xml", []); ("data/shop_b.xml", [rec_b7])] /\
  main word_set_ratio no_code =
    main word_set_ratio
         [("data/shop_a.xml", []); ("data/shop_b.xml", [rec_b7])].
Proof.
  exact (record_without_codes_is_left_out word_set_ratio []
           [("data/shop_b.xml", [rec_b7])] "data/shop_a.xml" [] []
           rec_a1_no_code eq_refl eq_refl).
Defined.

(** C5 (evaluation at the failing input): two shops list one product under
    different codes.  The Alias Matcher makes the list object 0 for the
    second shop's item and appends the first shop's item to it; the first
    item is bound to it, the appended one is left without ['bind'].  When
    the shops share the code, the Exact Matcher binds the item it appends. *)
Theorem alias_append_leaves_new_item_unbound :
  (let st := final_store (outcome_of (main word_set_ratio two_shops_two_codes)) in
   (groups st, bind_of st item_b7, bind_of st item_a1))
  = ([[item_b7; item_a1]], Some 0%nat, None) /\
  (let st := ean_store (combine_by_ean (load_sources two_shops)) in
   (groups st, bind_of st item_a1, bind_of st item_b7_same_code))
  = ([[item_a1; item_b7_same_code]], Some 0%nat, Some 0%nat).
Proof. split; vm_compute; reflexivity. Qed.

(** ** Alias Matcher: what the threshold decides *)

Section AliasMatcherThreshold.
Variable token_set_ratio : string -> string -> N.
Import PyDict PyDictFacts.

(** [extractOne] returns a choice of the greatest score, with its score. *)
Lemma extractOne_Some query choices c sc :
  extractOne token_set_ratio query choices = Some (c, sc) ->
  c ∈ choices /\ sc = token_set_ratio query c /\
  forall c', c' ∈ choices ->
             (token_set_ratio query c' <= token_set_ratio query c)%N.
Proof.
  unfold extractOne.
  set (step := fun best choice => _).
  assert (match foldl step None choices with
          | None => choices = []
          | Some (c, sc) =>
              c ∈ choices /\ sc = token_set_ratio query c /\
              forall c', c' ∈ choices ->
                         (token_set_ratio query c' <= token_set_ratio query c)%N
          end) as Hinv.
  { apply (foldl_prefix_invariant step
             (fun pre best =>
                match best with
                | None => pre = []
                | Some (c, sc) =>
                    c ∈ pre /\ sc = token_set_ratio query c /\
                    forall c', c' ∈ pre ->
                      (token_set_ratio query c' <= token_set_ratio query c)%N
                end)); [done|].
    intros pre x post best _ Hbest. unfold step.
    assert ((0 <=? token_set_ratio query x)%N = true) as ->
      by (apply N.leb_le, N.le_0_l).
    destruct best as [[c0 sc0]|].
    - destruct Hbest as (Hin & -> & Hmax).
      destruct (token_set_ratio query c0 <? token_set_ratio query x)%N eqn:E.
      + apply N.ltb_lt in E. split_and!.
        * apply elem_of_app. right. by apply list_elem_of_singleton.
        * done.
        * intros c' [Hc'|Hc'%list_elem_of_singleton]%elem_of_app;
            [|subst c'; lia].
          specialize (Hmax c' Hc'). lia.
      + apply N.ltb_ge in E. split_and!.
        * apply elem_of_app. by left.
        * done.
        * intros c' [Hc'|Hc'%list_elem_of_singleton]%elem_of_app;
            [auto|subst c'; lia].
    - subst pre. split_and!.
      + by apply list_elem_of_singleton.
      + done.
      + intros c' Hc'%list_elem_of_singleton. subst c'. lia. }
  intros E. by rewrite E in Hinv.
Qed.

Lemma extractOne_None query choices :
  extractOne token_set_ratio query choices = None -> choices = [].
Proof.
  destruct choices as [|c l]; [done|]. unfold extractOne. simpl.
  assert ((0 <=? token_set_ratio query c)%N = true) as ->
    by (apply N.leb_le, N.le_0_l).
  set (step := fun best choice => _).
  assert (forall l b, is_Some (foldl step (Some b) l)) as Hsome.
  { clear. induction l as [|x l IH]; intros b; simpl; [done|].
    unfold step at 2. destruct (0 <=? _)%N; [|apply IH].
    destruct b as [c0 sc0]. destruct (sc0 <? _)%N; apply IH. }
  intros E. destruct (Hsome l (c, token_set_ratio query c)) as [x Hx]. congruence.
Qed.

(** The candidate the loop after [extractOne] stops at has the alias sought
    when some candidate has it. *)
Lemma pick_item_found most_similar_alias cands item0 :
  most_similar_alias ∈ alias <$> cands ->
  exists it, pick_item most_similar_alias cands item0 = Some it /\
             it ∈ cands /\ alias it = most_similar_alias.
Proof.
  revert item0. induction cands as [|c l IH]; intros item0 Hin; simpl.
  - by apply elem_of_nil in Hin.
  - case_bool_decide as Ha.
    + exists c. split_and!; [done|apply list_elem_of_here|done].
    + rewrite fmap_cons in Hin. apply elem_of_cons in Hin as [?|Hin]; [done|].
      destruct (IH (Some c) Hin) as (it & Hp & Hit & Hal).
      exists it. split_and!; [done|by apply list_elem_of_further|done].
Qed.

Lemma members_of_group_append st g new_item g' :
  members_of (group_append g new_item st) g' =
  if decide (g' = g)
  then match groups st !! g with
       | Some m => m ++ [new_item]
       | None => []
       end
  else members_of st g'.
Proof.
  unfold members_of, group_append. cbn [groups].
  destruct (decide (g' = g)) as [->|Hne].
  - rewrite list_lookup_alter_eq. by destruct (groups st !! g).
  - by rewrite list_lookup_alter_ne.
Qed.

(** What [setdefault] followed by [append] does to the store. *)
Lemma setdefault_append st it new_item bind st1 :
  refs_valid st ->
  setdefault_bind it st = (bind, st1) ->
  bind_of (group_append bind new_item st1) it = Some bind /\
  new_item ∈ members_of (group_append bind new_item st1) bind /\
  forall g, g ≠ bind ->
            members_of (group_append bind new_item st1) g = members_of st g.
Proof.
  intros Hv. unfold setdefault_bind.
  destruct (bind_of st it) as [b|] eqn:Eb.
  - intros [= <- <-]. split_and!.
    + done.
    + rewrite members_of_group_append, decide_True by done.
      destruct (groups st !! b) as [m|] eqn:Em.
      * apply elem_of_app. right. by apply list_elem_of_singleton.
      * apply lookup_ge_None in Em. specialize (Hv _ _ Eb). lia.
    + intros g Hne. by rewrite members_of_group_append, decide_False.
  - unfold new_group. intros [= <- <-]. split_and!.
    + unfold bind_of, group_append, set_bind. cbn [binds].
      apply lookup_insert_eq.
    + rewrite members_of_group_append, decide_True by done.
      cbn [groups set_bind]. rewrite list_lookup_middle by done.
      apply list_elem_of_further, list_elem_of_here.
    + intros g Hne. rewrite members_of_group_append, decide_False by done.
      unfold members_of. cbn [groups set_bind]. rewrite lookup_app.
      destruct (groups st !! g) as [m|] eqn:Em; [done|].
      apply lookup_ge_None in Em.
      destruct (g - length (groups st))%nat as [|k] eqn:Ek; [lia|].
      by destruct k.
Qed.

(** C9 (as amended): the new item gets into a list object only together
    with a candidate of the greatest score, and this score reaches the
    threshold: at 100, only with a candidate whose alias scores 100 or more
    against the new item's alias.  With a threshold of 0 or less, a new item
    that has a candidate at all is appended to the list object of one. *)
Theorem alias_threshold_decides res_brands_items new_sour thr s new_item
    brand_items s' :
  refs_valid (alias_store s) ->
  bind_of (alias_store s) new_item = None ->
  get (brand new_item) res_brands_items = Some brand_items ->
  append_alias_item token_set_ratio res_brands_items new_sour thr s new_item
    = Ok s' ->
  let cands := candidates (alias_store s) brand_items new_sour new_item in
  (forall g,
     new_item ∈ members_of (alias_store s') g ->
     new_item ∉ members_of (alias_store s) g ->
     exists it,
       it ∈ cands /\
       (thr <= Z.of_N (token_set_ratio (alias new_item) (alias it)))%Z /\
       (forall c, c ∈ cands ->
          (token_set_ratio (alias new_item) (alias c)
           <= token_set_ratio (alias new_item) (alias it))%N) /\
       bind_of (alias_store s') it = Some g) /\
  ((thr <= 0)%Z -> cands ≠ [] ->
   exists it g,
     it ∈ cands /\ bind_of (alias_store s') it = Some g /\
     new_item ∈ members_of (alias_store s') g).
Proof.
  intros Hv Hnew Hpool. unfold append_alias_item. rewrite Hnew, Hpool.
  set (cands := candidates (alias_store s) brand_items new_sour new_item).
  intros Hstep.
  destruct (extractOne _ _ _) as [[a sc]|] eqn:Ex.
  - apply extractOne_Some in Ex as (Ha & -> & Hmax).
    destruct (pick_item_found a cands None Ha) as (it & Hp & Hit & Hal).
    rewrite Hp in Hstep. subst a.
    destruct (thr <=? Z.of_N _)%Z eqn:Ethr.
    + destruct (setdefault_bind it (alias_store s)) as [bind st1] eqn:Es.
      injection Hstep as <-. cbn [alias_store].
      destruct (setdefault_append _ _ new_item _ _ Hv Es) as (Hb & Hm & Hother).
      split.
      * intros g Hin Hnin. destruct (decide (g = bind)) as [->|Hne].
        -- exists it. split_and!; [done|by apply Z.leb_le| |done].
           intros c Hc. apply Hmax. by apply list_elem_of_fmap_2.
        -- rewrite Hother in Hin by done. done.
      * intros _ _. by exists it, bind.
    + injection Hstep as <-. split.
      * intros g Hin Hnin. done.
      * intros Hthr _. apply Z.leb_gt in Ethr. lia.
  - injection Hstep as <-. apply extractOne_None in Ex. split.
    + intros g Hin Hnin. done.
    + intros _ Hne. by apply fmap_nil_inv in Ex.
Qed.

End AliasMatcherThreshold.

(** C9 (counterexample): with the threshold 0, the two items of one shop,
    of one brand and one weight key, are not merged: the run makes no group.
    With the threshold 100, two items whose aliases have the same words in
    another order are merged, though the texts differ. *)
Lemma threshold_extremes_differ :
  (group_items_by_similar_brands word_set_ratio (load_sources one_shop) 85
     = Ok [("acme", [item_a1; item_a2])] /\
   wm item_a1 = wm item_a2 /\
   (o ← combine word_set_ratio 85 0 (load_sources one_shop);
    Ok (result_list o)) = Ok []) /\
  (alias item_a5 = "repair shampoo" /\
   alias item_b9 = "shampoo repair" /\
   (o ← combine word_set_ratio 85 100 (load_sources word_order);
    Ok (result_list o)) = Ok [[export_item item_b9; export_item item_a5]]).
Proof. split_and!; vm_compute; reflexivity. Qed.

Lemma alias_threshold_decides_witness :
  exists it g,
    it ∈ candidates (alias_store alias_start) [item_a1; item_b7]
                    "shop_a.xml" item_a1 /\
    bind_of (alias_store alias_first_turn) it = Some g /\
    item_a1 ∈ members_of (alias_store alias_first_turn) g.
Proof.
  refine (proj2 (alias_threshold_decides word_set_ratio acme_pool "shop_a.xml"
                   0%Z alias_start item_a1 [item_a1; item_b7] alias_first_turn
                   _ eq_refl eq_refl _) _ _).
  - intros k g Hk. vm_compute in Hk. discriminate Hk.
  - vm_compute. reflexivity.
  - lia.
  - vm_compute. discriminate.
Defined.

(** ** Alias Matcher: the groups of the Exact Matcher stay apart *)

Lemma for_each_prefix_invariant {S A} (body : S -> A -> result S)
    (I : list A -> S -> Prop) (l : list A) (s s' : S) :
  I [] s ->
  (forall pre a post s s1,
     l = pre ++ a :: post -> I pre s -> body s a = Ok s1 -> I (pre ++ [a]) s1) ->
  for_each body l s = Ok s' -> I l s'.
Proof.
  intros H0 Hstep.
  assert (forall post pre s0, l = pre ++ post -> I pre s0 ->
            for_each body post s0 = Ok s' -> I l s') as Hgen.
  { induction post as [|a post IH]; intros pre s0 El Hpre.
    - rewrite app_nil_r in El. subst pre. by intros [= <-].
    - rewrite for_each_cons. destruct (body s0 a) as [s1|e] eqn:E; [|done].
      apply (IH (pre ++ [a])).
      + by rewrite <- app_assoc.
      + by apply (Hstep pre a post s0). }
  by apply (Hgen l []).
Qed.

Section CodeGroups.
Variable token_set_ratio : string -> string -> N.
Import PyDict PyDictFacts.

Lemma bind_of_key st it it' :
  item_key it = item_key it' -> bind_of st it = bind_of st it'.
Proof. unfold bind_of. by intros ->. Qed.

(** The members after [setdefault] and [append]. *)
Lemma setdefault_append_members st it new_item bind st1 :
  setdefault_bind it st = (bind, st1) ->
  (forall g, g ≠ bind ->
     members_of (group_append bind new_item st1) g = members_of st g) /\
  ((bind < length (groups st))%nat ->
   members_of (group_append bind new_item st1) bind
   = members_of st bind ++ [new_item]) /\
  (forall it', is_Some (bind_of st it') ->
               is_Some (bind_of (group_append bind new_item st1) it')) /\
  (length (groups st) <= length (groups (group_append bind new_item st1)))%nat.
Proof.
  unfold setdefault_bind. destruct (bind_of st it) as [b|] eqn:Eb.
  - intros [= <- <-]. split_and!.
    + intros g Hne. by rewrite members_of_group_append, decide_False.
    + intros Hlt. rewrite members_of_group_append, decide_True by done.
      unfold members_of. apply lookup_lt_is_Some_2 in Hlt as [m Hm].
      by rewrite Hm.
    + done.
    + cbn [groups group_append]. by rewrite length_alter.
  - unfold new_group. intros [= <- <-]. split_and!.
    + intros g Hne. rewrite members_of_group_append, decide_False by done.
      unfold members_of. cbn [groups set_bind]. rewrite lookup_app.
      destruct (groups st !! g) as [m|] eqn:Em; [done|].
      apply lookup_ge_None in Em.
      destruct (g - length (groups st))%nat as [|k] eqn:Ek; [lia|].
      by destruct k.
    + lia.
    + intros it' Hs. unfold bind_of, group_append, set_bind in *. cbn [binds].
      rewrite lookup_insert. by case_decide.
    + cbn [groups group_append set_bind]. rewrite length_alter, length_app. lia.
Qed.

Lemma code_groups_inv_more n done x st :
  code_groups_inv n done st -> code_groups_inv n (done ++ [x]) st.
Proof.
  intros (Ha & Hb & Hc). split_and!; [done| |done].
  intros g it Hg Hit. destruct (Hb g it Hg Hit) as [?|Hin]; [by left|].
  right. rewrite fmap_app. apply elem_of_app. by left.
Qed.

(** One turn of the loop of [append_by_alias], on an item it has not gone
    through before. *)
Lemma append_alias_item_code_groups res_brands_items new_sour thr n done s
    new_item s' :
  item_key new_item ∉ item_key <$> done ->
  code_groups_inv n done (alias_store s) ->
  append_alias_item token_set_ratio res_brands_items new_sour thr s new_item
    = Ok s' ->
  code_groups_inv n (done ++ [new_item]) (alias_store s').
Proof.
  intros Hfresh Hinv. unfold append_alias_item.
  destruct (bind_of (alias_store s) new_item) eqn:Enew;
    [intros [= <-]; by apply code_groups_inv_more|].
  destruct (get (brand new_item) res_brands_items) as [brand_items|]; [|done].
  set (cands := candidates _ brand_items _ _).
  destruct (extractOne _ _ _) as [[a sc]|];
    [|intros [= <-]; by apply code_groups_inv_more].
  destruct (thr <=? Z.of_N sc)%Z;
    [|intros [= <-]; by apply code_groups_inv_more].
  destruct (pick_item a cands None) as [it|]; [|done].
  destruct (setdefault_bind it (alias_store s)) as [bind st1] eqn:Es.
  intros [= <-]. cbn [alias_store].
  destruct (setdefault_append_members _ _ new_item _ _ Es)
    as (Hother & Hbind & Hmono & Hlen).
  destruct Hinv as (Ha & Hb & Hc).
  (* the new item is in none of the first [n] list objects *)
  assert (forall g it', (g < n)%nat -> it' ∈ members_of (alias_store s) g ->
            item_key it' ≠ item_key new_item) as Hnotin.
  { intros g it' Hg Hit' Hk. destruct (Hb g it' Hg Hit') as [Hs|Hd].
    - rewrite (bind_of_key _ _ _ Hk), Enew in Hs. by destruct Hs.
    - apply Hfresh. by rewrite <- Hk. }
  assert (forall g it', (g < n)%nat ->
            it' ∈ members_of (group_append bind new_item st1) g ->
            it' ∈ members_of (alias_store s) g \/ (g = bind /\ it' = new_item))
    as Hmem.
  { intros g it' Hg Hit'. destruct (decide (g = bind)) as [->|Hne].
    - rewrite Hbind in Hit' by lia.
      apply elem_of_app in Hit' as [?|Hx%list_elem_of_singleton]; auto.
    - rewrite Hother in Hit' by done. auto. }
  split_and!.
  - intros g1 g2 it1 it2 Hg1 Hg2 Hne H1 H2.
    destruct (Hmem g1 it1 Hg1 H1) as [H1'|[-> ->]];
      destruct (Hmem g2 it2 Hg2 H2) as [H2'|[-> ->]].
    + by apply (Ha g1 g2).
    + by apply (Hnotin g1).
    + intros Hk. by apply (Hnotin g2 it2 Hg2 H2').
    + done.
  - intros g it' Hg Hit'. destruct (Hmem g it' Hg Hit') as [Hold|[-> ->]].
    + destruct (Hb g it' Hg Hold) as [Hs|Hd]; [left; by apply Hmono|].
      right. rewrite fmap_app. apply elem_of_app. by left.
    + right. rewrite fmap_app. apply elem_of_app. right.
      by apply list_elem_of_singleton.
  - lia.
Qed.

Lemma all_items_app (sources1 sources2 : dict string (dict string item)) :
  all_items (sources1 ++ sources2) = all_items sources1 ++ all_items sources2.
Proof. unfold all_items. by rewrite map_app, concat_app. Qed.

Lemma combine_items_by_alias_code_groups sources res_brand_items thr n st a :
  NoDup (item_key <$> all_items sources) ->
  code_groups_inv n [] st ->
  combine_items_by_alias token_set_ratio sources res_brand_items thr st = Ok a ->
  code_groups_inv n (all_items sources) (alias_store a).
Proof.
  intros Hnd Hinv. unfold combine_items_by_alias.
  apply (for_each_prefix_invariant _
           (fun pre s => code_groups_inv n (all_items pre) (alias_store s)));
    [done|].
  intros pre [sour items] post s s1 Esrc Hpre. unfold append_by_alias.
  rewrite all_items_app. unfold all_items at 2. cbn [map concat snd].
  rewrite app_nil_r.
  apply (for_each_prefix_invariant _
           (fun pre' s => code_groups_inv n (all_items pre ++ pre')
                                          (alias_store s)));
    [by rewrite app_nil_r|].
  intros pre' it post' s2 s3 Eval Hpre'. rewrite app_assoc.
  apply append_alias_item_code_groups; [|done].
  rewrite Esrc, all_items_app in Hnd. unfold all_items in Hnd at 2.
  cbn [map concat snd] in Hnd. rewrite Eval in Hnd.
  rewrite <- !app_assoc, app_assoc, fmap_app in Hnd.
  apply NoDup_app in Hnd as (_ & Hdisj & _).
  intros Hin. apply (Hdisj _ Hin). simpl. apply list_elem_of_here.
Qed.

End CodeGroups.

Section CodeGroupsClaim.
Context {F : Type} `{PyFloat F}.
Variable token_set_ratio : string -> string -> N.
Import PyDict PyDictFacts.

Lemma wf_items_keys sour (items : dict string item) :
  wf_items sour items ->
  item_key <$> values items = (fun ean => (sour, Some ean)) <$> keys items.
Proof.
  intros [_ Hwf]. unfold values, keys. rewrite <- !list_fmap_compose.
  apply list_fmap_ext. intros i [ean it] Hi. simpl.
  destruct (Hwf ean it) as [Hs He]; [by eapply list_elem_of_lookup_2|].
  unfold item_key. by rewrite Hs, He.
Qed.

Lemma elem_of_concat {X} (x : X) (ls : list (list X)) :
  x ∈ concat ls -> exists l, x ∈ l /\ l ∈ ls.
Proof.
  induction ls as [|l0 ls IH]; simpl.
  - intros Hin. by apply elem_of_nil in Hin.
  - intros [Hin|Hin]%elem_of_app.
    + exists l0. split; [done|apply list_elem_of_here].
    + destruct (IH Hin) as (l & Hx & Hl). exists l.
      split; [done|by apply list_elem_of_further].
Qed.

Lemma all_items_source (sources : dict string (dict string item)) it :
  wf_sources sources -> it ∈ all_items sources -> source_name it ∈ keys sources.
Proof.
  intros [_ Hwf]. unfold all_items.
  intros (l & Hit & Hl)%elem_of_concat.
  apply list_elem_of_fmap in Hl as ([sour items] & -> & Hin).
  simpl in Hit. unfold values in Hit.
  apply list_elem_of_fmap in Hit as ([ean it'] & -> & Hin').
  destruct (Hwf _ _ Hin) as [_ Hitems]. destruct (Hitems _ _ Hin') as [Hs _].
  cbn [snd]. rewrite Hs.
  unfold keys. by apply (list_elem_of_fmap_2 fst) in Hin.
Qed.

Lemma all_items_keys_NoDup (sources : dict string (dict string item)) :
  wf_sources sources -> NoDup (item_key <$> all_items sources).
Proof.
  induction sources as [|[sour items] rest IH]; intros Hwf.
  - apply NoDup_nil_2.
  - assert (wf_sources rest /\ (sour ∉ keys rest) /\ wf_items sour items)
      as (Hrest & Hsour & Hitems).
    { destruct Hwf as [Hnd Hall]. unfold keys in Hnd. rewrite fmap_cons in Hnd.
      apply NoDup_cons in Hnd as [Hs Hnd]. split_and!.
      - split; [done|]. intros s0 i0 Hin. apply Hall.
        by apply list_elem_of_further.
      - done.
      - apply Hall. apply list_elem_of_here. }
    change (all_items ((sour, items) :: rest))
      with (values items ++ all_items rest).
    rewrite fmap_app. apply NoDup_app. split_and!.
    + rewrite (wf_items_keys sour) by done.
      apply NoDup_fmap_2; [|apply Hitems]. by intros e1 e2 [= ->].
    + rewrite (wf_items_keys sour) by done.
      intros k (ean & -> & _)%list_elem_of_fmap
               (it & Hk & Hit)%list_elem_of_fmap.
      apply Hsour. apply (all_items_source rest it Hrest) in Hit.
      unfold item_key in Hk. injection Hk as -> _. done.
    + by apply IH.
Qed.

(** A code has its own list object. *)
Lemma res_eans_injective (sources : dict string (dict string item)) ean1 ean2 g :
  wf_sources sources ->
  get ean1 (res_eans (combine_by_ean sources)) = Some g ->
  get ean2 (res_eans (combine_by_ean sources)) = Some g ->
  ean1 = ean2.
Proof.
  intros Hwf H1 H2. destruct (combine_by_ean_inv sources Hwf) as [Hcodes _].
  pose proof (Hcodes ean1) as He1. pose proof (Hcodes ean2) as He2.
  rewrite H1 in He1. rewrite H2 in He2.
  destruct He1 as (Hg1 & Hlen & _). destruct He2 as (Hg2 & _ & _).
  rewrite Hg1 in Hg2. injection Hg2 as Heq.
  destruct (holders ean1 sources) as [|it l] eqn:E; [simpl in Hlen; lia|].
  pose proof (wf_sources_coded _ Hwf) as Hc.
  assert (ean_code it = Some ean1) as C1.
  { apply (holders_code ean1 sources it Hc). rewrite E. apply list_elem_of_here. }
  assert (ean_code it = Some ean2) as C2.
  { apply (holders_code ean2 sources it Hc). rewrite <- Heq.
    apply list_elem_of_here. }
  congruence.
Qed.

(** The list objects the Exact Matcher leaves are those of the codes. *)
Lemma combine_by_ean_code_groups (sources : dict string (dict string item)) :
  wf_sources sources ->
  code_groups_inv (length (groups (ean_store (combine_by_ean sources)))) []
                  (ean_store (combine_by_ean sources)).
Proof.
  intros Hwf. destruct (combine_by_ean_inv sources Hwf) as [Hcodes Hgroups].
  pose proof (wf_sources_coded _ Hwf) as Hc.
  assert (forall g it,
            (g < length (groups (ean_store (combine_by_ean sources))))%nat ->
            it ∈ members_of (ean_store (combine_by_ean sources)) g ->
            exists ean, get ean (res_eans (combine_by_ean sources)) = Some g /\
                        ean_code it = Some ean /\
                        bind_of (ean_store (combine_by_ean sources)) it = Some g)
    as Hmem.
  { intros g it Hg Hit. destruct (Hgroups g Hg) as [ean He]. exists ean.
    specialize (Hcodes ean). rewrite He in Hcodes.
    destruct Hcodes as (Hgr & _ & Hb).
    unfold members_of in Hit. rewrite Hgr in Hit. simpl in Hit.
    split_and!; [done|by apply (holders_code ean sources)|by apply Hb]. }
  split_and!.
  - intros g1 g2 it1 it2 Hg1 Hg2 Hne H1 H2 Hk.
    destruct (Hmem g1 it1 Hg1 H1) as (e1 & He1 & Hc1 & _).
    destruct (Hmem g2 it2 Hg2 H2) as (e2 & He2 & Hc2 & _).
    apply item_key_code in Hk. rewrite Hc1, Hc2 in Hk. injection Hk as ->.
    congruence.
  - intros g it Hg Hit. left.
    destruct (Hmem g it Hg Hit) as (e & _ & _ & ->). done.
  - done.
Qed.

(** C3 (as amended): in the merged list, two code-based groups (the list
    objects of two different codes) have no per-code copy of an item in
    common: a member of one and a member of the other differ in source or
    in code. *)
Theorem code_groups_share_no_copy
    (files : list (string * list (source_rec F))) (thr_b thr_a : Z)
    (o : outcome) (ean1 ean2 : string) (g1 g2 : nat) (it1 it2 : item) :
  combine token_set_ratio thr_b thr_a (load_sources files) = Ok o ->
  get ean1 (res_eans (combine_by_ean (load_sources files))) = Some g1 ->
  get ean2 (res_eans (combine_by_ean (load_sources files))) = Some g2 ->
  ean1 ≠ ean2 ->
  it1 ∈ members_of (final_store o) g1 ->
  it2 ∈ members_of (final_store o) g2 ->
  g1 ∈ same_items_list o /\ g2 ∈ same_items_list o /\ same_copy it1 it2 = false.
Proof.
  intros Hrun He1 He2 Hne H1 H2.
  pose proof (load_sources_wf files) as Hwf.
  set (sources := load_sources files) in *.
  destruct (combine_by_ean_inv sources Hwf) as [Hcodes _].
  assert (g1 < length (groups (ean_store (combine_by_ean sources))))%nat as Hg1.
  { specialize (Hcodes ean1). rewrite He1 in Hcodes.
    destruct Hcodes as (Hg & _). by eapply lookup_lt_Some. }
  assert (g2 < length (groups (ean_store (combine_by_ean sources))))%nat as Hg2.
  { specialize (Hcodes ean2). rewrite He2 in Hcodes.
    destruct Hcodes as (Hg & _). by eapply lookup_lt_Some. }
  assert (g1 ≠ g2) as Hg.
  { intros ->. apply Hne. by eapply res_eans_injective. }
  unfold combine in Hrun. fold sources in Hrun.
  destruct (group_items_by_similar_brands _ _ _) as [pools|]; [|done].
  cbn [mbind result_bind rbind] in Hrun.
  destruct (combine_items_by_alias _ _ _ _ _) as [a|] eqn:Ea; [|done].
  injection Hrun as <-. cbn [final_store same_items_list] in *.
  split_and!.
  - apply elem_of_app. left. unfold values.
    apply (list_elem_of_fmap_2 snd (res_eans (combine_by_ean sources)) (ean1, g1)).
    by apply get_Some_elem.
  - apply elem_of_app. left. unfold values.
    apply (list_elem_of_fmap_2 snd (res_eans (combine_by_ean sources)) (ean2, g2)).
    by apply get_Some_elem.
  - apply bool_decide_eq_false.
    destruct (combine_items_by_alias_code_groups token_set_ratio sources pools
                thr_a _ _ a (all_items_keys_NoDup sources Hwf)
                (combine_by_ean_code_groups sources Hwf) Ea) as (Hdisj & _).
    by apply (Hdisj g1 g2).
Qed.

End CodeGroupsClaim.

Lemma code_groups_share_no_copy_witness :
  0%nat ∈ same_items_list two_codes_outcome /\
  1%nat ∈ same_items_list two_codes_outcome /\
  same_copy
    (item_of "shop_a.xml"
       (Samples.sample_rec "a1" "Acme Shampoo" "Acme" ["5901234123457"; "4006381333931"])
       "5901234123457")
    (item_of "shop_a.xml"
       (Samples.sample_rec "a1" "Acme Shampoo" "Acme" ["5901234123457"; "4006381333931"])
       "4006381333931") = false.
Proof.
  apply (code_groups_share_no_copy word_set_ratio two_codes 85 85
           two_codes_outcome "5901234123457" "4006381333931" 0 1).
  - vm_compute. reflexivity.
  - vm_compute. reflexivity.
  - vm_compute. reflexivity.
  - discriminate.
  - vm_compute. apply list_elem_of_here.
  - vm_compute. apply list_elem_of_here.
Defined.

(** ** The run returns *)

Lemma for_each_total {S A} (body : S -> A -> result S) (I : S -> Prop)
    (l : list A) (s : S) :
  I s ->
  (forall s a, a ∈ l -> I s -> exists s1, body s a = Ok s1 /\ I s1) ->
  exists s', for_each body l s = Ok s' /\ I s'.
Proof.
  revert s. induction l as [|a l IH]; intros s Hs Hstep.
  - by exists s.
  - rewrite for_each_cons.
    destruct (Hstep s a) as (s1 & -> & Hs1); [apply list_elem_of_here|done|].
    apply IH; [done|].
    intros s2 a2 Hin. apply Hstep. by apply list_elem_of_further.
Qed.

Section RunReturns.
Variable token_set_ratio : string -> string -> N.
Import PyDict PyDictFacts.

Lemma extractOne_is_Some query c choices :
  is_Some (extractOne token_set_ratio query (c :: choices)).
Proof.
  destruct (extractOne token_set_ratio query (c :: choices)) eqn:E; [done|].
  by apply extractOne_None in E.
Qed.

(** [match_brand] does not raise, keeps the brand names it has and has the
    new one. *)
Lemma match_brand_returns thr new_sour s new_brand new_items :
  exists s1,
    match_brand token_set_ratio thr new_sour s new_brand new_items = Ok s1 /\
    new_brand ∈ keys (res_brands s1) /\
    forall b, b ∈ keys (res_brands s) -> b ∈ keys (res_brands s1).
Proof.
  assert (forall c, new_brand ∈ keys (set new_brand c (res_brands s))) as Hnew.
  { intros c.
    destruct (decide (new_brand ∈ keys (set new_brand c (res_brands s))))
      as [|Hn]; [done|].
    exfalso. apply get_None in Hn. by rewrite get_set_eq in Hn. }
  assert (forall c b, b ∈ keys (res_brands s) ->
            b ∈ keys (set new_brand c (res_brands s))) as Hold.
  { intros c b Hb. rewrite keys_set. case_decide; [done|].
    apply elem_of_app. by left. }
  unfold match_brand.
  destruct (get new_brand (res_brands s)) as [c|] eqn:Eg.
  - eexists. split; [reflexivity|]. cbn [res_brands]. split; [|done].
    destruct (decide (new_brand ∈ keys (res_brands s))) as [|Hn]; [done|].
    apply get_None in Hn. congruence.
  - destruct (res_brands s) as [|[k0 c0] rest] eqn:Er.
    + eexists. split; [reflexivity|]. cbn [res_brands].
      split; [apply Hnew|apply Hold].
    + change (keys ((k0, c0) :: rest)) with (k0 :: keys rest).
      destruct (extractOne_is_Some new_brand k0 (keys rest)) as [[b sc] Ex].
      rewrite Ex. apply extractOne_Some in Ex as (Hb & _).
      change (k0 :: keys rest) with (keys ((k0, c0) :: rest)) in Hb.
      destruct (elem_of_keys _ _ Hb) as [c Hc]. rewrite Hc.
      destruct (thr <=? Z.of_N sc)%Z; eexists; (split; [reflexivity|]);
        cbn [res_brands]; (split; [apply Hnew|apply Hold]).
Qed.

Lemma match_brands_returns brand_sources thr :
  exists s,
    match_brands token_set_ratio brand_sources thr = Ok s /\
    forall sour brands b,
      (sour, brands) ∈ brand_sources -> b ∈ keys brands ->
      b ∈ keys (res_brands s).
Proof.
  unfold match_brands.
  set (inner := fun new_sour (s : brand_state) '(new_brand, new_items) =>
                  match_brand token_set_ratio thr new_sour s new_brand new_items).
  assert (forall new_sour (brands : dict string (list item)) s,
            exists s1, for_each (inner new_sour) brands s = Ok s1 /\
                       (forall b, b ∈ keys brands -> b ∈ keys (res_brands s1)) /\
                       (forall b, b ∈ keys (res_brands s) ->
                                  b ∈ keys (res_brands s1))) as Hinner.
  { intros new_sour brands. induction brands as [|[b0 items0] brands IH];
      intros s.
    - exists s. split_and!; [done| |done].
      intros b Hb. by apply elem_of_nil in Hb.
    - rewrite for_each_cons. cbn [inner].
      destruct (match_brand_returns thr new_sour s b0 items0)
        as (s1 & -> & Hb0 & Hmono).
      destruct (IH s1) as (s2 & -> & Hall & Hmono2).
      exists s2. split_and!; [done| |by auto].
      intros b [->|Hb]%elem_of_cons; auto. }
  set (outer := fun (s : brand_state) '(new_sour, new_brands) =>
                  for_each (inner new_sour) new_brands s).
  assert (forall (bs : dict string (dict string (list item))) s,
            exists s1, for_each outer bs s = Ok s1 /\
              (forall sour brands b, (sour, brands) ∈ bs -> b ∈ keys brands ->
                                     b ∈ keys (res_brands s1)) /\
              (forall b, b ∈ keys (res_brands s) -> b ∈ keys (res_brands s1)))
    as Houter.
  { induction bs as [|[sour0 brands0] bs IH]; intros s.
    - exists s. split_and!; [done| |done].
      intros sour brands b Hin. by apply elem_of_nil in Hin.
    - rewrite for_each_cons. cbn [outer].
      destruct (Hinner sour0 brands0 s) as (s1 & -> & Hall & Hmono).
      destruct (IH s1) as (s2 & -> & Hall2 & Hmono2).
      exists s2. split_and!; [done| |by auto].
      intros sour brands b [[= -> ->]|Hin]%elem_of_cons Hb; eauto. }
  destruct (Houter brand_sources {| res_brands := []; clusters := [] |})
    as (s & Hs & Hall & _).
  exists s. split; [exact Hs|exact Hall].
Qed.

Lemma group_items_by_brands_keys (items : dict string item) it :
  it ∈ values items -> brand it ∈ keys (group_items_by_brands items).
Proof.
  unfold group_items_by_brands.
  set (step := fun brands it0 => _).
  intros Hin.
  apply (foldl_prefix_invariant step
           (fun pre brands => forall it0, it0 ∈ pre -> brand it0 ∈ keys brands));
    [|clear; intros pre x post brands _ Hpre it0|done].
  - intros it0 Hit0. by apply elem_of_nil in Hit0.
  - unfold step. rewrite keys_set.
    intros [Hit0|Hit0%list_elem_of_singleton]%elem_of_app.
    + case_decide; [by apply Hpre|]. apply elem_of_app. left. by apply Hpre.
    + subst it0. case_decide; [done|]. apply elem_of_app. right.
      by apply list_elem_of_singleton.
Qed.

Lemma create_brand_sources_entries
    (sources : dict string (dict string item)) sour items :
  NoDup (keys sources) -> (sour, items) ∈ sources ->
  (sour, group_items_by_brands items) ∈ create_brand_sources sources.
Proof.
  intros Hnd Hin. unfold create_brand_sources.
  set (step := fun bs '(new_sour, new_items) => _).
  assert (foldl step [] sources
          = (fun sm => (sm.1, group_items_by_brands sm.2)) <$> sources) as ->.
  { apply (foldl_prefix_invariant step
             (fun pre bs =>
                bs = (fun sm => (sm.1, group_items_by_brands sm.2)) <$> pre));
      [done|].
    intros pre [s0 i0] post bs Esrc ->. cbn [step].
    rewrite set_fresh, fmap_app; [done|].
    unfold keys in *. rewrite <- list_fmap_compose.
    rewrite Esrc, fmap_app, fmap_cons in Hnd.
    apply NoDup_app in Hnd as (_ & Hdisj & _).
    intros Hk. apply (Hdisj s0); [|apply list_elem_of_here].
    apply list_elem_of_fmap in Hk as ([s1 i1] & -> & Hk).
    by apply (list_elem_of_fmap_2 fst) in Hk. }
  by apply (list_elem_of_fmap_2
              (fun sm => (sm.1, group_items_by_brands sm.2)) sources (sour, items)).
Qed.

(** The pools have every brand of every item of the sources. *)
Lemma group_items_by_similar_brands_returns
    (sources : dict string (dict string item)) thr :
  NoDup (keys sources) ->
  exists pools,
    group_items_by_similar_brands token_set_ratio sources thr = Ok pools /\
    forall sour items it,
      (sour, items) ∈ sources -> it ∈ values items ->
      is_Some (get (brand it) pools).
Proof.
  intros Hnd. unfold group_items_by_similar_brands.
  destruct (match_brands_returns (create_brand_sources sources) thr)
    as (s & -> & Hall).
  eexists. split; [reflexivity|].
  intros sour items it Hin Hit. apply elem_of_keys.
  unfold keys. rewrite <- list_fmap_compose.
  assert (brand it ∈ keys (res_brands s)) as Hb.
  { apply (Hall sour (group_items_by_brands items)).
    - by apply create_brand_sources_entries.
    - by apply group_items_by_brands_keys. }
  unfold keys in Hb. apply list_elem_of_fmap in Hb as ([b c] & -> & Hb).
  apply list_elem_of_fmap. by exists (b, c).
Qed.

(** [append_alias_item] does not raise on an item whose brand has a pool. *)
Lemma append_alias_item_returns res_brands_items new_sour thr s new_item :
  is_Some (get (brand new_item) res_brands_items) ->
  exists s1,
    append_alias_item token_set_ratio res_brands_items new_sour thr s new_item
    = Ok s1.
Proof.
  intros [brand_items Hpool]. unfold append_alias_item. rewrite Hpool.
  destruct (bind_of (alias_store s) new_item); [by eexists|].
  set (cands := candidates _ brand_items _ _).
  destruct (extractOne _ _ _) as [[a sc]|] eqn:Ex; [|by eexists].
  destruct (thr <=? Z.of_N sc)%Z; [|by eexists].
  apply extractOne_Some in Ex as (Ha & _).
  destruct (pick_item_found a cands None Ha) as (it & -> & _).
  destruct (setdefault_bind it (alias_store s)). by eexists.
Qed.

Lemma combine_items_by_alias_returns
    (sources : dict string (dict string item)) pools thr st :
  (forall sour items it, (sour, items) ∈ sources -> it ∈ values items ->
                         is_Some (get (brand it) pools)) ->
  exists a, combine_items_by_alias token_set_ratio sources pools thr st = Ok a.
Proof.
  intros Hpools. unfold combine_items_by_alias.
  destruct (for_each_total
              (fun s '(new_sour, new_items) =>
                 append_by_alias token_set_ratio pools s new_sour new_items thr)
              (fun _ => True) sources {| res_arr := []; alias_store := st |} I)
    as (a & Ha & _); [|by exists a].
  intros s [sour items] Hin _. unfold append_by_alias.
  destruct (for_each_total
              (append_alias_item token_set_ratio pools sour thr)
              (fun _ => True) (values items) s I) as (s1 & Hs1 & _);
    [|by exists s1].
  intros s0 it Hit _.
  destruct (append_alias_item_returns pools sour thr s0 it) as [s2 Hs2];
    [by eapply Hpools|].
  by exists s2.
Qed.

(** On the sources that [add_source] builds, the run returns its list: no
    lookup fails and the assertion holds, whatever the scorer and the
    thresholds. *)
Lemma combine_returns {F : Type} `{PyFloat F}
    (files : list (string * list (source_rec F))) (thr_b thr_a : Z) :
  exists o, combine token_set_ratio thr_b thr_a (load_sources files) = Ok o.
Proof.
  unfold combine.
  destruct (load_sources_wf files) as [Hnd _].
  destruct (group_items_by_similar_brands_returns (load_sources files) thr_b Hnd)
    as (pools & -> & Hpools).
  cbn [mbind result_bind rbind].
  destruct (combine_items_by_alias_returns (load_sources files) pools thr_a
              (ean_store (combine_by_ean (load_sources files))) Hpools)
    as [a ->].
  by eexists.
Qed.

End RunReturns.

(** ** References into the arena stay valid *)

Section RefsValid.
Variable token_set_ratio : string -> string -> N.
Import PyDict PyDictFacts.

Lemma refs_valid_set_bind st it g :
  (g < length (groups st))%nat -> refs_valid st -> refs_valid (set_bind it g st).
Proof.
  intros Hg Hv k g'. unfold set_bind. cbn [binds groups].
  rewrite lookup_insert. case_decide; [by intros [= <-]|apply Hv].
Qed.

Lemma refs_valid_group_append st g it :
  refs_valid st -> refs_valid (group_append g it st).
Proof.
  intros Hv k g'. unfold group_append. cbn [binds groups].
  rewrite length_alter. apply Hv.
Qed.

Lemma refs_valid_new_group st members :
  refs_valid st ->
  refs_valid (new_group members st).2 /\
  ((new_group members st).1 < length (groups (new_group members st).2))%nat.
Proof.
  intros Hv. unfold new_group. cbn [fst snd groups binds]. split.
  - intros k g Hk. cbn [binds groups]. rewrite length_app.
    specialize (Hv k g Hk). lia.
  - rewrite length_app. simpl. lia.
Qed.

Lemma refs_valid_setdefault st it bind st1 :
  refs_valid st -> setdefault_bind it st = (bind, st1) ->
  refs_valid st1 /\ (bind < length (groups st1))%nat.
Proof.
  intros Hv. unfold setdefault_bind.
  destruct (bind_of st it) as [b|] eqn:Eb.
  - intros [= <- <-]. split; [done|]. by apply (Hv (item_key it)).
  - destruct (refs_valid_new_group st [it] Hv) as [Hv1 Hlt].
    unfold new_group in *. cbn [fst snd] in *. intros [= <- <-].
    split; [by apply refs_valid_set_bind|done].
Qed.

Lemma append_ean_item_refs_valid s ean new_item :
  (forall e g, get e (res_eans s) = Some g ->
               (g < length (groups (ean_store s)))%nat) ->
  refs_valid (ean_store s) ->
  (forall e g, get e (res_eans (append_ean_item s ean new_item)) = Some g ->
     (g < length (groups (ean_store (append_ean_item s ean new_item))))%nat) /\
  refs_valid (ean_store (append_ean_item s ean new_item)).
Proof.
  intros Hres Hv. unfold append_ean_item.
  destruct (get ean (res_eans s)) as [g|] eqn:Eg.
  - cbn [res_eans ean_store]. split.
    + intros e g' He. cbn [groups set_bind group_append].
      rewrite length_alter. by apply (Hres e).
    + apply refs_valid_set_bind.
      * cbn [groups group_append]. rewrite length_alter. by apply (Hres ean).
      * by apply refs_valid_group_append.
  - destruct (first_with_ean ean (ean_sources s)) as [item0|]; [|done].
    destruct (refs_valid_new_group (ean_store s) [item0; new_item] Hv)
      as [Hv1 Hlt].
    unfold new_group in *. cbn [fst snd res_eans ean_store] in *. split.
    + intros e g'. cbn [groups set_bind]. rewrite length_app. simpl.
      destruct (decide (ean = e)) as [->|Hne].
      * rewrite get_set_eq. intros [= <-]. lia.
      * rewrite get_set_ne by done. intros He. specialize (Hres e g' He). lia.
    + apply refs_valid_set_bind; [exact Hlt|].
      apply refs_valid_set_bind; [exact Hlt|exact Hv1].
Qed.

(** The Exact Matcher leaves valid references. *)
Lemma combine_by_ean_refs_valid (sources : dict string (dict string item)) :
  refs_valid (ean_store (combine_by_ean sources)).
Proof.
  unfold combine_by_ean.
  apply (foldl_invariant _
           (fun s => (forall e g, get e (res_eans s) = Some g ->
                        (g < length (groups (ean_store s)))%nat) /\
                     refs_valid (ean_store s))).
  - split; [done|]. intros k g Hk. cbn [ean_store empty_store binds] in Hk.
    by rewrite lookup_empty in Hk.
  - intros s [sour items] _ Hs. unfold append_by_ean.
    cbn [res_eans ean_store].
    apply (foldl_invariant _
           (fun s => (forall e g, get e (res_eans s) = Some g ->
                        (g < length (groups (ean_store s)))%nat) /\
                     refs_valid (ean_store s))); [done|].
    intros s0 [ean it] _ [Hres Hv]. by apply append_ean_item_refs_valid.
Qed.

(** A turn of the Alias Matcher keeps them valid. *)
Lemma append_alias_item_refs_valid res_brands_items new_sour thr s new_item s' :
  refs_valid (alias_store s) ->
  append_alias_item token_set_ratio res_brands_items new_sour thr s new_item
    = Ok s' ->
  refs_valid (alias_store s').
Proof.
  intros Hv. unfold append_alias_item.
  destruct (bind_of (alias_store s) new_item); [by intros [= <-]|].
  destruct (get (brand new_item) res_brands_items) as [brand_items|]; [|done].
  set (cands := candidates _ brand_items _ _).
  destruct (extractOne _ _ _) as [[a sc]|]; [|by intros [= <-]].
  destruct (thr <=? Z.of_N sc)%Z; [|by intros [= <-]].
  destruct (pick_item a cands None) as [it|]; [|done].
  destruct (setdefault_bind it (alias_store s)) as [bind st1] eqn:Es.
  intros [= <-]. cbn [alias_store].
  apply refs_valid_group_append. by eapply refs_valid_setdefault.
Qed.

End RefsValid.

(** ** The groups of the run *)

Section RunGroups.
Context {F : Type} `{PyFloat F}.
Variable token_set_ratio : string -> string -> N.

(** C2: the run returns its list, and in every group of this list, whether
    the group was made by the Exact Matcher or by the Alias Matcher, the
    members have pairwise different source names. *)
Theorem no_two_members_of_one_source
    (files : list (string * list (source_rec F))) (thr_b thr_a : Z) :
  exists o,
    combine token_set_ratio thr_b thr_a (load_sources files) = Ok o /\
    forall same_items,
      same_items ∈ result_list o -> NoDup (x_source_name <$> same_items).
Proof.
  destruct (combine_returns token_set_ratio files thr_b thr_a) as [o Hrun].
  exists o. split; [done|]. intros same_items Hin.
  pose proof (combine_distinct_sources _ _ _ _ _ (load_sources_wf files) Hrun)
    as Hd.
  unfold result_list in Hin.
  apply list_elem_of_fmap in Hin as (g & -> & _).
  rewrite <- list_fmap_compose.
  change (x_source_name ∘ export_item) with source_name.
  unfold members_of. destruct (groups (final_store o) !! g) as [m|] eqn:Eg.
  - by apply (Hd g).
  - apply NoDup_nil_2.
Qed.

End RunGroups.

Lemma no_two_members_of_one_source_witness :
  NoDup (x_source_name <$> [export_item item_b7; export_item item_a1]).
Proof.
  destruct (no_two_members_of_one_source word_set_ratio three_shops 85 85)
    as (o & Hrun & Hall).
  apply Hall. vm_compute in Hrun. injection Hrun as <-.
  vm_compute. apply list_elem_of_here.
Defined.

(** * Further properties of the program *)

(** ** Size Parser: tokens *)

Module SizeTokens.
Import PyStr PyStrFacts.

Lemma replace_one_char a rep s :
  replace (String a EmptyString) rep s = subst_char a rep s.
Proof.
  unfold replace. cbn [is_empty].
  induction s as [|c s IH]; [done|].
  cbn [replace_from subst_char String.prefix String.length].
  destruct (ascii_dec a c) as [->|Hne].
  - rewrite Ascii.eqb_refl. replace (String.prefix "" s) with true
      by (by destruct s).
    simpl. by rewrite IH.
  - assert (Ascii.eqb c a = false) as -> by (apply Ascii.eqb_neq; congruence).
    by rewrite IH.
Qed.

Lemma no_space_contains t :
  contains " " t = false <-> all_chars (fun c => negb (Ascii.eqb c " ")) t = true.
Proof.
  induction t as [|c t IH]; [done|].
  cbn [contains all_chars String.prefix].
  destruct (ascii_dec " " c) as [<-|Hne].
  - replace (String.prefix "" t) with true by (by destruct t). simpl. done.
  - assert (Ascii.eqb c " " = false) as -> by (apply Ascii.eqb_neq; congruence).
    simpl. apply IH.
Qed.

Lemma split_space_no_space t :
  contains " " t = false -> split_space t = (t, None).
Proof.
  rewrite no_space_contains. induction t as [|c t IH]; [done|].
  cbn [all_chars split_space]. intros [Hc Ht]%andb_true_iff.
  apply negb_true_iff in Hc. rewrite Hc, (IH Ht). done.
Qed.

Lemma split_space_at_space t rest :
  contains " " t = false ->
  split_space (t +:+ String " " rest) = (t, Some rest).
Proof.
  rewrite no_space_contains. induction t as [|c t IH]; [done|].
  cbn [all_chars]. intros [Hc Ht]%andb_true_iff.
  apply negb_true_iff in Hc.
  change (String c t +:+ String " " rest) with (String c (t +:+ String " " rest)).
  cbn [split_space]. rewrite Hc, (IH Ht). done.
Qed.

Lemma contains_space_at_space t rest :
  contains " " (t +:+ String " " rest) = true.
Proof.
  induction t as [|c t IH].
  - simpl. by destruct rest.
  - change (String c t +:+ String " " rest)
      with (String c (t +:+ String " " rest)).
    cbn [contains]. rewrite IH. apply orb_true_r.
Qed.

Lemma fst_split_space_cons c s :
  fst (split_space (String c s))
  = if Ascii.eqb c " " then EmptyString else String c (fst (split_space s)).
Proof.
  cbn [split_space]. destruct (Ascii.eqb c " "); [done|].
  by destruct (split_space s).
Qed.

(** Replacing commas by points does not move the first space. *)
Lemma split_space_subst s :
  fst (split_space (subst_char "," "." s)) = subst_char "," "." (fst (split_space s)).
Proof.
  induction s as [|c s IH]; [done|].
  rewrite (fst_split_space_cons c s). cbn [subst_char].
  destruct (Ascii.eqb c ",") eqn:Ec.
  - apply Ascii.eqb_eq in Ec as ->.
    change ("." +:+ subst_char "," "." s) with (String "." (subst_char "," "." s)).
    rewrite fst_split_space_cons.
    change (Ascii.eqb "." " ") with false. change (Ascii.eqb "," " ") with false.
    cbn [subst_char]. change (Ascii.eqb "," ",") with true.
    change ("." +:+ subst_char "," "." (fst (split_space s)))
      with (String "." (subst_char "," "." (fst (split_space s)))).
    by rewrite IH.
  - rewrite fst_split_space_cons. destruct (Ascii.eqb c " ") eqn:Es; [done|].
    cbn [subst_char]. by rewrite Ec, IH.
Qed.

Lemma subst_comma_idem s :
  subst_char "," "." (subst_char "," "." s) = subst_char "," "." s.
Proof.
  induction s as [|c s IH]; [done|].
  cbn [subst_char]. destruct (Ascii.eqb c ",") eqn:Ec.
  - change ("." +:+ subst_char "," "." s) with (String "." (subst_char "," "." s)).
    cbn [subst_char]. change (Ascii.eqb "." ",") with false. by rewrite IH.
  - cbn [subst_char]. by rewrite Ec, IH.
Qed.

Lemma is_empty_subst_comma s :
  is_empty (subst_char "," "." s) = is_empty s.
Proof. destruct s as [|c s]; [done|]. simpl. by destruct (Ascii.eqb c ","). Qed.

Lemma amount_token_subst s :
  amount_token (replace "," "." s) = amount_token s.
Proof.
  unfold amount_token. rewrite !replace_one_char.
  by rewrite split_space_subst, subst_comma_idem.
Qed.

Lemma is_empty_without_points tok :
  is_empty (subst_char "." "" tok) = all_chars (fun c => Ascii.eqb c ".") tok.
Proof.
  induction tok as [|c tok IH]; [done|].
  cbn [subst_char all_chars]. destruct (Ascii.eqb c "."); [exact IH|done].
Qed.

Lemma all_digits_without_points tok :
  all_chars is_digit_char (subst_char "." "" tok) = all_chars is_amount_char tok.
Proof.
  induction tok as [|c tok IH]; [done|].
  cbn [subst_char all_chars]. unfold is_amount_char at 1.
  destruct (Ascii.eqb c ".") eqn:Ec.
  - rewrite orb_true_r. exact IH.
  - cbn [all_chars]. by rewrite orb_false_r, IH.
Qed.

(** Removing the points of a token leaves a text of digit characters
    exactly when the token has digit characters and points only, and not
    points only. *)
Lemma isdigit_without_points tok :
  isdigit (replace "." "" tok)
  = all_chars is_amount_char tok && negb (all_chars (fun c => Ascii.eqb c ".") tok).
Proof.
  rewrite replace_one_char. unfold isdigit.
  rewrite is_empty_without_points, all_digits_without_points.
  apply andb_comm.
Qed.

End SizeTokens.

(** ** Size Parser: what a size text gives *)

Section SizeParserMore.
Context {F : Type} `{PyFloat F}.
Import PyStr PyStrFacts SizeTokens.

(** X1: the comma is a decimal separator: a size text and the same text
    with its commas replaced by points give the same amount, or raise
    alike. *)
Theorem parse_size_amount_comma (s : string) :
  parse_size_amount (F:=F) (Some (replace "," "." s))
  = parse_size_amount (Some s).
Proof.
  unfold parse_size_amount. fold (amount_token (replace "," "." s)).
  fold (amount_token s). rewrite amount_token_subst.
  by rewrite replace_one_char, is_empty_subst_comma.
Qed.

(** X2: the amount is read from the text before the first space and the
    unit is the trimmed text after it, further spaces included; a text
    without space has no unit. *)
Theorem parse_size_token_and_rest (t rest : string) :
  contains " " t = false ->
  parse_size_amount (F:=F) (Some (t +:+ String " " rest))
    = parse_size_amount (Some t) /\
  parse_size_unit (Some (t +:+ String " " rest)) = Some (strip rest) /\
  parse_size_unit (Some t) = None.
Proof.
  intros Ht. split_and!.
  - unfold parse_size_amount.
    rewrite (split_space_at_space t rest Ht), (split_space_no_space t Ht).
    cbn [fst]. destruct t as [|c t]; [done|]. done.
  - unfold parse_size_unit.
    rewrite contains_space_at_space, (split_space_at_space t rest Ht).
    by destruct t.
  - unfold parse_size_unit. rewrite Ht. by rewrite andb_false_r.
Qed.

Lemma amount_token_empty s : is_empty s = true -> amount_token s = EmptyString.
Proof. by destruct s. Qed.

(** X3: [parse_size_amount] raises nothing but [ValueError], and it raises
    exactly on a token of digit characters and points, not of points only,
    that has two points or more or a digit character that is not a decimal
    digit. *)
Theorem parse_size_amount_raises_iff (s : string) :
  (parse_size_amount (F:=F) (Some s) = Raise ValueError <->
   all_chars is_amount_char (amount_token s) = true /\
   all_chars (fun c => Ascii.eqb c ".") (amount_token s) = false /\
   ((2 <= count_char "." (amount_token s))%nat \/
    all_chars (fun c => is_decimal_char c || Ascii.eqb c ".") (amount_token s)
    = false)) /\
  (forall e, parse_size_amount (F:=F) (Some s) = Raise e -> e = ValueError).
Proof.
  unfold parse_size_amount. fold (amount_token s).
  rewrite isdigit_without_points. unfold float, float_literal.
  destruct (is_empty s) eqn:Es.
  { rewrite (amount_token_empty s Es). split; [|done].
    split; [done|]. by intros (_ & ? & _). }
  destruct (all_chars is_amount_char (amount_token s)); cbn [andb];
    [|split; [split; [done|by intros (? & _)]|done]].
  destruct (all_chars (fun c => Ascii.eqb c ".") (amount_token s)); cbn [negb];
    [split; [split; [done|by intros (_ & ? & _)]|done]|].
  destruct (all_chars (fun c => is_decimal_char c || Ascii.eqb c ".")
              (amount_token s)); cbn [andb negb].
  - rewrite andb_true_r.
    destruct (count_char "." (amount_token s) <=? 1)%nat eqn:Ec;
      cbn [mbind result_bind rbind].
    + apply Nat.leb_le in Ec. split; [|done]. split; [done|].
      intros (_ & _ & [?|?]); [lia|done].
    + apply Nat.leb_gt in Ec. split; [|by intros e [= <-]].
      split; [|done]. intros _. split_and!; [done|done|left; lia].
  - cbn [mbind result_bind rbind]. split; [|by intros e [= <-]].
    split; [|done]. intros _. split_and!; [done|done|by right].
Qed.

(** X4: the record [parse_size] returns is clean: a unit it has is not
    empty and is trimmed, and an amount it has is not zero. *)
Theorem parse_size_result_clean (s : option string) (r : size_rec) :
  parse_size (F:=F) s = Ok r ->
  (forall u, Weight_UnitOfMeasurement r = Some u ->
             is_empty u = false /\ strip u = u) /\
  (forall a, Weight r = Some a -> float_truth a = true).
Proof.
  unfold parse_size.
  destruct (parse_size_amount s) as [amount|]; [|done].
  cbn [mbind result_bind rbind]. intros [= <-]. cbn [Weight Weight_UnitOfMeasurement].
  split.
  - intros u. destruct (parse_size_unit s) as [u0|] eqn:Eu; [|done].
    destruct (is_empty u0) eqn:Ee; [done|]. intros [= <-]. split; [done|].
    unfold parse_size_unit in Eu. destruct s as [s|]; [|done].
    destruct (negb (is_empty s) && contains " " s); [|done].
    destruct (snd (split_space s)) as [rest|]; [|done].
    injection Eu as <-. apply strip_idem.
  - intros a. destruct amount as [a0|]; [|done].
    destruct (float_truth a0) eqn:Et; [|done]. by intros [= <-].
Qed.

End SizeParserMore.

Lemma parse_size_token_and_rest_witness :
  parse_size_amount (F:=DecimalFloat.dec) (Some "100 fl  oz ")
    = parse_size_amount (Some "100") /\
  parse_size_unit (Some "100 fl  oz ") = Some (PyStr.strip "fl  oz ") /\
  parse_size_unit (Some "100") = None.
Proof.
  exact (parse_size_token_and_rest (F:=DecimalFloat.dec) "100" "fl  oz " eq_refl).
Defined.

Lemma parse_size_result_clean_witness :
  (forall u, Some "ml" = Some u ->
             PyStr.is_empty u = false /\ PyStr.strip u = u) /\
  (forall a, Some {| DecimalFloat.mant := 1005; DecimalFloat.scale := 1 |} = Some a ->
             float_truth a = true).
Proof.
  exact (parse_size_result_clean (F:=DecimalFloat.dec) (Some "100,5 ml")
           {| Weight := Some {| DecimalFloat.mant := 1005; DecimalFloat.scale := 1 |};
              Weight_UnitOfMeasurement := Some "ml" |} eq_refl).
Defined.

(** ** Item Normalizer and EAN Expander: the items of a source *)

Section ItemsMore.
Context {F : Type} `{PyFloat F}.
Import PyStr PyStrFacts PyDict PyDictFacts.

Lemma create_item_wm_trimmed sour (rec : source_rec F) :
  strip (wm (create_item sour rec)) = wm (create_item sour rec).
Proof.
  unfold create_item.
  destruct (rec_Weight rec) as [w|]; [destruct (float_truth w)|];
    cbn [wm]; [apply strip_idem|done|done].
Qed.

(** X5: the texts [create_item] derives are in normal form: the brand and
    the alias are lower-case and trimmed, the weight key is trimmed; the
    name is kept as it was. *)
Theorem create_item_texts_normal sour (rec : source_rec F) :
  lower (brand (create_item sour rec)) = brand (create_item sour rec) /\
  strip (brand (create_item sour rec)) = brand (create_item sour rec) /\
  lower (alias (create_item sour rec)) = alias (create_item sour rec) /\
  strip (alias (create_item sour rec)) = alias (create_item sour rec) /\
  strip (wm (create_item sour rec)) = wm (create_item sour rec) /\
  item_name (create_item sour rec) = rec_name rec.
Proof.
  split_and!.
  - apply lower_fixed, lower_fixed_brand.
  - apply strip_brand_idem.
  - apply lower_fixed, lower_fixed_alias.
  - rewrite create_item_alias. apply strip_idem.
  - apply create_item_wm_trimmed.
  - unfold create_item.
    destruct (rec_Weight rec) as [w|]; [destruct (float_truth w)|]; reflexivity.
Qed.

Lemma get_expand_codes (d : dict string item) it eans ean :
  get ean (foldl (fun d e => set e (with_ean it e) d) d eans)
  = if decide (ean ∈ eans) then Some (with_ean it ean) else get ean d.
Proof.
  revert d. induction eans as [|e eans IH]; intros d; cbn [foldl].
  - rewrite decide_False; [done|apply not_elem_of_nil].
  - rewrite IH. destruct (decide (ean ∈ eans)) as [Hin|Hnin].
    + rewrite decide_True; [done|by apply list_elem_of_further].
    + destruct (decide (ean = e)) as [->|Hne].
      * rewrite get_set_eq. rewrite decide_True; [done|apply list_elem_of_here].
      * rewrite get_set_ne by done. rewrite decide_False; [done|].
        by apply not_elem_of_cons.
Qed.

Lemma get_expand_items (d : dict string item) (items : list item) ean :
  get ean (foldl (fun d it =>
                    foldl (fun d e => set e (with_ean it e) d) d (EANs it))
                 d items)
  = match last (filter (fun it => ean ∈ EANs it) items) with
    | Some it => Some (with_ean it ean)
    | None => get ean d
    end.
Proof.
  revert d. induction items as [|it items IH]; intros d; [done|].
  cbn [foldl]. rewrite IH, get_expand_codes.
  rewrite filter_cons. destruct (decide (ean ∈ EANs it)) as [Hin|Hnin]; [|done].
  rewrite last_cons.
  by destruct (last (filter (fun it0 => ean ∈ EANs it0) items)).
Qed.

Lemma last_filter_items sour (recs : list (source_rec F)) ean :
  last (filter (fun it => ean ∈ EANs it) (map (create_item sour) recs))
  = create_item sour <$> last (filter (fun rec => ean ∈ rec_EANs rec) recs).
Proof.
  induction recs as [|rec recs IH]; [done|].
  rewrite map_cons, !filter_cons, create_item_EANs.
  destruct (decide (ean ∈ rec_EANs rec)) as [Hin|Hnin]; [|exact IH].
  rewrite !last_cons, IH.
  by destruct (last (filter (fun rec0 => ean ∈ rec_EANs rec0) recs)).
Qed.

(** X6: the last record wins: under a code, the code-indexed view of a
    source has the copy of the last record that lists the code, and it has
    no entry for a code that no record lists. *)
Theorem prepare_parsed_list_last_wins sour (recs : list (source_rec F)) ean :
  get ean (prepare_parsed_list sour recs)
  = (fun rec => with_ean (create_item sour rec) ean)
      <$> last (filter (fun rec => ean ∈ rec_EANs rec) recs).
Proof.
  unfold prepare_parsed_list. rewrite get_expand_items, last_filter_items.
  cbn [get]. by destruct (last (filter (fun rec => ean ∈ rec_EANs rec) recs)).
Qed.

Lemma expand_codes_fresh (d : dict string item) it eans :
  NoDup (keys d ++ eans) ->
  foldl (fun d e => set e (with_ean it e) d) d eans
  = d ++ map (fun e => (e, with_ean it e)) eans.
Proof.
  revert d. induction eans as [|e eans IH]; intros d Hnd; cbn [foldl map].
  - by rewrite app_nil_r.
  - assert (e ∉ keys d) as Hfresh.
    { apply NoDup_app in Hnd as (_ & Hdisj & _). intros Hin.
      apply (Hdisj e Hin). apply list_elem_of_here. }
    rewrite set_fresh by done. rewrite IH.
    + by rewrite <- app_assoc.
    + unfold keys in *. rewrite fmap_app. cbn [fmap list_fmap fst].
      rewrite <- app_assoc. exact Hnd.
Qed.

Lemma keys_expanded sour (recs : list (source_rec F)) :
  keys (expanded sour recs) = concat (rec_EANs <$> recs).
Proof.
  unfold expanded, keys. induction recs as [|rec recs IH]; [done|].
  cbn [map concat]. rewrite fmap_app, fmap_cons. cbn [concat].
  rewrite IH. f_equal. rewrite <- list_fmap_compose.
  clear. induction (rec_EANs rec) as [|e l IHl]; [done|].
  cbn. by rewrite IHl at 1.
Qed.

(** X7: when no code is listed twice in a source, the code-indexed view
    has one copy per record and code, in the order of the records and of
    their codes: a record with k codes has k copies. *)
Theorem prepare_parsed_list_copies sour (recs : list (source_rec F)) :
  NoDup (concat (rec_EANs <$> recs)) ->
  prepare_parsed_list sour recs = expanded sour recs.
Proof.
  unfold prepare_parsed_list.
  assert (forall (pre recs0 : list (source_rec F)),
            NoDup (concat (rec_EANs <$> (pre ++ recs0))) ->
            foldl (fun d it =>
                     foldl (fun d e => set e (with_ean it e) d) d (EANs it))
                  (expanded sour pre) (map (create_item sour) recs0)
            = expanded sour (pre ++ recs0)) as Hgen.
  { intros pre recs0. revert pre.
    induction recs0 as [|rec recs0 IH]; intros pre Hnd.
    - by rewrite app_nil_r.
    - cbn [map foldl]. rewrite create_item_EANs.
      rewrite expand_codes_fresh.
      + replace (expanded sour pre ++
                 map (fun e => (e, with_ean (create_item sour rec) e))
                     (rec_EANs rec))
          with (expanded sour (pre ++ [rec])).
        * rewrite IH; rewrite <- app_assoc; [done|exact Hnd].
        * unfold expanded. rewrite map_app, concat_app. cbn [map concat].
          by rewrite app_nil_r.
      + rewrite keys_expanded.
        rewrite fmap_app, concat_app, fmap_cons in Hnd. cbn [concat] in Hnd.
        rewrite app_assoc in Hnd. by apply NoDup_app in Hnd as (Hnd & _). }
  intros Hnd. exact (Hgen [] recs Hnd).
Qed.

End ItemsMore.

Lemma prepare_parsed_list_copies_witness :
  prepare_parsed_list "shop_a.xml"
    [Samples.sample_rec "a1" "Acme Shampoo" "Acme"
       ["5901234123457"; "4006381333931"];
     Samples.sample_rec "a2" "Acme Soap" "Acme" ["7312040017003"]]
  = expanded "shop_a.xml"
    [Samples.sample_rec "a1" "Acme Shampoo" "Acme"
       ["5901234123457"; "4006381333931"];
     Samples.sample_rec "a2" "Acme Soap" "Acme" ["7312040017003"]].
Proof.
  apply prepare_parsed_list_copies.
  apply (bool_decide_unpack _). vm_compute. exact I.
Defined.

(** ** Sources *)

Section SourcesMore.
Context {F : Type} `{PyFloat F}.
Import PyStr PyDict PyDictFacts.

Lemma contains_char_at a t rest :
  contains (String a EmptyString) (t +:+ String a rest) = true.
Proof.
  induction t as [|c t IH].
  - change ("" +:+ String a rest) with (String a rest).
    change (contains (String a "") (String a rest))
      with (String.prefix (String a "") (String a rest)
            || contains (String a "") rest).
    simpl. destruct (ascii_dec a a); [|done]. by destruct rest.
  - change (String c t +:+ String a rest) with (String c (t +:+ String a rest)).
    cbn [contains]. rewrite IH. apply orb_true_r.
Qed.

Lemma basename_no_slash name :
  contains "/" name = false -> basename name = name.
Proof.
  destruct name as [|c name]; [done|]. cbn [basename contains].
  intros [Hp Hc]%orb_false_iff. rewrite Hc.
  destruct (Ascii.eqb c "/") eqn:Ec; [|done].
  apply Ascii.eqb_eq in Ec as ->. simpl in Hp. by destruct name.
Qed.

Lemma basename_dir dir name :
  contains "/" name = false -> basename (dir +:+ String "/" name) = name.
Proof.
  intros Hn. induction dir as [|c dir IH].
  - change ("" +:+ String "/" name) with (String "/" name).
    cbn [basename]. by rewrite Hn.
  - change (String c dir +:+ String "/" name)
      with (String c (dir +:+ String "/" name)).
    cbn [basename]. by rewrite contains_char_at.
Qed.

(** X8: [add_source] files the code-indexed view under the base name of
    the file and leaves the other sources as they are; when a source of
    this name is there already, its items are replaced and its place among
    the sources is kept. *)
Theorem add_source_registers (sources : dict string (dict string item))
    (fn : string) (raw_recs : list (source_rec F)) :
  get (basename fn) (add_source sources fn raw_recs)
    = Some (prepare_parsed_list (basename fn) raw_recs) /\
  (forall other, other ≠ basename fn ->
     get other (add_source sources fn raw_recs) = get other sources) /\
  keys (add_source sources fn raw_recs)
    = (if decide (basename fn ∈ keys sources) then keys sources
       else keys sources ++ [basename fn]).
Proof.
  unfold add_source. split_and!.
  - apply get_set_eq.
  - intros other Hne. by apply get_set_ne.
  - apply keys_set.
Qed.

(** X9: two files of one name in two directories are one source: the
    records of the second replace those of the first. *)
Theorem same_file_name_is_one_source (dir1 dir2 name : string)
    (recs1 recs2 : list (source_rec F)) :
  contains "/" name = false ->
  load_sources [(dir1 +:+ String "/" name, recs1);
                (dir2 +:+ String "/" name, recs2)]
  = [(name, prepare_parsed_list name recs2)].
Proof.
  intros Hn. unfold load_sources. cbn [foldl]. unfold add_source.
  rewrite !basename_dir by done. cbn [set]. by rewrite decide_True.
Qed.

End SourcesMore.

Lemma same_file_name_is_one_source_witness :
  load_sources [("north" +:+ String "/" "stock.xml", [Catalogues.rec_a1]);
                ("south/2024" +:+ String "/" "stock.xml", [Catalogues.rec_b7])]
  = [("stock.xml", prepare_parsed_list "stock.xml" [Catalogues.rec_b7])].
Proof.
  exact (same_file_name_is_one_source "north" "south/2024" "stock.xml"
           [Catalogues.rec_a1] [Catalogues.rec_b7] eq_refl).
Defined.

(** ** The arena under the writes of the matchers *)

Section StoreFacts.
Implicit Types (st : store) (it : item).

Lemma members_of_set_bind st it g g' :
  members_of (set_bind it g st) g' = members_of st g'.
Proof. done. Qed.

Lemma members_of_new_group st members g :
  members_of (new_group members st).2 g
  = if decide (g = length (groups st)) then members else members_of st g.
Proof.
  unfold members_of, new_group. cbn [snd groups].
  destruct (decide (g = length (groups st))) as [->|Hne].
  - by rewrite list_lookup_middle.
  - rewrite lookup_app. destruct (groups st !! g) as [m|] eqn:Em; [done|].
    apply lookup_ge_None in Em.
    destruct (g - length (groups st))%nat as [|k] eqn:Ek; [lia|]. by destruct k.
Qed.

Lemma members_of_valid st g x :
  x ∈ members_of st g -> (g < length (groups st))%nat.
Proof.
  unfold members_of. destruct (groups st !! g) as [m|] eqn:Em.
  - intros _. by eapply lookup_lt_Some.
  - intros Hx. by apply elem_of_nil in Hx.
Qed.

Lemma members_of_append_grows st g x g' :
  members_of st g' `prefix_of` members_of (group_append g x st) g'.
Proof.
  rewrite members_of_group_append. destruct (decide (g' = g)) as [->|]; [|done].
  unfold members_of. destruct (groups st !! g) as [m|]; [|apply prefix_nil].
  by apply prefix_app_r.
Qed.

Lemma store_ok_group_append st g x :
  store_ok st -> store_ok (group_append g x st).
Proof.
  intros [H1 H2]. split.
  - intros g' m. unfold group_append. cbn [groups].
    destruct (decide (g' = g)) as [->|Hne].
    + rewrite list_lookup_alter_eq. destruct (groups st !! g) as [m0|] eqn:E;
        [|done].
      intros [= <-]. rewrite length_app. specialize (H1 g m0 E). lia.
    + rewrite list_lookup_alter_ne by done. apply H1.
  - intros k g' Hk. destruct (H2 k g' Hk) as (it & Hit & Hkey).
    exists it. split; [|done].
    destruct (members_of_append_grows st g x g') as [l ->].
    apply elem_of_app. by left.
Qed.

Lemma store_ok_set_bind st it g :
  store_ok st -> it ∈ members_of st g -> store_ok (set_bind it g st).
Proof.
  intros [H1 H2] Hit. split; [exact H1|].
  intros k g'. unfold set_bind. cbn [binds]. rewrite lookup_insert.
  case_decide as Hk.
  - intros [= <-]. by exists it.
  - apply H2.
Qed.

Lemma store_ok_new_group st members :
  (2 <= length members)%nat -> store_ok st -> store_ok (new_group members st).2.
Proof.
  intros Hlen [H1 H2]. split.
  - intros g m. unfold new_group. cbn [snd groups].
    rewrite lookup_app. destruct (groups st !! g) as [m0|] eqn:E.
    + intros [= <-]. by apply (H1 g).
    + destruct (g - length (groups st))%nat as [|k]; [by intros [= <-]|].
      by destruct k.
  - intros k g Hk. destruct (H2 k g Hk) as (it & Hit & Hkey).
    exists it. split; [|done]. rewrite members_of_new_group.
    apply members_of_valid in Hit as Hlt. rewrite decide_False by lia. done.
Qed.

(** A new list object with one member, bound to it and given a second
    member at once, is a new list object of the two. *)
Lemma new_singleton_append st it x :
  group_append (length (groups st)) x
    (set_bind it (length (groups st)) (new_group [it] st).2)
  = set_bind it (length (groups st)) (new_group [it; x] st).2.
Proof.
  unfold group_append, set_bind, new_group. cbn [snd binds groups].
  f_equal. rewrite <- (Nat.add_0_r (length (groups st))) at 1.
  by rewrite alter_app_r.
Qed.

Lemma grows_refl st : grows st st.
Proof. split_and!; [intros g; reflexivity|done|done]. Qed.

Lemma grows_trans st1 st2 st3 : grows st1 st2 -> grows st2 st3 -> grows st1 st3.
Proof.
  intros (A1 & B1 & C1) (A2 & B2 & C2). split_and!.
  - intros g. transitivity (members_of st2 g); [apply A1|apply A2].
  - intros k g Hk. by apply B2, B1.
  - lia.
Qed.

Lemma grows_group_append st g x : grows st (group_append g x st).
Proof.
  split_and!.
  - intros g'. apply members_of_append_grows.
  - done.
  - unfold group_append. cbn [groups]. by rewrite length_alter.
Qed.

Lemma grows_set_bind st it g :
  bind_of st it = None -> grows st (set_bind it g st).
Proof.
  intros Hn. split_and!; [done| |done].
  intros k g' Hk. unfold set_bind. cbn [binds]. rewrite lookup_insert.
  case_decide as Hkey; [|done]. subst k. unfold bind_of in Hn. congruence.
Qed.

Lemma grows_new_group st members : grows st (new_group members st).2.
Proof.
  split_and!.
  - intros g. rewrite members_of_new_group. case_decide as Hg; [|done].
    subst g. unfold members_of. rewrite lookup_ge_None_2 by done.
    apply prefix_nil.
  - done.
  - unfold new_group. cbn [snd groups]. rewrite length_app. lia.
Qed.

Lemma table_valid_grows refs st st' :
  grows st st' -> table_valid refs st -> table_valid refs st'.
Proof. intros (_ & _ & Hlen) Hv g Hg. specialize (Hv g Hg). lia. Qed.

End StoreFacts.

(** ** Exact Matcher: which codes get a group, and which items a bind *)

Section ExactMatcherMore.
Import PyDict PyDictFacts.

Lemma values_set (d : dict string nat) k v v' :
  v' ∈ values (set k v d) -> v' = v \/ v' ∈ values d.
Proof.
  unfold values. intros ([k0 v0] & -> & Hin)%list_elem_of_fmap.
  apply elem_of_set in Hin as [[_ ->]|Hin]; [by left|].
  right. by apply (list_elem_of_fmap_2 snd) in Hin.
Qed.

Lemma get_Some_values (d : dict string nat) k v :
  get k d = Some v -> v ∈ values d.
Proof.
  intros Hg%get_Some_elem. unfold values.
  by apply (list_elem_of_fmap_2 snd) in Hg.
Qed.

Lemma append_ean_item_store_ok s ean new_item :
  store_ok (ean_store s) ->
  table_valid (values (res_eans s)) (ean_store s) ->
  store_ok (ean_store (append_ean_item s ean new_item)) /\
  table_valid (values (res_eans (append_ean_item s ean new_item)))
              (ean_store (append_ean_item s ean new_item)).
Proof.
  intros Hok Hv. unfold append_ean_item.
  destruct (get ean (res_eans s)) as [g|] eqn:Eg.
  - cbn [ean_store res_eans].
    pose proof (Hv g (get_Some_values _ _ _ Eg)) as Hlt. split.
    + apply store_ok_set_bind; [by apply store_ok_group_append|].
      rewrite members_of_group_append, decide_True by done.
      apply lookup_lt_is_Some_2 in Hlt as [m ->].
      apply elem_of_app. right. by apply list_elem_of_singleton.
    + intros g' Hg'. cbn [groups set_bind group_append].
      rewrite length_alter. by apply Hv.
  - destruct (first_with_ean ean (ean_sources s)) as [item0|]; [|done].
    unfold new_group. cbn [ean_store res_eans].
    change {| binds := binds (ean_store s);
              groups := groups (ean_store s) ++ [[item0; new_item]] |}
      with (new_group [item0; new_item] (ean_store s)).2.
    split.
    + apply store_ok_set_bind; [apply store_ok_set_bind|].
      * apply store_ok_new_group; [simpl; lia|done].
      * rewrite members_of_new_group, decide_True by done.
        apply list_elem_of_here.
      * rewrite members_of_set_bind, members_of_new_group, decide_True by done.
        apply list_elem_of_further, list_elem_of_here.
    + intros g' [->|Hg']%values_set; cbn [groups set_bind new_group snd];
        rewrite length_app; simpl; [lia|].
      specialize (Hv g' Hg'). lia.
Qed.

Lemma store_ok_empty : store_ok empty_store.
Proof.
  split.
  - intros g m Hg. cbn [empty_store groups] in Hg. by destruct g.
  - intros k g Hk. cbn [empty_store binds] in Hk. by rewrite lookup_empty in Hk.
Qed.

Lemma combine_by_ean_store_ok (sources : dict string (dict string item)) :
  store_ok (ean_store (combine_by_ean sources)) /\
  table_valid (values (res_eans (combine_by_ean sources)))
              (ean_store (combine_by_ean sources)).
Proof.
  unfold combine_by_ean.
  apply (foldl_invariant _
           (fun s => store_ok (ean_store s) /\
                     table_valid (values (res_eans s)) (ean_store s))).
  - split; [apply store_ok_empty|]. intros g Hg. by apply elem_of_nil in Hg.
  - intros s [sour items] _ Hs. unfold append_by_ean.
    cbn [res_eans ean_store].
    apply (foldl_invariant _
           (fun s => store_ok (ean_store s) /\
                     table_valid (values (res_eans s)) (ean_store s)));
      [done|].
    intros s0 [ean it] _ [Hok Hv]. by apply append_ean_item_store_ok.
Qed.

Lemma two_holders ean (sources : dict string (dict string item)) it :
  wf_sources sources -> it ∈ holders ean sources ->
  (2 <= length (holders ean sources))%nat <->
  exists it', it' ∈ holders ean sources /\ source_name it' ≠ source_name it.
Proof.
  intros Hwf Hit.
  pose proof (holders_distinct_sources ean sources
                (wf_sources_coded _ Hwf) (proj1 Hwf)) as Hnd.
  split.
  - intros Hlen.
    destruct (holders ean sources) as [|x [|y l]] eqn:E; simpl in Hlen; try lia.
    rewrite !fmap_cons in Hnd.
    apply NoDup_cons in Hnd as [Hx _]. apply not_elem_of_cons in Hx as [Hxy _].
    destruct (decide (source_name x = source_name it)) as [Heq|Hne].
    + exists y. split; [apply list_elem_of_further, list_elem_of_here|].
      congruence.
    + exists x. split; [apply list_elem_of_here|done].
  - intros (it' & Hit' & Hne).
    destruct (holders ean sources) as [|x [|y l]]; simpl.
    + by apply elem_of_nil in Hit.
    + apply list_elem_of_singleton in Hit, Hit'. congruence.
    + lia.
Qed.

End ExactMatcherMore.

Section ExactMatcherMoreClaims.
Context {F : Type} `{PyFloat F}.
Import PyDict PyDictFacts.

(** X10: after the Exact Matcher, a code has a group exactly when two
    sources or more list it, and the members of the group are then the
    items under the code, one per source that lists it, in the order of
    the sources. *)
Theorem combine_by_ean_groups
    (files : list (string * list (source_rec F))) (ean : string) :
  (is_Some (get ean (res_eans (combine_by_ean (load_sources files)))) <->
   (2 <= length (holders ean (load_sources files)))%nat) /\
  (forall g, get ean (res_eans (combine_by_ean (load_sources files))) = Some g ->
     members_of (ean_store (combine_by_ean (load_sources files))) g
     = holders ean (load_sources files)).
Proof.
  destruct (combine_by_ean_inv _ (load_sources_wf files)) as [Hcodes _].
  specialize (Hcodes ean).
  destruct (get ean (res_eans (combine_by_ean (load_sources files)))) as [g|].
  - destruct Hcodes as (Hg & Hlen & _). split.
    + split; [done|]. intros _. by eexists.
    + intros g' [= <-]. unfold members_of. by rewrite Hg.
  - split; [|done]. split; [by intros [? ?]|lia].
Qed.

(** X11: the order of the sources decides the order of the members only:
    for any order, the same codes get a group, and the group of a code has
    the same members up to their order. *)
Theorem combine_by_ean_any_order
    (files : list (string * list (source_rec F)))
    (order : dict string (dict string item)) (ean : string) :
  order ≡ₚ load_sources files ->
  (is_Some (get ean (res_eans (combine_by_ean order))) <->
   is_Some (get ean (res_eans (combine_by_ean (load_sources files))))) /\
  (forall g g',
     get ean (res_eans (combine_by_ean order)) = Some g ->
     get ean (res_eans (combine_by_ean (load_sources files))) = Some g' ->
     members_of (ean_store (combine_by_ean order)) g
     ≡ₚ members_of (ean_store (combine_by_ean (load_sources files))) g').
Proof.
  intros Hperm.
  pose proof (load_sources_wf files) as Hwf.
  pose proof (wf_sources_perm _ _ Hperm Hwf) as Hwf'.
  destruct (combine_by_ean_inv _ Hwf) as [Hcodes _].
  destruct (combine_by_ean_inv _ Hwf') as [Hcodes' _].
  specialize (Hcodes ean). specialize (Hcodes' ean).
  assert (holders ean order ≡ₚ holders ean (load_sources files)) as Hh
    by (unfold holders; by rewrite Hperm).
  destruct (get ean (res_eans (combine_by_ean order))) as [g|];
    destruct (get ean (res_eans (combine_by_ean (load_sources files))))
      as [g'|].
  - destruct Hcodes as (Hg' & _). destruct Hcodes' as (Hg & _).
    split; [done|]. intros ? ? [= <-] [= <-].
    unfold members_of. by rewrite Hg, Hg'.
  - destruct Hcodes' as (_ & Hlen & _). rewrite Hh in Hlen. lia.
  - destruct Hcodes as (_ & Hlen & _). rewrite <- Hh in Hlen. lia.
  - split; [|done]. split; by intros [? ?].
Qed.

(** X12: the Exact Matcher binds exactly the items whose code another
    source lists too; an item whose code is listed by its source only
    leaves the Exact Matcher without ['bind']. *)
Theorem bound_by_code_iff_shared
    (files : list (string * list (source_rec F)))
    (sour : string) (items : dict string item) (ean : string) (it : item) :
  (sour, items) ∈ load_sources files ->
  get ean items = Some it ->
  (is_Some (bind_of (ean_store (combine_by_ean (load_sources files))) it) <->
   exists sour' items' it',
     sour' ≠ sour /\ (sour', items') ∈ load_sources files /\
     get ean items' = Some it').
Proof.
  intros Hin Hget.
  pose proof (load_sources_wf files) as Hwf.
  pose proof (wf_sources_coded _ Hwf) as Hc.
  set (sources := load_sources files) in *.
  destruct (combine_by_ean_inv _ Hwf) as [Hcodes Hgroups].
  destruct (combine_by_ean_store_ok sources) as [[_ Hmem] _].
  assert (it ∈ holders ean sources) as Hit
    by (apply elem_of_holders; eauto).
  destruct (Hc _ _ _ _ Hin Hget) as [Hsour Hcode].
  assert (is_Some (bind_of (ean_store (combine_by_ean sources)) it) <->
          (2 <= length (holders ean sources))%nat) as ->.
  { pose proof (Hcodes ean) as He.
    destruct (get ean (res_eans (combine_by_ean sources))) as [g|] eqn:Eg.
    - destruct He as (_ & Hlen & Hb). split; [done|].
      intros _. rewrite (Hb it Hit). by eexists.
    - split; [|lia]. intros [g Hb]. exfalso.
      destruct (Hmem _ _ Hb) as (it' & Hit' & Hkey).
      destruct (Hgroups g (members_of_valid _ _ _ Hit')) as [ean' He'].
      pose proof (Hcodes ean') as Hean'. rewrite He' in Hean'.
      destruct Hean' as (Hg & _).
      unfold members_of in Hit'. rewrite Hg in Hit'. simpl in Hit'.
      apply (holders_code ean' sources it' Hc) in Hit'.
      apply item_key_code in Hkey. congruence. }
  rewrite (two_holders ean sources it Hwf Hit). split.
  - intros (it' & (sour' & items' & Hin' & Hget')%elem_of_holders & Hne).
    exists sour', items', it'. split_and!; [|done|done].
    destruct (Hc _ _ _ _ Hin' Hget') as [Hs' _]. congruence.
  - intros (sour' & items' & it' & Hne & Hin' & Hget').
    exists it'. split; [apply elem_of_holders; eauto|].
    destruct (Hc _ _ _ _ Hin' Hget') as [Hs' _]. congruence.
Qed.

End ExactMatcherMoreClaims.

Lemma combine_by_ean_any_order_witness :
  (is_Some (PyDict.get "5901234123457"
              (res_eans (combine_by_ean (reverse (load_sources two_shops))))) <->
   is_Some (PyDict.get "5901234123457"
              (res_eans (combine_by_ean (load_sources two_shops))))) /\
  (forall g g',
     PyDict.get "5901234123457"
       (res_eans (combine_by_ean (reverse (load_sources two_shops)))) = Some g ->
     PyDict.get "5901234123457"
       (res_eans (combine_by_ean (load_sources two_shops))) = Some g' ->
     members_of (ean_store (combine_by_ean (reverse (load_sources two_shops)))) g
     ≡ₚ members_of (ean_store (combine_by_ean (load_sources two_shops))) g').
Proof.
  apply (combine_by_ean_any_order two_shops (reverse (load_sources two_shops))
           "5901234123457").
  vm_compute. apply perm_swap.
Defined.

Lemma bound_by_code_iff_shared_witness :
  is_Some (bind_of (ean_store (combine_by_ean (load_sources two_shops))) item_a1)
  <-> exists sour' items' it',
        sour' ≠ "shop_a.xml" /\ (sour', items') ∈ load_sources two_shops /\
        PyDict.get "5901234123457" items' = Some it'.
Proof.
  apply (bound_by_code_iff_shared two_shops "shop_a.xml"
           [("5901234123457", item_a1)] "5901234123457" item_a1).
  - vm_compute. apply list_elem_of_here.
  - reflexivity.
Defined.

(** ** The run: what the groups of its list are *)

Section RunMore.
Variable token_set_ratio : string -> string -> N.
Import PyDict PyDictFacts.

Lemma setdefault_append_ok st it new_item bind st1 :
  store_ok st ->
  setdefault_bind it st = (bind, st1) ->
  store_ok (group_append bind new_item st1) /\
  grows st (group_append bind new_item st1) /\
  (bind < length (groups (group_append bind new_item st1)))%nat.
Proof.
  intros Hok. unfold setdefault_bind.
  destruct (bind_of st it) as [b|] eqn:Eb.
  - intros [= <- <-]. split_and!.
    + by apply store_ok_group_append.
    + apply grows_group_append.
    + destruct Hok as [_ H2]. destruct (H2 _ _ Eb) as (x & Hx & _).
      apply members_of_valid in Hx. unfold group_append. cbn [groups].
      by rewrite length_alter.
  - unfold new_group. intros [= <- <-].
    change {| binds := binds st; groups := groups st ++ [[it]] |}
      with (new_group [it] st).2.
    rewrite new_singleton_append. split_and!.
    + apply store_ok_set_bind.
      * apply store_ok_new_group; [simpl; lia|done].
      * rewrite members_of_new_group, decide_True by done.
        apply list_elem_of_here.
    + eapply grows_trans; [apply (grows_new_group st [it; new_item])|].
      by apply grows_set_bind.
    + unfold set_bind, new_group. cbn [groups snd]. rewrite length_app.
      simpl. lia.
Qed.

Lemma group_in_self st g arr : g ∈ arr -> group_in st g arr = true.
Proof.
  intros Hin. unfold group_in. apply existsb_exists. exists g.
  split; [by apply list_elem_of_In|]. by rewrite bool_decide_eq_true_2.
Qed.

(** What a turn of the loop of [append_by_alias] keeps. *)
Lemma append_alias_item_ok st0 res_brands_items new_sour thr s new_item s' :
  store_ok (alias_store s) /\ table_valid (res_arr s) (alias_store s) /\
  NoDup (res_arr s) /\ grows st0 (alias_store s) ->
  append_alias_item token_set_ratio res_brands_items new_sour thr s new_item
    = Ok s' ->
  store_ok (alias_store s') /\ table_valid (res_arr s') (alias_store s') /\
  NoDup (res_arr s') /\ grows st0 (alias_store s').
Proof.
  intros (Hok & Hv & Hnd & Hg). unfold append_alias_item.
  destruct (bind_of (alias_store s) new_item); [by intros [= <-]|].
  destruct (get (brand new_item) res_brands_items) as [brand_items|]; [|done].
  set (cands := candidates _ brand_items _ _).
  destruct (extractOne _ _ _) as [[a sc]|]; [|by intros [= <-]].
  destruct (thr <=? Z.of_N sc)%Z; [|by intros [= <-]].
  destruct (pick_item a cands None) as [it|]; [|done].
  destruct (setdefault_bind it (alias_store s)) as [bind st1] eqn:Es.
  intros [= <-]. cbn [alias_store res_arr].
  destruct (setdefault_append_ok _ _ new_item _ _ Hok Es) as (Hok' & Hg' & Hlt).
  split_and!.
  - done.
  - destruct (group_in _ bind (res_arr s)) eqn:Ein.
    + by eapply table_valid_grows.
    + intros g [Hin|Hin%list_elem_of_singleton]%elem_of_app.
      * by apply (table_valid_grows _ _ _ Hg' Hv).
      * by subst g.
  - destruct (group_in _ bind (res_arr s)) eqn:Ein; [done|].
    apply NoDup_app. split_and!; [done| |apply NoDup_singleton].
    intros g Hin Hg0%list_elem_of_singleton. subst g.
    by rewrite group_in_self in Ein.
  - by eapply grows_trans.
Qed.

Lemma combine_items_by_alias_ok sources res_brand_items thr st a :
  store_ok st ->
  combine_items_by_alias token_set_ratio sources res_brand_items thr st = Ok a ->
  store_ok (alias_store a) /\ table_valid (res_arr a) (alias_store a) /\
  NoDup (res_arr a) /\ grows st (alias_store a).
Proof.
  intros Hok. unfold combine_items_by_alias.
  apply (for_each_invariant _
           (fun s => store_ok (alias_store s) /\
                     table_valid (res_arr s) (alias_store s) /\
                     NoDup (res_arr s) /\ grows st (alias_store s))).
  - split_and!; [done| |apply NoDup_nil_2|apply grows_refl].
    intros g Hg. by apply elem_of_nil in Hg.
  - intros s [sour items] s' _ Hs. unfold append_by_alias.
    apply (for_each_invariant _
           (fun s => store_ok (alias_store s) /\
                     table_valid (res_arr s) (alias_store s) /\
                     NoDup (res_arr s) /\ grows st (alias_store s)));
      [done|].
    intros s0 it s0' _. apply append_alias_item_ok.
Qed.

Lemma NoDup_values (d : dict string nat) :
  NoDup (keys d) ->
  (forall k1 k2 v, get k1 d = Some v -> get k2 d = Some v -> k1 = k2) ->
  NoDup (values d).
Proof.
  unfold keys, values. induction d as [|[k v] d IH]; intros Hnd Hinj.
  - apply NoDup_nil_2.
  - rewrite fmap_cons in *. apply NoDup_cons in Hnd as [Hk Hnd].
    apply NoDup_cons. split.
    + intros ([k' v'] & Hv & Hin)%list_elem_of_fmap. simpl in Hv. subst v'.
      assert (k = k') as <-.
      { apply (Hinj k k' v); simpl; [by rewrite decide_True|].
        rewrite decide_False.
        - apply elem_get_Some; [done|done].
        - intros ->. apply Hk. by apply (list_elem_of_fmap_2 fst) in Hin. }
      apply Hk. by apply (list_elem_of_fmap_2 fst) in Hin.
    + apply IH; [done|]. intros k1 k2 v0 H1 H2.
      assert (k1 ≠ k) as Hk1.
      { intros ->. apply get_Some_elem in H1.
        apply Hk. by apply (list_elem_of_fmap_2 fst) in H1. }
      assert (k2 ≠ k) as Hk2.
      { intros ->. apply get_Some_elem in H2.
        apply Hk. by apply (list_elem_of_fmap_2 fst) in H2. }
      apply (Hinj k1 k2 v0); simpl; by rewrite decide_False.
Qed.

Lemma combine_by_ean_keys_NoDup (sources : dict string (dict string item)) :
  NoDup (keys (res_eans (combine_by_ean sources))).
Proof.
  unfold combine_by_ean.
  apply (foldl_invariant _ (fun s => NoDup (keys (res_eans s))));
    [apply NoDup_nil_2|].
  intros s [sour items] _ Hs. unfold append_by_ean. cbn [res_eans].
  apply (foldl_invariant _ (fun s => NoDup (keys (res_eans s)))); [done|].
  intros s0 [ean it] _ Hs0. unfold append_ean_item.
  destruct (get ean (res_eans s0)); [done|].
  destruct (first_with_ean ean (ean_sources s0)); [|done].
  unfold new_group. cbn [res_eans]. by apply NoDup_keys_set.
Qed.

End RunMore.

Section RunMoreClaims.
Context {F : Type} `{PyFloat F}.
Variable token_set_ratio : string -> string -> N.
Import PyDict PyDictFacts.

(** The run on the sources of [add_source], taken apart. *)
Lemma combine_parts (files : list (string * list (source_rec F)))
    (thr_b thr_a : Z) :
  exists o a,
    combine token_set_ratio thr_b thr_a (load_sources files) = Ok o /\
    final_store o = alias_store a /\
    same_items_list o
    = values (res_eans (combine_by_ean (load_sources files)))
      ++ filter (fun same_items =>
                   group_in (alias_store a) same_items
                     (values (res_eans (combine_by_ean (load_sources files))))
                   = false)
                (res_arr a) /\
    store_ok (alias_store a) /\
    table_valid (res_arr a) (alias_store a) /\
    NoDup (res_arr a) /\
    grows (ean_store (combine_by_ean (load_sources files))) (alias_store a).
Proof.
  destruct (combine_returns token_set_ratio files thr_b thr_a) as [o Hrun].
  pose proof Hrun as Hrun'. unfold combine in Hrun'.
  destruct (group_items_by_similar_brands _ _ _) as [pools|]; [|done].
  cbn [mbind result_bind rbind] in Hrun'.
  destruct (combine_items_by_alias _ _ _ _ _) as [a|] eqn:Ea; [|done].
  injection Hrun' as <-. eexists _, a. cbn [final_store same_items_list].
  split_and!; [exact Hrun|done|done|..];
    eapply (combine_items_by_alias_ok token_set_ratio); try exact Ea;
    apply combine_by_ean_store_ok.
Qed.

(** X13: the Alias Matcher only appends: every list object the Exact
    Matcher left keeps its members in front, every item it bound stays
    bound to the same list object, and so the group of a code still begins
    with the items under the code, in the order of the sources. *)
Theorem alias_matcher_only_appends
    (files : list (string * list (source_rec F))) (thr_b thr_a : Z) :
  exists o,
    combine token_set_ratio thr_b thr_a (load_sources files) = Ok o /\
    (forall g,
       members_of (ean_store (combine_by_ean (load_sources files))) g
       `prefix_of` members_of (final_store o) g) /\
    (forall it g,
       bind_of (ean_store (combine_by_ean (load_sources files))) it = Some g ->
       bind_of (final_store o) it = Some g) /\
    (forall ean g,
       get ean (res_eans (combine_by_ean (load_sources files))) = Some g ->
       holders ean (load_sources files) `prefix_of` members_of (final_store o) g).
Proof.
  destruct (combine_parts files thr_b thr_a)
    as (o & a & Hrun & Hst & _ & _ & _ & _ & (Hmem & Hbind & _)).
  exists o. rewrite Hst. split_and!; [done|done| |].
  - intros it g. apply Hbind.
  - intros ean g He.
    destruct (combine_by_ean_inv _ (load_sources_wf files)) as [Hcodes _].
    specialize (Hcodes ean). rewrite He in Hcodes. destruct Hcodes as (Hg & _).
    specialize (Hmem g). unfold members_of at 1 in Hmem. by rewrite Hg in Hmem.
Qed.

(** X14: no group of the list the run writes out has fewer than two
    members. *)
Theorem written_groups_have_two_members
    (files : list (string * list (source_rec F))) (thr_b thr_a : Z) :
  exists o,
    combine token_set_ratio thr_b thr_a (load_sources files) = Ok o /\
    forall same_items,
      same_items ∈ result_list o -> (2 <= length same_items)%nat.
Proof.
  destruct (combine_parts files thr_b thr_a)
    as (o & a & Hrun & Hst & Hlist & [Htwo _] & Hv & _ & Hg).
  exists o. split; [done|]. intros same_items Hin.
  unfold result_list in Hin. apply list_elem_of_fmap in Hin as (g & -> & Hin).
  rewrite length_fmap, Hst.
  assert (g < length (groups (alias_store a)))%nat as Hlt.
  { rewrite Hlist in Hin. apply elem_of_app in Hin as [Hin|Hin].
    - eapply table_valid_grows; [exact Hg| |exact Hin].
      apply combine_by_ean_store_ok.
    - apply list_elem_of_filter in Hin as [_ Hin]. by apply Hv. }
  unfold members_of. apply lookup_lt_is_Some_2 in Hlt as [m Hm].
  rewrite Hm. by apply (Htwo g).
Qed.

(** X15: no list object is written out twice: the code-based groups are
    those of different codes, and an alias-based group is added once and
    only when it is none of the code-based ones. *)
Theorem no_group_written_twice
    (files : list (string * list (source_rec F))) (thr_b thr_a : Z) :
  exists o,
    combine token_set_ratio thr_b thr_a (load_sources files) = Ok o /\
    NoDup (same_items_list o).
Proof.
  destruct (combine_parts files thr_b thr_a)
    as (o & a & Hrun & Hst & Hlist & _ & _ & Hnd & _).
  exists o. split; [done|]. rewrite Hlist. apply NoDup_app. split_and!.
  - apply NoDup_values; [apply combine_by_ean_keys_NoDup|].
    intros k1 k2 v. apply res_eans_injective, load_sources_wf.
  - intros g Hg [Hf _]%list_elem_of_filter.
    by rewrite (group_in_self _ _ _ Hg) in Hf.
  - by apply NoDup_filter.
Qed.

(** X16: an item that has a ['bind'] at the end of the run is a member of
    the list object it is bound to (as the per-code copy it is). *)
Theorem bound_item_is_member
    (files : list (string * list (source_rec F))) (thr_b thr_a : Z) :
  exists o,
    combine token_set_ratio thr_b thr_a (load_sources files) = Ok o /\
    forall it g,
      bind_of (final_store o) it = Some g ->
      exists it', it' ∈ members_of (final_store o) g /\ same_copy it' it = true.
Proof.
  destruct (combine_parts files thr_b thr_a)
    as (o & a & Hrun & Hst & _ & [_ Hmem] & _).
  exists o. split; [done|]. intros it g Hb. rewrite Hst in *.
  destruct (Hmem _ _ Hb) as (it' & Hit' & Hkey).
  exists it'. split; [done|]. by apply bool_decide_eq_true_2.
Qed.

End RunMoreClaims.

(** ** Brand Clusterer *)

Section BrandClustererMore.
Variable token_set_ratio : string -> string -> N.
Import PyDict PyDictFacts.

(** X17: [group_items_by_brands] loses no item and keeps their order: under
    a brand it has the items of that brand, in the order of the source,
    and it has no entry for a brand of no item. *)
Theorem group_items_by_brands_lists (items : dict string item) (b : string) :
  get b (group_items_by_brands items)
  = match filter (fun it => brand it = b) (values items) with
    | [] => None
    | l => Some l
    end.
Proof.
  unfold group_items_by_brands.
  set (step := fun brands it => _).
  apply (foldl_prefix_invariant step
           (fun pre brands =>
              get b brands = match filter (fun it => brand it = b) pre with
                             | [] => None
                             | l => Some l
                             end)); [done|].
  intros pre x post brands _ Hpre. unfold step. rewrite filter_app, filter_cons.
  destruct (decide (brand x = b)) as [<-|Hne].
  - rewrite get_set_eq, Hpre.
    by destruct (filter (fun it => brand it = brand x) pre).
  - rewrite get_set_ne by done. rewrite Hpre, filter_nil, app_nil_r. done.
Qed.

Lemma match_brand_inv thr new_sour s new_brand new_items s1 seen :
  brands_inv seen s ->
  match_brand token_set_ratio thr new_sour s new_brand new_items = Ok s1 ->
  brands_inv (seen ++ [{| tb_name := new_brand; tb_source := new_sour;
                          tb_items := new_items |}]) s1.
Proof.
  intros [Hv Hseen].
  set (t0 := {| tb_name := new_brand; tb_source := new_sour;
                tb_items := new_items |}).
  (* joining the list object [c] of a brand name *)
  assert (forall c res,
            (c < length (clusters s))%nat ->
            get new_brand res = Some c ->
            (forall b c', get b (res_brands s) = Some c' -> get b res = Some c') ->
            (forall b c', get b res = Some c' -> (c' < length (clusters s))%nat) ->
            brands_inv (seen ++ [t0])
              {| res_brands := res;
                 clusters := alter (fun l => l ++ [t0]) c (clusters s) |})
    as Hjoin.
  { intros c res Hc Hnew Hkeep Hres. split; cbn [res_brands clusters].
    - intros b c' Hb. rewrite length_alter. by eapply Hres.
    - intros t [Ht|Ht%list_elem_of_singleton]%elem_of_app.
      + destruct (Hseen t Ht) as (ct & l & Hget & Hl & Hin).
        exists ct. destruct (decide (ct = c)) as [->|Hne].
        * exists (l ++ [t0]). split_and!; [by apply Hkeep| |].
          -- by rewrite list_lookup_alter_eq, Hl.
          -- apply elem_of_app. by left.
        * exists l. split_and!; [by apply Hkeep| |done].
          by rewrite list_lookup_alter_ne.
      + subst t. apply lookup_lt_is_Some_2 in Hc as [l Hl].
        exists c, (l ++ [t0]). split_and!; [done| |].
        * by rewrite list_lookup_alter_eq, Hl.
        * apply elem_of_app. right. by apply list_elem_of_singleton. }
  (* starting a list object for a brand name that is new *)
  assert (get new_brand (res_brands s) = None ->
          brands_inv (seen ++ [t0])
            {| res_brands := set new_brand (length (clusters s)) (res_brands s);
               clusters := clusters s ++ [[t0]] |}) as Hstart.
  { intros Hnone. split; cbn [res_brands clusters].
    - intros b c. rewrite length_app. simpl.
      destruct (decide (new_brand = b)) as [<-|Hne].
      + rewrite get_set_eq. intros [= <-]. lia.
      + rewrite get_set_ne by done. intros Hb. specialize (Hv b c Hb). lia.
    - intros t [Ht|Ht%list_elem_of_singleton]%elem_of_app.
      + destruct (Hseen t Ht) as (ct & l & Hget & Hl & Hin).
        exists ct, l. split_and!; [| |done].
        * rewrite get_set_ne; [done|]. intros Heq. congruence.
        * by apply lookup_app_l_Some.
      + subst t. exists (length (clusters s)), [t0].
        split_and!; [apply get_set_eq|by apply list_lookup_middle|].
        apply list_elem_of_here. }
  unfold match_brand. fold t0.
  destruct (get new_brand (res_brands s)) as [c|] eqn:Eg.
  - intros [= <-]. apply Hjoin; [by eapply Hv|done|done|done].
  - destruct (res_brands s) as [|[k0 c0] rest] eqn:Er.
    + intros [= <-]. exact (Hstart eq_refl).
    + rewrite <- Er in *.
      destruct (extractOne _ _ _) as [[b sc]|]; [|done].
      destruct (thr <=? Z.of_N sc)%Z.
      * destruct (get b (res_brands s)) as [cl|] eqn:Ecl; [|done].
        intros [= <-]. apply Hjoin.
        -- by eapply Hv.
        -- apply get_set_eq.
        -- intros b' c' Hb'. rewrite get_set_ne; [done|]. intros <-. congruence.
        -- intros b' c'. destruct (decide (new_brand = b')) as [<-|Hne].
           ++ rewrite get_set_eq. intros [= <-]. by eapply Hv.
           ++ rewrite get_set_ne by done. apply Hv.
      * intros [= <-]. by apply Hstart.
Qed.

Lemma brand_triples_app bs1 bs2 :
  brand_triples (bs1 ++ bs2) = brand_triples bs1 ++ brand_triples bs2.
Proof. unfold brand_triples. by rewrite map_app, concat_app. Qed.

Lemma match_brands_inv brand_sources thr s :
  match_brands token_set_ratio brand_sources thr = Ok s ->
  brands_inv (brand_triples brand_sources) s.
Proof.
  unfold match_brands.
  apply (for_each_prefix_invariant _
           (fun pre s => brands_inv (brand_triples pre) s)).
  - split; [done|]. intros t Ht. by apply elem_of_nil in Ht.
  - intros pre [sour brands] post s0 s1 _ Hpre.
    rewrite brand_triples_app. unfold brand_triples at 2. cbn [map concat].
    rewrite app_nil_r.
    apply (for_each_prefix_invariant _
             (fun pre' s =>
                brands_inv
                  (brand_triples pre ++
                   map (fun '(b, items) =>
                          {| tb_name := b; tb_source := sour;
                             tb_items := items |}) pre') s)).
    + by rewrite app_nil_r.
    + intros pre' [b items] post' s2 s3 _ Hpre' Hstep.
      rewrite map_app, app_assoc. cbn [map]. by eapply match_brand_inv.
Qed.

Lemma get_map_values {V W} (f : V -> W) (d : dict string V) k :
  get k (map (fun '(k0, v) => (k0, f v)) d) = f <$> get k d.
Proof.
  induction d as [|[k0 v] d IH]; [done|]. cbn [map get].
  by destruct (decide (k = k0)).
Qed.

End BrandClustererMore.

Section BrandClustererMoreClaims.
Context {F : Type} `{PyFloat F}.
Variable token_set_ratio : string -> string -> N.
Import PyDict PyDictFacts.

(** X18: every item of every source is in the candidate pool of its own
    brand, whatever the scorer and the brand threshold. *)
Theorem item_in_pool_of_its_brand
    (files : list (string * list (source_rec F))) (thr : Z)
    (sour : string) (items : dict string item) (it : item) :
  (sour, items) ∈ load_sources files ->
  it ∈ values items ->
  exists pools pool,
    group_items_by_similar_brands token_set_ratio (load_sources files) thr
      = Ok pools /\
    get (brand it) pools = Some pool /\ it ∈ pool.
Proof.
  intros Hin Hit.
  destruct (load_sources_wf files) as [Hnd _].
  destruct (group_items_by_similar_brands_returns token_set_ratio
              (load_sources files) thr Hnd) as (pools & Hpools & _).
  exists pools. unfold group_items_by_similar_brands in *.
  destruct (match_brands _ _ _) as [s|] eqn:Em; [|done].
  cbn [mbind result_bind rbind] in Hpools. injection Hpools as <-.
  destruct (match_brands_inv _ _ _ _ Em) as [_ Hseen].
  set (l := filter (fun it0 => brand it0 = brand it) (values items)).
  assert (it ∈ l) as Hl by (by apply list_elem_of_filter).
  assert (get (brand it) (group_items_by_brands items) = Some l) as Hg.
  { rewrite group_items_by_brands_lists. fold l. revert Hl. generalize l.
    intros [|x l0] Hx; [by apply elem_of_nil in Hx|done]. }
  destruct (Hseen {| tb_name := brand it; tb_source := sour; tb_items := l |})
    as (c & cl & Hc & Hcl & Ht).
  { unfold brand_triples. apply list_elem_of_In, in_concat.
    exists (map (fun '(b, items0) =>
                   {| tb_name := b; tb_source := sour; tb_items := items0 |})
                (group_items_by_brands items)).
    split.
    - apply in_map_iff. exists (sour, group_items_by_brands items).
      split; [done|]. apply list_elem_of_In.
      by apply create_brand_sources_entries.
    - apply in_map_iff. exists (brand it, l). split; [done|].
      apply list_elem_of_In. by apply get_Some_elem. }
  cbn [tb_name] in Hc.
  eexists. split; [reflexivity|].
  rewrite (get_map_values
             (fun brand_list =>
                concat (map tb_items (default [] (clusters s !! brand_list))))),
    Hc.
  split; [reflexivity|]. rewrite Hcl. cbn [default].
  apply list_elem_of_In, in_concat. exists l. split; [|by apply list_elem_of_In].
  apply in_map_iff. exists {| tb_name := brand it; tb_source := sour; tb_items := l |}.
  split; [done|by apply list_elem_of_In].
Qed.

End BrandClustererMoreClaims.

Lemma item_in_pool_of_its_brand_witness :
  exists pools pool,
    group_items_by_similar_brands word_set_ratio (load_sources two_shops) 80
      = Ok pools /\
    PyDict.get (brand item_a1) pools = Some pool /\ item_a1 ∈ pool.
Proof.
  apply (item_in_pool_of_its_brand word_set_ratio two_shops 80 "shop_a.xml"
           [("5901234123457", item_a1)] item_a1).
  - vm_compute. apply list_elem_of_here.
  - vm_compute. apply list_elem_of_here.
Defined.

Section OneCluster.
Variable token_set_ratio : string -> string -> N.
Import PyDict PyDictFacts.

Lemma match_brand_one_cluster thr new_sour s new_brand new_items s1 :
  (thr <= 0)%Z ->
  (res_brands s = [] -> clusters s = []) ->
  (forall b c, get b (res_brands s) = Some c -> c = 0%nat) ->
  match_brand token_set_ratio thr new_sour s new_brand new_items = Ok s1 ->
  (res_brands s1 = [] -> clusters s1 = []) /\
  (forall b c, get b (res_brands s1) = Some c -> c = 0%nat).
Proof.
  intros Hthr Hempty Hzero. unfold match_brand.
  destruct (get new_brand (res_brands s)) as [c|] eqn:Eg.
  - intros [= <-]. cbn [res_brands clusters]. split; [|done].
    intros E. rewrite E in Eg. done.
  - destruct (res_brands s) as [|[k0 c0] rest] eqn:Er.
    + intros [= <-]. cbn [res_brands clusters]. rewrite (Hempty eq_refl).
      split; [done|]. intros b c. simpl. by case_decide; intros [= <-].
    + rewrite <- Er in *.
      destruct (extractOne _ _ _) as [[b sc]|]; [|done].
      assert ((thr <=? Z.of_N sc)%Z = true) as -> by (apply Z.leb_le; lia).
      destruct (get b (res_brands s)) as [cl|] eqn:Ecl; [|done].
      intros [= <-]. cbn [res_brands clusters]. split.
      * intros E. exfalso. revert E. rewrite Er. simpl. by case_decide.
      * intros b' c'. destruct (decide (new_brand = b')) as [<-|Hne].
        -- rewrite get_set_eq. intros [= <-]. by eapply Hzero.
        -- rewrite get_set_ne by done. apply Hzero.
Qed.

Lemma match_brands_one_cluster brand_sources thr s :
  (thr <= 0)%Z ->
  match_brands token_set_ratio brand_sources thr = Ok s ->
  forall b c, get b (res_brands s) = Some c -> c = 0%nat.
Proof.
  intros Hthr Hrun.
  enough ((res_brands s = [] -> clusters s = []) /\
          (forall b c, get b (res_brands s) = Some c -> c = 0%nat)) as [_ Hz]
    by done.
  revert Hrun. unfold match_brands.
  apply (for_each_invariant _
           (fun s => (res_brands s = [] -> clusters s = []) /\
                     (forall b c, get b (res_brands s) = Some c -> c = 0%nat))).
  - done.
  - intros s0 [sour brands] s1 _ Hs0.
    apply (for_each_invariant _
             (fun s => (res_brands s = [] -> clusters s = []) /\
                       (forall b c, get b (res_brands s) = Some c -> c = 0%nat)));
      [done|].
    intros s2 [b items] s3 _ [He Hz]. by apply match_brand_one_cluster.
Qed.

End OneCluster.

Section OneClusterClaims.
Context {F : Type} `{PyFloat F}.
Variable token_set_ratio : string -> string -> N.
Import PyDict PyDictFacts.

(** X19: with a brand threshold of 0 or less every brand joins the first
    one: all brands have the same candidate pool. *)
Theorem brand_threshold_zero_one_pool
    (files : list (string * list (source_rec F))) (thr : Z) :
  (thr <= 0)%Z ->
  exists pools,
    group_items_by_similar_brands token_set_ratio (load_sources files) thr
      = Ok pools /\
    forall b1 b2 pool1 pool2,
      get b1 pools = Some pool1 -> get b2 pools = Some pool2 -> pool1 = pool2.
Proof.
  intros Hthr.
  destruct (load_sources_wf files) as [Hnd _].
  destruct (group_items_by_similar_brands_returns token_set_ratio
              (load_sources files) thr Hnd) as (pools & Hpools & _).
  exists pools. split; [done|].
  unfold group_items_by_similar_brands in Hpools.
  destruct (match_brands _ _ _) as [s|] eqn:Em; [|done].
  cbn [mbind result_bind rbind] in Hpools. injection Hpools as <-.
  intros b1 b2 pool1 pool2.
  rewrite !(get_map_values
              (fun brand_list =>
                 concat (map tb_items (default [] (clusters s !! brand_list))))).
  destruct (get b1 (res_brands s)) as [c1|] eqn:E1; [|done].
  destruct (get b2 (res_brands s)) as [c2|] eqn:E2; [|done].
  rewrite (match_brands_one_cluster _ _ _ _ Hthr Em _ _ E1),
          (match_brands_one_cluster _ _ _ _ Hthr Em _ _ E2).
  simpl. congruence.
Qed.

End OneClusterClaims.

Lemma brand_threshold_zero_one_pool_witness :
  exists pools,
    group_items_by_similar_brands word_set_ratio (load_sources three_shops) 0
      = Ok pools /\
    forall b1 b2 pool1 pool2,
      PyDict.get b1 pools = Some pool1 -> PyDict.get b2 pools = Some pool2 ->
      pool1 = pool2.
Proof.
  apply (brand_threshold_zero_one_pool word_set_ratio three_shops 0). lia.
Defined.

(** ** Per-source parsers *)

Section SpreadFacts.
Context {V : Type}.
Import PyDict PyDictFacts.

Lemma spread_cons (d : dict string V) k v d2 :
  spread d ((k, v) :: d2) = spread (set k v d) d2.
Proof. done. Qed.

Lemma get_spread_notin (d d2 : dict string V) k :
  k ∉ keys d2 -> get k (spread d d2) = get k d.
Proof.
  revert d. induction d2 as [|[k' v'] d2 IH]; intros d Hk; [done|].
  rewrite spread_cons. unfold keys in Hk. cbn [fmap list_fmap fst] in Hk.
  apply not_elem_of_cons in Hk as [Hne Hk].
  rewrite IH by done. by rewrite get_set_ne.
Qed.

Lemma get_spread_in (d d2 : dict string V) k v :
  NoDup (keys d2) -> get k d2 = Some v -> get k (spread d d2) = Some v.
Proof.
  revert d. induction d2 as [|[k' v'] d2 IH]; intros d Hnd; [done|].
  unfold keys in Hnd. cbn [fmap list_fmap fst] in Hnd.
  apply NoDup_cons in Hnd as [Hk' Hnd].
  rewrite spread_cons. cbn [get]. case_decide as Hk.
  - intros [= ->]. subst k'. rewrite get_spread_notin by done. apply get_set_eq.
  - by apply IH.
Qed.

Lemma get_pop_ne k0 (v : V) (rec : dict string V) k :
  k ≠ k0 -> get k (pop k0 v rec).2 = get k rec.
Proof.
  intros Hne. unfold pop, dict. cbn [snd].
  induction rec as [|[k' v'] rec IH]; [done|].
  rewrite filter_cons. cbn [fst get]. destruct (decide (k' ≠ k0)) as [Hk'|Hk'].
  - cbn [get]. case_decide; [done|apply IH].
  - apply dec_stable in Hk'. subst k'. rewrite IH. by rewrite decide_False.
Qed.

End SpreadFacts.

Section ParsersMore.
Context {F : Type} `{PyFloat F}.
Import PyDict PyDictFacts.

Lemma parse_size_value_absent :
  parse_size_value (F:=F) RNone
  = Parsed {| Weight := None; Weight_UnitOfMeasurement := None |}.
Proof. done. Qed.

Lemma get_size_entries_Weight (r : size_rec (F:=F)) :
  get "Weight" (size_entries r) = RNum <$> Weight r.
Proof.
  unfold size_entries.
  destruct (Weight r), (Weight_UnitOfMeasurement r); done.
Qed.

Lemma get_size_entries_unit (r : size_rec (F:=F)) :
  get "Weight_UnitOfMeasurement" (size_entries r)
  = RText <$> Weight_UnitOfMeasurement r.
Proof.
  unfold size_entries.
  destruct (Weight r), (Weight_UnitOfMeasurement r); done.
Qed.

Lemma spread_size_entries (r : size_rec (F:=F)) :
  spread [] (size_entries r) = size_entries r.
Proof.
  unfold size_entries.
  destruct (Weight r), (Weight_UnitOfMeasurement r); done.
Qed.

(** X20: [d2_parse] reads an amount from ['Weight'] and then puts the
    record over it: what the result has under ['Weight'] is what the
    record has there, never the amount read.  So a record whose weight is
    a text hands no number on to [create_item]. *)
Theorem d2_parse_keeps_raw_weight (rec d : dict string (raw F)) :
  NoDup (keys rec) ->
  (forall translation,
     get "ProductTranslation" rec = Some (RDict translation) ->
     "Weight" ∉ keys translation) ->
  d2_parse rec = Parsed d ->
  get "Weight" d = get "Weight" rec /\
  (forall s, get "Weight" rec = Some (RText s) -> weight_number d = None).
Proof.
  intros Hnd Htr Hrun.
  enough (get "Weight" d = get "Weight" rec) as Hw.
  { split; [done|]. intros s Hs. unfold weight_number. by rewrite Hw, Hs. }
  revert Hrun. unfold d2_parse.
  destruct (parse_size_value _) as [size|e] eqn:Esize; [|done].
  cbn [mbind parsed_bind].
  destruct (pop "ProductTranslation" (RDict []) rec) as [tr rec'] eqn:Epop.
  destruct (mapping tr) as [translation|e] eqn:Etr; [|done].
  cbn [mbind parsed_bind]. intros [= <-].
  rewrite !get_set_ne by done.
  assert ("Weight" ∉ keys translation) as Hnot.
  { destruct tr; try done. injection Etr as ->.
    unfold pop in Epop. injection Epop as Etr _.
    destruct (get "ProductTranslation" rec) as [v|] eqn:Eg.
    - simpl in Etr. subst v. by apply Htr.
    - simpl in Etr. injection Etr as <-. apply not_elem_of_nil. }
  rewrite get_spread_notin by done.
  destruct (get "Weight" rec) as [w|] eqn:Ew.
  - by apply get_spread_in.
  - rewrite get_spread_notin.
    + cbn [default] in Esize. rewrite parse_size_value_absent in Esize.
      by injection Esize as <-.
    + intros Hin. apply elem_of_keys in Hin as [v Hv]. congruence.
Qed.

(** X21: [d3_parse] hands on the amount and the unit it reads from
    ['Contenido'] unless the record has a ['Weight'] or a unit of its own,
    files the brand and the id under the canonical keys, and passes
    ['name'] and ['EANs'] on as the record has them; it raises [KeyError]
    on a record without ['BrandName'] or ['Id']. *)
Theorem d3_parse_result (rec : dict string (raw F)) (size : size_rec (F:=F)) :
  NoDup (keys rec) ->
  parse_size_value (default RNone (get "Contenido" rec)) = Parsed size ->
  match d3_parse rec with
  | Parsed d =>
      get "Brand" d = get "BrandName" rec /\
      get "id" d = get "Id" rec /\
      get "name" d = get "name" rec /\
      get "EANs" d = get "EANs" rec /\
      get "Weight" d
        = (if decide ("Weight" ∈ keys rec) then get "Weight" rec
           else RNum <$> Weight size) /\
      get "Weight_UnitOfMeasurement" d
        = (if decide ("Weight_UnitOfMeasurement" ∈ keys rec)
           then get "Weight_UnitOfMeasurement" rec
           else RText <$> Weight_UnitOfMeasurement size)
  | Fails e =>
      e = Exn KeyError /\
      (get "BrandName" rec = None \/ get "Id" rec = None)
  end.
Proof.
  intros Hnd Esize. unfold d3_parse. rewrite Esize. cbn [mbind parsed_bind].
  unfold subscript.
  destruct (get "BrandName" rec) as [b|] eqn:Eb; [|by split; [|left]].
  cbn [mbind parsed_bind].
  destruct (get "Id" rec) as [i|] eqn:Ei; [|by split; [|right]].
  cbn [mbind parsed_bind].
  assert (forall k, get k (spread (spread [] (size_entries size)) rec)
                    = if decide (k ∈ keys rec) then get k rec
                      else get k (size_entries size)) as Hget.
  { intros k. case_decide as Hk.
    - apply elem_of_keys in Hk as [v Hv]. rewrite Hv. by apply get_spread_in.
    - rewrite get_spread_notin by done. by rewrite spread_size_entries. }
  assert (forall k, k ≠ "Weight" -> k ≠ "Weight_UnitOfMeasurement" ->
                    get k (size_entries size) = None) as Hsize.
  { intros k H1 H2. unfold size_entries.
    destruct (Weight size), (Weight_UnitOfMeasurement size); cbn [app get];
      repeat case_decide; done. }
  split_and!.
  - rewrite get_set_ne by done. by rewrite get_set_eq.
  - by rewrite get_set_eq.
  - rewrite !get_set_ne by done. rewrite Hget. case_decide as Hk; [done|].
    rewrite Hsize by done. symmetry. by apply get_None.
  - rewrite !get_set_ne by done. rewrite Hget. case_decide as Hk; [done|].
    rewrite Hsize by done. symmetry. by apply get_None.
  - rewrite !get_set_ne by done. rewrite Hget.
    by rewrite get_size_entries_Weight.
  - rewrite !get_set_ne by done. rewrite Hget.
    by rewrite get_size_entries_unit.
Qed.

End ParsersMore.

Section ParsersMoreD1.
Context {F : Type} `{PyFloat F}.
Import PyDict PyDictFacts.

(** X22: [d1_parse] files the manufacturer and the name under the
    canonical keys and the one code of the record, if it has one, as its
    list of codes; under any other key an entry of ['WAREHOUSES'] wins
    over the record's own, and the record's over the amount and unit read
    from ['SIZE'].  It raises [KeyError] on a record without
    ['MANUFACTURER'] or ['NAME']. *)
Theorem d1_parse_result (rec warehouses : dict string (raw F))
    (size : size_rec (F:=F)) :
  NoDup (keys rec) ->
  NoDup (keys warehouses) ->
  parse_size_value (default RNone (get "SIZE" rec)) = Parsed size ->
  default (RDict []) (get "WAREHOUSES" rec) = RDict warehouses ->
  match d1_parse rec with
  | Parsed d =>
      get "Brand" d = get "MANUFACTURER" rec /\
      get "name" d = get "NAME" rec /\
      get "EANs" d = Some (ean_list rec) /\
      forall k, k ≠ "Brand" -> k ≠ "name" -> k ≠ "EANs" ->
        get k d = if decide (k ∈ keys warehouses) then get k warehouses
                  else if decide (k ∈ keys rec) then get k rec
                  else get k (size_entries size)
  | Fails e =>
      e = Exn KeyError /\
      (get "MANUFACTURER" rec = None \/ get "NAME" rec = None)
  end.
Proof.
  intros Hnd Hndw Esize Ewh. unfold d1_parse. rewrite Esize.
  cbn [mbind parsed_bind].
  destruct (pop "WAREHOUSES" (RDict []) rec) as [wh rec'] eqn:Epop.
  assert (wh = RDict warehouses) as ->.
  { unfold pop in Epop. injection Epop as <- _. done. }
  assert (forall k, k ≠ "WAREHOUSES" -> get k rec' = get k rec) as Hrec'.
  { intros k Hk. replace rec' with (pop "WAREHOUSES" (RDict []) rec).2
      by (by rewrite Epop). by apply get_pop_ne. }
  cbn [mapping mbind parsed_bind]. unfold subscript.
  rewrite !Hrec' by done.
  destruct (get "MANUFACTURER" rec) as [m|] eqn:Em; [|by split; [|left]].
  cbn [mbind parsed_bind].
  destruct (get "NAME" rec) as [n|] eqn:En; [|by split; [|right]].
  cbn [mbind parsed_bind]. split_and!.
  - rewrite !get_set_ne by done. by rewrite get_set_eq.
  - rewrite get_set_ne by done. by rewrite get_set_eq.
  - rewrite get_set_eq. unfold ean_list. by rewrite Hrec'.
  - intros k H1 H2 H3. rewrite !get_set_ne by done.
    case_decide as Hw.
    + apply elem_of_keys in Hw as [v Hv]. rewrite Hv. by apply get_spread_in.
    + rewrite get_spread_notin by done. case_decide as Hk.
      * apply elem_of_keys in Hk as [v Hv]. rewrite Hv. by apply get_spread_in.
      * rewrite get_spread_notin by done. by rewrite spread_size_entries.
Qed.

End ParsersMoreD1.

Lemma d2_parse_keeps_raw_weight_witness :
  exists d,
    d2_parse RawSamples.product = Parsed d /\
    PyDict.get "Weight" d = PyDict.get "Weight" RawSamples.product /\
    (forall s, PyDict.get "Weight" RawSamples.product = Some (RText s) ->
               weight_number d = None).
Proof.
  eexists. split; [vm_compute; reflexivity|].
  apply (d2_parse_keeps_raw_weight RawSamples.product).
  - apply (bool_decide_unpack _). vm_compute. exact I.
  - intros translation [= <-]. apply (bool_decide_unpack _). vm_compute. exact I.
  - vm_compute. reflexivity.
Defined.

Lemma d3_parse_result_witness :
  match d3_parse RawSamples.json_record with
  | Parsed d =>
      PyDict.get "Brand" d = Some (RText "Acme") /\
      PyDict.get "id" d = Some (RText "c3") /\
      PyDict.get "name" d = Some (RText "Acme Shampoo") /\
      PyDict.get "EANs" d = Some (RList [RText "5901234123457"]) /\
      PyDict.get "Weight" d
        = Some (RNum {| DecimalFloat.mant := 100; DecimalFloat.scale := 0 |}) /\
      PyDict.get "Weight_UnitOfMeasurement" d = Some (RText "ml")
  | Fails e =>
      e = Exn KeyError /\
      (PyDict.get "BrandName" RawSamples.json_record = None \/
       PyDict.get "Id" RawSamples.json_record = None)
  end.
Proof.
  apply (d3_parse_result RawSamples.json_record RawSamples.size_100_ml).
  - apply (bool_decide_unpack _). vm_compute. exact I.
  - vm_compute. reflexivity.
Defined.

Lemma d1_parse_result_witness :
  match d1_parse RawSamples.shopitem with
  | Parsed d =>
      PyDict.get "Brand" d = Some (RText "Acme") /\
      PyDict.get "name" d = Some (RText "Acme Shampoo 100 ml") /\
      PyDict.get "EANs" d = Some (RList [RText "5901234123457"]) /\
      forall k, k ≠ "Brand" -> k ≠ "name" -> k ≠ "EANs" ->
        PyDict.get k d
        = if decide (k ∈ ["id"; "STOCK"])
          then PyDict.get k [("id", RText "w1"); ("STOCK", RText "12")]
          else if decide (k ∈ PyDict.keys RawSamples.shopitem)
               then PyDict.get k RawSamples.shopitem
               else PyDict.get k (size_entries RawSamples.size_100_ml)
  | Fails e =>
      e = Exn KeyError /\
      (PyDict.get "MANUFACTURER" RawSamples.shopitem = None \/
       PyDict.get "NAME" RawSamples.shopitem = None)
  end.
Proof.
  apply (d1_parse_result RawSamples.shopitem
           [("id", RText "w1"); ("STOCK", RText "12")] RawSamples.size_100_ml).
  - apply (bool_decide_unpack _). vm_compute. exact I.
  - apply (bool_decide_unpack _). vm_compute. exact I.
  - vm_compute. reflexivity.
  - reflexivity.
Defined.
